(** * Venue adapters of the NEXUS trading dashboard

    A shallow embedding of the three venue adapters of the dashboard,
    [TradingAPI] (src/lib/trading-api.ts), [CryptoAPI]
    (src/lib/crypto-api.ts) and [RithmicAPI] (the Rithmic gateway client),
    together with the part of the browser they run against: WebSocket
    objects and their ready states, [setTimeout], [fetch], [Date.now] and
    the console.

    Every adapter method is a computation in a state-and-exception monad
    over the adapter's private fields and the browser world.  Whatever the
    adapter does to the outside (sockets opened and closed, frames sent,
    timers armed, HTTP requests issued, callbacks invoked) is appended to
    the world's list of effects, in the order in which it happens.

    Values read off the wire are JavaScript values; what the adapter builds
    from them (ticks, orders, messages) is kept as the expression the
    source writes, so that no rounding of floating-point arithmetic and no
    number parsing is assumed. *)

From Stdlib Require Import ZArith String List Floats.
From Stdlib.Strings Require Import Byte.
From stdpp Require Import base option list gmap strings pretty.

Set Warnings "-register-all,-inexact-float".

Local Open Scope string_scope.
Local Open Scope Z_scope.
Local Open Scope list_scope.

(** ** JavaScript values *)

Module JS.

(** What [JSON.parse] yields, plus [undefined], which reading a missing
    property yields, and the [ArrayBuffer] of a binary frame.  JavaScript
    numbers are binary64 floats. *)
Inductive value : Type :=
| VUndef
| VNull
| VBool (b : bool)
| VNum (f : float)
| VStr (s : string)
| VArr (items : list value)
| VObj (fields : list (string * value))
| VBuf (bytes : list byte).

(** The exceptions the adapters meet: [new Error(msg)] of their own, the
    built-in errors raised by the language and the browser, and whatever a
    callback supplied by the UI throws. *)
Inductive exn : Type :=
| Error (msg : string)
| TypeError
| RangeError
| SyntaxError
| InvalidStateError
| Thrown (tag : nat).

Inductive res (A : Type) : Type :=
| Ok (a : A)
| Throw (e : exn).
Arguments Ok {A} a.
Arguments Throw {A} e.

Definition res_bind {A B} (r : res A) (k : A -> res B) : res B :=
  match r with
  | Ok a => k a
  | Throw e => Throw e
  end.

Declare Scope res_scope.
Delimit Scope res_scope with res.
Bind Scope res_scope with res.
Notation "x <- r ;; k" := (res_bind r (fun x => k))
  (at level 100, r at next level, right associativity) : res_scope.

Fixpoint res_map {A B} (f : A -> res B) (l : list A) : res (list B) :=
  match l with
  | [] => Ok []
  | a :: l' =>
      (b <- f a ;;
       bs <- res_map f l' ;;
       Ok (b :: bs))%res
  end.

(** [ToBoolean]: [undefined], [null], [false], [0], [-0], [NaN] and the
    empty string are falsy; everything else, every object and array
    included, is truthy. *)
Definition truthy (v : value) : bool :=
  match v with
  | VUndef | VNull => false
  | VBool b => b
  | VNum f => negb (PrimFloat.is_zero f || PrimFloat.is_nan f)
  | VStr s => negb (String.eqb s "")
  | VArr _ | VObj _ | VBuf _ => true
  end.

Fixpoint assoc {A} (k : string) (kvs : list (string * A)) : option A :=
  match kvs with
  | [] => None
  | (k', v) :: kvs' => if String.eqb k k' then Some v else assoc k kvs'
  end.

(** [v.k] for the property names the adapters read.  None of them is a
    property of a prototype, so on a number, a boolean, a string or an
    array the result is [undefined]; on [null] and [undefined] the read
    throws a [TypeError]. *)
Definition get (v : value) (k : string) : res value :=
  match v with
  | VUndef | VNull => Throw TypeError
  | VObj fields => Ok (default VUndef (assoc k fields))
  | _ => Ok VUndef
  end.

(** [v[n]] for a literal index [n]. *)
Definition index (v : value) (n : nat) : res value :=
  match v with
  | VUndef | VNull => Throw TypeError
  | VArr items => Ok (nth n items VUndef)
  | VStr s =>
      Ok match String.get n s with
         | Some c => VStr (String c EmptyString)
         | None => VUndef
         end
  | VObj fields => Ok (default VUndef (assoc (pretty n) fields))
  | _ => Ok VUndef
  end.

(** [v === "lit"] *)
Definition is_str (v : value) (lit : string) : bool :=
  match v with
  | VStr s => String.eqb s lit
  | _ => false
  end.

(** [v === n] for an integer literal [n] *)
Definition is_num (v : value) (n : Z) : bool :=
  match v with
  | VNum f => PrimFloat.eqb f (PrimFloat.of_uint63 (Uint63.of_Z n))
  | _ => false
  end.

(** [Array.isArray(v)] *)
Definition isArray (v : value) : bool :=
  match v with
  | VArr _ => true
  | _ => false
  end.

(** [v.startsWith(p)]: only a string has the method; calling it on any
    other value is a [TypeError] (a parsed value is never a function). *)
Definition startsWith (v : value) (p : string) : res bool :=
  match v with
  | VStr s => Ok (String.prefix p s)
  | _ => Throw TypeError
  end.

(** [a || b] on values already read *)
Definition or_else (a b : value) : value :=
  if truthy a then a else b.

(** [v.k1 || v.k2]: the second property is read only when the first is
    falsy. *)
Definition get_or (v : value) (k1 k2 : string) : res value :=
  (a <- get v k1 ;;
   if truthy a then Ok a else get v k2)%res.

(** [s || d] for an optional string field *)
Definition str_or (o : option string) (d : string) : string :=
  match o with
  | Some s => if String.eqb s "" then d else s
  | None => d
  end.

Definition num (n : Z) : value := VNum (PrimFloat.of_uint63 (Uint63.of_Z n)).

(** Data the adapter builds: object and array literals over the values it
    read, with the numeric conversions and the float arithmetic it applies
    to them kept as written. *)
Inductive term : Type :=
| TVal (v : value)
| TInt (z : Z)
| TLit (f : float)
| TObj (fields : list (string * term))
| TArr (items : list term)
| TParseFloat (t : term)
| TParseInt (t : term)
| TDateGetTime (t : term)
| TToString (t : term)
| TAdd (a b : term)
| TSub (a b : term)
| TMul (a b : term)
| TDiv (a b : term)
| TGt (a b : term)
| TCond (c a b : term).

Definition TStr (s : string) : term := TVal (VStr s).
Definition TBool (b : bool) : term := TVal (VBool b).

End JS.
Export JS.

(** ** The browser *)

Module Browser.

Inductive readyState : Type := CONNECTING | OPEN | CLOSING | CLOSED.

Definition readyState_eqb (a b : readyState) : bool :=
  match a, b with
  | CONNECTING, CONNECTING | OPEN, OPEN | CLOSING, CLOSING | CLOSED, CLOSED => true
  | _, _ => false
  end.

(** A WebSocket object.  [ws_symbols] is what its handlers close over: the
    [symbols] argument of the [connectMarketData] call that created it. *)
Record socket : Type := Socket {
  ws_url : string;
  ws_readyState : readyState;
  ws_symbols : list string
}.

Definition live (w : socket) : bool :=
  match ws_readyState w with
  | CONNECTING | OPEN => true
  | CLOSING | CLOSED => false
  end.

Record request : Type := Request {
  rq_method : string;
  rq_url : string;
  rq_headers : gmap string string;
  rq_body : option term
}.

(** An HTTP response: [rs_text] is [response.text()], [rs_json] is
    [response.json()], [None] when the body is not JSON. *)
Record response : Type := Response {
  rs_status : Z;
  rs_text : string;
  rs_json : option value
}.

(** [response.ok] *)
Definition rs_ok (r : response) : bool :=
  (200 <=? rs_status r) && (rs_status r <=? 299).

(** Data received on a socket: a text frame, given by what [JSON.parse]
    makes of it ([None]: it throws [SyntaxError]), or a binary frame. *)
Inductive frame : Type :=
| Text (parsed : option value)
| Binary (bytes : list byte).

Inductive effect : Type :=
| EWsNew (id : nat) (url : string)
| EWsClose (id : nat)
| EWsSend (id : nat) (msg : term)
| ETimeout (delay : Z)
| EFetch (rq : request)
| ECall (cb : nat) (arg : term)
| EConsole (msg : string).

(** [network] holds the outcomes of the HTTP requests still to come, the
    next one first; [None] is a request that fails without a response. *)
Record World : Type := MkWorld {
  sockets : list socket;
  timers : list (Z * list string);
  now : Z;
  network : list (option response);
  effects : list effect
}.

Definition empty_world : World :=
  {| sockets := []; timers := []; now := 0; network := []; effects := [] |}.

(** A callback registered by the UI: an identity, and whether it returns
    or throws on a given argument.  What a callback does to the UI is
    not part of the world; it does not call back into the adapter. *)
Record callback : Type := Callback {
  cb_id : nat;
  cb_run : term -> option exn
}.

End Browser.
Export Browser.

(** ** Adapter computations *)

Module Run.

(** An adapter instance with the browser it runs in. *)
Record sys (A : Type) : Type := Sys {
  adapter : A;
  world : World
}.
Arguments Sys {A} adapter world.
Arguments adapter {A} s.
Arguments world {A} s.

(** A method body: it reads and writes the instance and the world and
    either returns or throws.  What was written before a throw stays
    written. *)
Definition M (A X : Type) : Type := sys A -> res X * sys A.

Section Monad.
Context {A : Type}.

Definition ret {X} (x : X) : M A X := fun s => (Ok x, s).

Definition bind {X Y} (m : M A X) (k : X -> M A Y) : M A Y := fun s =>
    match m s with
    | (Ok x, s') => k x s'
    | (Throw e, s') => (Throw e, s')
    end.

Definition throw {X} (e : exn) : M A X := fun s => (Throw e, s).

  (** [try { m } catch (e) { h e }] *)
Definition try_catch {X} (m : M A X) (h : exn -> M A X) : M A X := fun s =>
    match m s with
    | (Ok x, s') => (Ok x, s')
    | (Throw e, s') => h e s'
    end.

  (** a pure step that may throw *)
Definition lift {X} (r : res X) : M A X := fun s => (r, s).

Definition gets {X} (f : A -> X) : M A X := fun s => (Ok (f (adapter s)), s).

Definition modify (f : A -> A) : M A unit := fun s =>
    (Ok tt, Sys (f (adapter s)) (world s)).

Definition ask_world {X} (f : World -> X) : M A X := fun s => (Ok (f (world s)), s).

Definition on_world (f : World -> World) : M A unit := fun s =>
    (Ok tt, Sys (adapter s) (f (world s))).
End Monad.

Declare Scope m_scope.
Delimit Scope m_scope with M.
Bind Scope m_scope with M.
Notation "x <- m ;; k" := (bind m (fun x => k))
  (at level 100, m at next level, right associativity) : m_scope.
Notation "m ;;; k" := (bind m (fun _ => k))
  (at level 100, right associativity) : m_scope.

(** *** World updates *)

Definition emit (e : effect) (w : World) : World :=
  {| sockets := sockets w; timers := timers w; now := now w;
     network := network w; effects := effects w ++ [e] |}.

Definition set_sockets (l : list socket) (w : World) : World :=
  {| sockets := l; timers := timers w; now := now w;
     network := network w; effects := effects w |}.

Definition set_timers (l : list (Z * list string)) (w : World) : World :=
  {| sockets := sockets w; timers := l; now := now w;
     network := network w; effects := effects w |}.

Definition set_network (l : list (option response)) (w : World) : World :=
  {| sockets := sockets w; timers := timers w; now := now w;
     network := l; effects := effects w |}.

Definition set_now (t : Z) (w : World) : World :=
  {| sockets := sockets w; timers := timers w; now := t;
     network := network w; effects := effects w |}.

Definition set_readyState (r : readyState) (w : socket) : socket :=
  {| ws_url := ws_url w; ws_readyState := r; ws_symbols := ws_symbols w |}.

(** [close()] starts the closing handshake of a socket that is connecting
    or open, and does nothing to one that is closing or closed. *)
Definition close_socket (w : socket) : socket :=
  if live w then set_readyState CLOSING w else w.

Section Browser.
Context {A : Type}.

  (** [new WebSocket(url)]; the handlers assigned to it right after close
      over [symbols]. *)
Definition ws_new (url : string) (symbols : list string) : M A nat := fun s =>
    let i := length (sockets (world s)) in
    (Ok i,
     Sys (adapter s)
       (emit (EWsNew i url)
          (set_sockets (sockets (world s) ++ [Socket url CONNECTING symbols]) (world s)))).

  (** [ws.close()] *)
Definition ws_close (i : nat) : M A unit :=
    on_world (fun w => emit (EWsClose i) (set_sockets (alter close_socket i (sockets w)) w)).

  (** [ws.readyState] *)
Definition ws_state (i : nat) : M A (option readyState) :=
    ask_world (fun w => ws_readyState <$> sockets w !! i).

  (** [ws.send(JSON.stringify(msg))]: throws while the socket is still
      connecting, transmits when it is open, and discards the data once it
      is closing or closed. *)
Definition ws_send (i : nat) (msg : term) : M A unit :=
    (st <- ws_state i ;;
     match st with
     | Some CONNECTING => throw InvalidStateError
     | Some OPEN => on_world (emit (EWsSend i msg))
     | _ => ret tt
     end)%M.

  (** [setTimeout(() => reconnect(symbols), delay)] *)
Definition set_timeout (delay : Z) (symbols : list string) : M A unit :=
    on_world (fun w => emit (ETimeout delay) (set_timers (timers w ++ [(delay, symbols)]) w)).

  (** [console.log] and [console.error] *)
Definition console (msg : string) : M A unit :=
    on_world (emit (EConsole msg)).

  (** [Date.now()] *)
Definition date_now : M A Z := ask_world now.

  (** [await fetch(url, options)].  The wait for the response is one
      step: no method reads the instance again after it. *)
Definition fetch (rq : request) : M A response := fun s =>
    let w := emit (EFetch rq) (world s) in
    match network w with
    | Some r :: rest => (Ok r, Sys (adapter s) (set_network rest w))
    | None :: rest => (Throw TypeError, Sys (adapter s) (set_network rest w))
    | [] => (Throw TypeError, Sys (adapter s) w)
    end.

  (** [cb(arg)] *)
Definition call (cb : callback) (arg : term) : M A unit :=
    (on_world (emit (ECall (cb_id cb) arg)) ;;;
     match cb_run cb arg with
     | Some e => throw e
     | None => ret tt
     end)%M.

  (** [cbs.forEach((callback) => callback(arg))] *)
Fixpoint forEach (cbs : list callback) (arg : term) : M A unit :=
    match cbs with
    | [] => ret tt
    | cb :: rest => (call cb arg ;;; forEach rest arg)%M
    end.
End Browser.

(** The effects of one kind in a log. *)
Definition timeouts (l : list effect) : list Z :=
  omap (fun e => match e with ETimeout d => Some d | _ => None end) l.

Definition fetches (l : list effect) : list request :=
  omap (fun e => match e with EFetch rq => Some rq | _ => None end) l.

Definition calls (l : list effect) : list (nat * term) :=
  omap (fun e => match e with ECall c a => Some (c, a) | _ => None end) l.

End Run.
Export Run.

(** [JSON.parse(event.data)]: a binary frame is not JSON text either. *)
Definition JSON_parse (f : frame) : res value :=
  match f with
  | Text (Some v) => Ok v
  | Text None | Binary _ => Throw SyntaxError
  end.

(** What the browser delivers to an adapter between two calls of the UI. *)
Inductive event : Type :=
| EvOpen (i : nat)
| EvMessage (i : nat) (f : frame)
| EvError (i : nat)
| EvClose (i : nat)
| EvTimeout (k : nat)
| EvClock (t : Z).

Definition set_ready {A} (i : nat) (r : readyState) (s : sys A) : sys A :=
  Sys (adapter s) (set_sockets (alter (set_readyState r) i (sockets (world s))) (world s)).

Definition drop_timer {A} (k : nat) (s : sys A) : sys A :=
  Sys (adapter s) (set_timers (delete k (timers (world s))) (world s)).

(** Running a handler: the browser reports what it throws and goes on. *)
Definition handled {A X} (m : M A X) (s : sys A) : sys A := snd (m s).

(** The handlers an adapter assigns to every socket it creates, and the
    function its reconnection timers run.  Handlers and timers close over
    the [symbols] of the connect call they come from. *)
Record handlers (A : Type) : Type := Handlers {
  onopen : list string -> M A unit;
  onmessage : frame -> M A unit;
  onerror : M A unit;
  onclose : list string -> M A unit;
  ontimeout : list string -> M A unit
}.
Arguments Handlers {A}.
Arguments onopen {A} h.
Arguments onmessage {A} h.
Arguments onerror {A} h.
Arguments onclose {A} h.
Arguments ontimeout {A} h.

(** The browser delivers event [e]: [None] when [e] cannot happen in [s]
    (an open event on a socket that is not connecting, a message on one
    that is not open, anything on a closed socket, a timer that is not
    armed, a clock running backwards). *)
Definition fire {A} (h : handlers A) (e : event) (s : sys A) : option (sys A) :=
  match e with
  | EvOpen i =>
      match sockets (world s) !! i with
      | Some w =>
          match ws_readyState w with
          | CONNECTING => Some (handled (onopen h (ws_symbols w)) (set_ready i OPEN s))
          | _ => None
          end
      | None => None
      end
  | EvMessage i f =>
      match sockets (world s) !! i with
      | Some w =>
          match ws_readyState w with
          | OPEN => Some (handled (onmessage h f) s)
          | _ => None
          end
      | None => None
      end
  | EvError i =>
      match sockets (world s) !! i with
      | Some w =>
          match ws_readyState w with
          | CLOSED => None
          | _ => Some (handled (onerror h) s)
          end
      | None => None
      end
  | EvClose i =>
      match sockets (world s) !! i with
      | Some w =>
          match ws_readyState w with
          | CLOSED => None
          | _ => Some (handled (onclose h (ws_symbols w)) (set_ready i CLOSED s))
          end
      | None => None
      end
  | EvTimeout k =>
      match timers (world s) !! k with
      | Some (_, symbols) => Some (handled (ontimeout h symbols) (drop_timer k s))
      | None => None
      end
  | EvClock t =>
      if now (world s) <=? t
      then Some (Sys (adapter s) (set_now t (world s)))
      else None
  end.

(** One thing that happens to an adapter: the UI calls a public method,
    or the browser delivers an event. *)
Inductive action (C : Type) : Type :=
| Api (c : C)
| Env (e : event).
Arguments Api {C} c.
Arguments Env {C} e.

Section Loop.
Context {A C : Type} (invoke : C -> M A unit) (h : handlers A).

Definition step (a : action C) (s : sys A) : option (sys A) :=
    match a with
    | Api c => Some (handled (invoke c) s)
    | Env e => fire h e s
    end.

Fixpoint run (acts : list (action C)) (s : sys A) : option (sys A) :=
    match acts with
    | [] => Some s
    | a :: rest =>
        match step a s with
        | Some s' => run rest s'
        | None => None
        end
    end.
End Loop.

(** A run of browser events with no call of the UI in between. *)
Fixpoint deliver {A} (h : handlers A) (evs : list event) (s : sys A) : option (sys A) :=
  match evs with
  | [] => Some s
  | e :: rest =>
      match fire h e s with
      | Some s' => deliver h rest s'
      | None => None
      end
  end.

(** The delays of the timers armed so far, oldest first. *)
Definition delays {A} (s : sys A) : list Z := timeouts (effects (world s)).

(** Nothing is pending in the browser: no timer is armed and every
    socket is closed. *)
Definition idle {A} (s : sys A) : Prop :=
  timers (world s) = [] /\
  forall i w, sockets (world s) !! i = Some w -> ws_readyState w = CLOSED.

(** ** TradingAPI (src/lib/trading-api.ts) *)

Module TradingAPI.

Inductive Side : Type := BUY | SELL.
Inductive OrderType : Type := MARKET | LIMIT | STOP | STOP_LIMIT.
Inductive TimeInForce : Type := DAY | GTC | IOC | FOK.

Record OrderRequest : Type := {
  symbol : string;
  side : Side;
  quantity : float;
  orderType : OrderType;
  price : option float;
  stopPrice : option float;
  timeInForce : TimeInForce;
  strategy : option string;
  notes : option string
}.

Record BrokerConfig : Type := {
  name : string;
  apiKey : string;
  secretKey : option string;
  baseUrl : string;
  sandbox : bool;
  accountId : option string
}.

(** The private fields of the class.  [maxReconnectAttempts] is never
    assigned after its initialiser. *)
Record t : Type := {
  config : option BrokerConfig;
  websocket : option nat;
  marketDataCallbacks : list callback;
  orderUpdateCallbacks : list callback;
  reconnectAttempts : Z
}.

Definition maxReconnectAttempts : Z := 5.

(** [new TradingAPI()] *)
Definition init : t :=
  {| config := None; websocket := None; marketDataCallbacks := [];
     orderUpdateCallbacks := []; reconnectAttempts := 0 |}.

Definition set_config (c : option BrokerConfig) (a : t) : t :=
  {| config := c; websocket := websocket a;
     marketDataCallbacks := marketDataCallbacks a;
     orderUpdateCallbacks := orderUpdateCallbacks a;
     reconnectAttempts := reconnectAttempts a |}.

Definition set_websocket (w : option nat) (a : t) : t :=
  {| config := config a; websocket := w;
     marketDataCallbacks := marketDataCallbacks a;
     orderUpdateCallbacks := orderUpdateCallbacks a;
     reconnectAttempts := reconnectAttempts a |}.

Definition set_marketDataCallbacks (l : list callback) (a : t) : t :=
  {| config := config a; websocket := websocket a;
     marketDataCallbacks := l;
     orderUpdateCallbacks := orderUpdateCallbacks a;
     reconnectAttempts := reconnectAttempts a |}.

Definition set_orderUpdateCallbacks (l : list callback) (a : t) : t :=
  {| config := config a; websocket := websocket a;
     marketDataCallbacks := marketDataCallbacks a;
     orderUpdateCallbacks := l;
     reconnectAttempts := reconnectAttempts a |}.

Definition set_reconnectAttempts (n : Z) (a : t) : t :=
  {| config := config a; websocket := websocket a;
     marketDataCallbacks := marketDataCallbacks a;
     orderUpdateCallbacks := orderUpdateCallbacks a;
     reconnectAttempts := n |}.

Definition Side_str (s : Side) : string :=
  match s with BUY => "BUY" | SELL => "SELL" end.

Definition OrderType_str (o : OrderType) : string :=
  match o with
  | MARKET => "MARKET" | LIMIT => "LIMIT" | STOP => "STOP" | STOP_LIMIT => "STOP_LIMIT"
  end.

Definition TimeInForce_str (f : TimeInForce) : string :=
  match f with DAY => "DAY" | GTC => "GTC" | IOC => "IOC" | FOK => "FOK" end.

Definition optional {X} (k : string) (f : X -> value) (o : option X) : list (string * value) :=
  match o with
  | Some x => [(k, f x)]
  | None => []
  end.

(** The order object handed to [placeOrder], as [JSON.stringify] sees it. *)
Definition OrderRequest_value (o : OrderRequest) : value :=
  VObj ([("symbol", VStr (symbol o)); ("side", VStr (Side_str (side o)));
         ("quantity", VNum (quantity o));
         ("orderType", VStr (OrderType_str (orderType o)))]
        ++ optional "price" VNum (price o)
        ++ optional "stopPrice" VNum (stopPrice o)
        ++ [("timeInForce", VStr (TimeInForce_str (timeInForce o)))]
        ++ optional "strategy" VStr (strategy o)
        ++ optional "notes" VStr (notes o)).

Definition configure (c : BrokerConfig) : M t unit :=
  (modify (set_config (Some c)) ;;;
   modify (set_reconnectAttempts 0))%M.

Definition getWebSocketUrl : M t string :=
  (cfg <- gets config ;;
   match cfg with
   | None => throw (Error "No configuration")
   | Some c =>
       if String.eqb (name c) "alpaca" then
         ret (if sandbox c
              then "wss://stream.data.sandbox.alpaca.markets/v2/iex"
              else "wss://stream.data.alpaca.markets/v2/iex")
       else if String.eqb (name c) "polygon" then
         ret (if sandbox c
              then "wss://socket.polygon.io/stocks"
              else "wss://socket.polygon.io/stocks")
       else if String.eqb (name c) "finnhub" then
         ret "wss://ws.finnhub.io"
       else throw (Error ("Unsupported broker: " +:+ name c))
   end)%M.

Definition createSubscriptionMessage (symbols : list string) : M t term :=
  (cfg <- gets config ;;
   match cfg with
   | None => throw (Error "No configuration")
   | Some c =>
       if String.eqb (name c) "alpaca" then
         ret (TObj [("action", TStr "auth"); ("key", TStr (apiKey c));
                    ("secret", TVal (from_option VStr VUndef (secretKey c)))])
       else if String.eqb (name c) "polygon" then
         ret (TObj [("action", TStr "auth"); ("params", TStr (apiKey c))])
       else if String.eqb (name c) "finnhub" then
         ret (TObj [("type", TStr "subscribe");
                    ("symbol", TStr (String.concat "," symbols))])
       else throw (Error ("Unsupported broker: " +:+ name c))
   end)%M.

Definition subscribeToSymbols (symbols : list string) : M t unit :=
  (ws <- gets websocket ;;
   cfg <- gets config ;;
   match ws, cfg with
   | Some i, Some _ =>
       subscriptionMessage <- createSubscriptionMessage symbols ;;
       ws_send i subscriptionMessage
   | _, _ => ret tt
   end)%M.

Definition parseAlpacaData (data : value) : res (option term) :=
  (T <- get data "T" ;;
   if is_str T "t" then
     S <- get data "S" ;;
     p <- get data "p" ;;
     s <- get data "s" ;;
     t <- get data "t" ;;
     Ok (Some (TObj [("symbol", TVal S);
                     ("price", TVal p);
                     ("bid", TSub (TVal p) (TLit 0.01));
                     ("ask", TAdd (TVal p) (TLit 0.01));
                     ("volume", TVal s);
                     ("timestamp", TDateGetTime (TVal t));
                     ("change", TInt 0);
                     ("changePercent", TInt 0)]))
   else Ok None)%res.

Definition parsePolygonData (data : value) : res (option term) :=
  (ev <- get data "ev" ;;
   if is_str ev "T" then
     sym <- get data "sym" ;;
     p <- get data "p" ;;
     s <- get data "s" ;;
     t <- get data "t" ;;
     Ok (Some (TObj [("symbol", TVal sym);
                     ("price", TVal p);
                     ("bid", TSub (TVal p) (TLit 0.01));
                     ("ask", TAdd (TVal p) (TLit 0.01));
                     ("volume", TVal s);
                     ("timestamp", TVal t);
                     ("change", TInt 0);
                     ("changePercent", TInt 0)]))
   else Ok None)%res.

Definition parseFinnhubData (data : value) : res (option term) :=
  (ty <- get data "type" ;;
   if is_str ty "trade" then
     s <- get data "s" ;;
     p <- get data "p" ;;
     v <- get data "v" ;;
     t <- get data "t" ;;
     Ok (Some (TObj [("symbol", TVal s);
                     ("price", TVal p);
                     ("bid", TSub (TVal p) (TLit 0.01));
                     ("ask", TAdd (TVal p) (TLit 0.01));
                     ("volume", TVal v);
                     ("timestamp", TVal t);
                     ("change", TInt 0);
                     ("changePercent", TInt 0)]))
   else Ok None)%res.

(** The [switch] of [handleMarketDataMessage]: the normalizer of the
    configured broker; [marketTick] stays [null] for any other name. *)
Definition normalize (c : BrokerConfig) (data : value) : res (option term) :=
  if String.eqb (name c) "alpaca" then parseAlpacaData data
  else if String.eqb (name c) "polygon" then parsePolygonData data
  else if String.eqb (name c) "finnhub" then parseFinnhubData data
  else Ok None.

Definition handleMarketDataMessage (data : value) : M t unit :=
  (cfg <- gets config ;;
   match cfg with
   | None => ret tt
   | Some c =>
       marketTick <- lift (normalize c data) ;;
       match marketTick with
       | Some tick =>
           cbs <- gets marketDataCallbacks ;;
           forEach cbs tick
       | None => ret tt
       end
   end)%M.

Definition handleReconnection (symbols : list string) : M t unit :=
  (n <- gets reconnectAttempts ;;
   if n <? maxReconnectAttempts then
     modify (set_reconnectAttempts (n + 1)) ;;;
     n' <- gets reconnectAttempts ;;
     let delay := 2 ^ n' * 1000 in
     console "Attempting to reconnect" ;;;
     set_timeout delay symbols
   else console "Max reconnection attempts reached")%M.

(** The body of [connectMarketData] up to the assignment of the four
    handlers, which [socket_handlers] below holds. *)
Definition connectMarketData (symbols : list string) : M t unit :=
  (cfg <- gets config ;;
   match cfg with
   | None => throw (Error "Trading API not configured")
   | Some _ =>
       try_catch
         (ws <- gets websocket ;;
          match ws with
          | Some i => ws_close i
          | None => ret tt
          end ;;;
          wsUrl <- getWebSocketUrl ;;
          i <- ws_new wsUrl symbols ;;
          modify (set_websocket (Some i)))
         (fun error =>
            console "Failed to connect to market data:" ;;;
            throw error)
   end)%M.

Definition websocket_onopen (symbols : list string) : M t unit :=
  (console "Market data WebSocket connected" ;;;
   modify (set_reconnectAttempts 0) ;;;
   subscribeToSymbols symbols)%M.

Definition websocket_onmessage (f : frame) : M t unit :=
  try_catch
    (data <- lift (JSON_parse f) ;;
     handleMarketDataMessage data)%M
    (fun _ => console "Error parsing market data:").

Definition websocket_onclose (symbols : list string) : M t unit :=
  (console "Market data WebSocket disconnected" ;;;
   handleReconnection symbols)%M.

Definition websocket_onerror : M t unit :=
  console "WebSocket error:".

Definition socket_handlers : handlers t :=
  {| onopen := websocket_onopen;
     onmessage := websocket_onmessage;
     onerror := websocket_onerror;
     onclose := websocket_onclose;
     ontimeout := connectMarketData |}.

Definition onMarketData (callback : callback) : M t unit :=
  (cbs <- gets marketDataCallbacks ;;
   modify (set_marketDataCallbacks (cbs ++ [callback])))%M.

Definition onOrderUpdate (callback : callback) : M t unit :=
  (cbs <- gets orderUpdateCallbacks ;;
   modify (set_orderUpdateCallbacks (cbs ++ [callback])))%M.

Definition getAuthHeaders : M t (gmap string string) :=
  (cfg <- gets config ;;
   match cfg with
   | None => throw (Error "Trading API not configured")
   | Some c =>
       if String.eqb (name c) "alpaca" then
         ret (<["APCA-API-SECRET-KEY" := str_or (secretKey c) ""]>
                {["APCA-API-KEY-ID" := apiKey c]})
       else if String.eqb (name c) "polygon" then
         ret {["Authorization" := "Bearer " +:+ apiKey c]}
       else if String.eqb (name c) "finnhub" then
         ret {["X-Finnhub-Token" := apiKey c]}
       else throw (Error ("Unsupported broker: " +:+ name c))
   end)%M.

(** [{ "Content-Type": "application/json", ...headers }]: a key of
    [headers] overrides the one written before the spread. *)
Definition request_headers (headers : gmap string string) : gmap string string :=
  headers ∪ {["Content-Type" := "application/json"]}.

(** [if (body) options.body = JSON.stringify(body)] *)
Definition request_body (body : option value) : option term :=
  match body with
  | Some b => if truthy b then Some (TVal b) else None
  | None => None
  end.

Definition makeApiRequest (method endpoint : string) (body : option value) : M t value :=
  (cfg <- gets config ;;
   match cfg with
   | None => throw (Error "Trading API not configured")
   | Some c =>
       let url := baseUrl c +:+ endpoint in
       headers <- getAuthHeaders ;;
       let options :=
         {| rq_method := method; rq_url := url;
            rq_headers := request_headers headers;
            rq_body := request_body body |} in
       response <- fetch options ;;
       if negb (rs_ok response) then
         let errorText := rs_text response in
         throw (Error ("API request failed: " +:+ pretty (rs_status response)
                         +:+ " " +:+ errorText))
       else
         match rs_json response with
         | Some v => ret v
         | None => throw SyntaxError
         end
   end)%M.

Definition parseOrderResponse (response : value) : res term :=
  (orderId <- get_or response "id" "order_id" ;;
   symbol <- get response "symbol" ;;
   side <- get response "side" ;;
   quantity <- get_or response "qty" "quantity" ;;
   filledQuantity <- get_or response "filled_qty" "filled_quantity" ;;
   avgFillPrice <- get_or response "filled_avg_price" "avg_fill_price" ;;
   status <- get response "status" ;;
   orderType <- get_or response "order_type" "type" ;;
   timeInForce <- get response "time_in_force" ;;
   submittedAt <- get_or response "submitted_at" "created_at" ;;
   filledAt <- get response "filled_at" ;;
   canceledAt <- get response "canceled_at" ;;
   Ok (TObj [("orderId", TVal orderId);
             ("symbol", TVal symbol);
             ("side", TVal side);
             ("quantity", TVal quantity);
             ("filledQuantity", TVal (or_else filledQuantity (num 0)));
             ("avgFillPrice", TVal (or_else avgFillPrice (num 0)));
             ("status", TVal status);
             ("orderType", TVal orderType);
             ("timeInForce", TVal timeInForce);
             ("submittedAt", TVal submittedAt);
             ("filledAt", TVal filledAt);
             ("canceledAt", TVal canceledAt)]))%res.

Definition parseAccountResponse (response : value) : res term :=
  (accountId <- get_or response "account_number" "id" ;;
   totalValue <- get_or response "portfolio_value" "equity" ;;
   buyingPower <- get response "buying_power" ;;
   dayTradingBuyingPower <- get_or response "daytrading_buying_power" "buying_power" ;;
   equity <- get_or response "equity" "portfolio_value" ;;
   cash <- get response "cash" ;;
   initial_margin <- get response "initial_margin" ;;
   daytrade_count <- get response "daytrade_count" ;;
   pattern_day_trader <- get response "pattern_day_trader" ;;
   Ok (TObj [("accountId", TVal accountId);
             ("totalValue", TParseFloat (TVal totalValue));
             ("buyingPower", TParseFloat (TVal buyingPower));
             ("dayTradingBuyingPower", TParseFloat (TVal dayTradingBuyingPower));
             ("equity", TParseFloat (TVal equity));
             ("cash", TParseFloat (TVal cash));
             ("marginUsed", TParseFloat (TVal (or_else initial_margin (num 0))));
             ("dayTradeCount", TParseInt (TVal (or_else daytrade_count (num 0))));
             ("patternDayTrader", TVal (or_else pattern_day_trader (VBool false)))]))%res.

Definition parsePosition (pos : value) : res term :=
  (symbol <- get pos "symbol" ;;
   qty <- get_or pos "qty" "quantity" ;;
   avgPrice <- get_or pos "avg_entry_price" "avg_price" ;;
   marketValue <- get pos "market_value" ;;
   unrealizedPnL <- get_or pos "unrealized_pl" "unrealized_pnl" ;;
   realizedPnL <- get_or pos "realized_pl" "realized_pnl" ;;
   Ok (TObj [("symbol", TVal symbol);
             ("quantity", TParseInt (TVal qty));
             ("avgPrice", TParseFloat (TVal avgPrice));
             ("marketValue", TParseFloat (TVal marketValue));
             ("unrealizedPnL", TParseFloat (TVal unrealizedPnL));
             ("realizedPnL", TParseFloat (TVal (or_else realizedPnL (num 0))));
             ("side", TCond (TGt (TParseInt (TVal qty)) (TInt 0))
                            (TStr "LONG") (TStr "SHORT"))]))%res.

(** [response.map(f)]: only an array has [map]. *)
Definition array_map (f : value -> res term) (response : value) : res term :=
  match response with
  | VArr items => (r <- res_map f items ;; Ok (TArr r))%res
  | _ => Throw TypeError
  end.

Definition parsePositionsResponse (response : value) : res term :=
  array_map parsePosition response.

Definition parseOrdersResponse (response : value) : res term :=
  array_map parseOrderResponse response.

Definition placeOrder (order : OrderRequest) : M t term :=
  (cfg <- gets config ;;
   match cfg with
   | None => throw (Error "Trading API not configured")
   | Some _ =>
       try_catch
         (response <- makeApiRequest "POST" "/orders" (Some (OrderRequest_value order)) ;;
          lift (parseOrderResponse response))
         (fun error => console "Failed to place order:" ;;; throw error)
   end)%M.

Definition cancelOrder (orderId : string) : M t unit :=
  (cfg <- gets config ;;
   match cfg with
   | None => throw (Error "Trading API not configured")
   | Some _ =>
       try_catch
         (makeApiRequest "DELETE" ("/orders/" +:+ orderId) None ;;; ret tt)
         (fun error => console "Failed to cancel order:" ;;; throw error)
   end)%M.

Definition getAccount : M t term :=
  (cfg <- gets config ;;
   match cfg with
   | None => throw (Error "Trading API not configured")
   | Some _ =>
       try_catch
         (response <- makeApiRequest "GET" "/account" None ;;
          lift (parseAccountResponse response))
         (fun error => console "Failed to get account info:" ;;; throw error)
   end)%M.

Definition getPositions : M t term :=
  (cfg <- gets config ;;
   match cfg with
   | None => throw (Error "Trading API not configured")
   | Some _ =>
       try_catch
         (response <- makeApiRequest "GET" "/positions" None ;;
          lift (parsePositionsResponse response))
         (fun error => console "Failed to get positions:" ;;; throw error)
   end)%M.

(** [status ? `/orders?status=${status}` : "/orders"] *)
Definition orders_url (status : option string) : string :=
  match status with
  | Some st => if String.eqb st "" then "/orders" else "/orders?status=" +:+ st
  | None => "/orders"
  end.

Definition getOrders (status : option string) : M t term :=
  (cfg <- gets config ;;
   match cfg with
   | None => throw (Error "Trading API not configured")
   | Some _ =>
       try_catch
         (response <- makeApiRequest "GET" (orders_url status) None ;;
          lift (parseOrdersResponse response))
         (fun error => console "Failed to get orders:" ;;; throw error)
   end)%M.

Definition disconnect : M t unit :=
  (ws <- gets websocket ;;
   match ws with
   | Some i => ws_close i ;;; modify (set_websocket None)
   | None => ret tt
   end ;;;
   modify (set_marketDataCallbacks []) ;;;
   modify (set_orderUpdateCallbacks []))%M.

(** [this.websocket?.readyState === WebSocket.OPEN] *)
Definition isConnected : M t bool :=
  (ws <- gets websocket ;;
   match ws with
   | Some i =>
       st <- ws_state i ;;
       ret match st with Some OPEN => true | _ => false end
   | None => ret false
   end)%M.

(** The public methods, as the UI calls them. *)
Inductive call : Type :=
| Configure (c : BrokerConfig)
| ConnectMarketData (symbols : list string)
| OnMarketData (cb : callback)
| OnOrderUpdate (cb : callback)
| PlaceOrder (order : OrderRequest)
| CancelOrder (orderId : string)
| GetAccount
| GetPositions
| GetOrders (status : option string)
| Disconnect
| IsConnected.

Definition invoke (c : call) : M t unit :=
  match c with
  | Configure cfg => configure cfg
  | ConnectMarketData symbols => connectMarketData symbols
  | OnMarketData cb => onMarketData cb
  | OnOrderUpdate cb => onOrderUpdate cb
  | PlaceOrder order => (placeOrder order ;;; ret tt)%M
  | CancelOrder orderId => cancelOrder orderId
  | GetAccount => (getAccount ;;; ret tt)%M
  | GetPositions => (getPositions ;;; ret tt)%M
  | GetOrders status => (getOrders status ;;; ret tt)%M
  | Disconnect => disconnect
  | IsConnected => (isConnected ;;; ret tt)%M
  end.

(** A fresh instance in a browser with the given clock and network. *)
Definition start (w : World) : sys t := Sys init w.

Definition exec : list (action call) -> sys t -> option (sys t) :=
  run invoke socket_handlers.

End TradingAPI.

(** ** CryptoAPI (src/lib/crypto-api.ts) *)

Module CryptoAPI.

Inductive Side : Type := BUY | SELL.
Inductive OrderType : Type := MARKET | LIMIT | STOP | STOP_LIMIT.
Inductive TimeInForce : Type := GTC | IOC | FOK.
Inductive MarginMode : Type := ISOLATED | CROSS.

Record CryptoOrderRequest : Type := {
  symbol : string;
  side : Side;
  type : OrderType;
  quantity : float;
  price : option float;
  stopPrice : option float;
  timeInForce : option TimeInForce;
  leverage : option float;
  marginMode : option MarginMode
}.

(** [default_leverage] is the [leverage] field of the configuration (the
    order request has a field of that name too). *)
Record CryptoExchangeConfig : Type := {
  name : string;
  apiKey : string;
  secretKey : string;
  passphrase : option string;
  baseUrl : string;
  testnet : bool;
  default_leverage : option float
}.

Record t : Type := {
  config : option CryptoExchangeConfig;
  websocket : option nat;
  marketDataCallbacks : list callback;
  orderUpdateCallbacks : list callback;
  reconnectAttempts : Z
}.

Definition maxReconnectAttempts : Z := 5.

(** [new CryptoAPI()] *)
Definition init : t :=
  {| config := None; websocket := None; marketDataCallbacks := [];
     orderUpdateCallbacks := []; reconnectAttempts := 0 |}.

Definition set_config (c : option CryptoExchangeConfig) (a : t) : t :=
  {| config := c; websocket := websocket a;
     marketDataCallbacks := marketDataCallbacks a;
     orderUpdateCallbacks := orderUpdateCallbacks a;
     reconnectAttempts := reconnectAttempts a |}.

Definition set_websocket (w : option nat) (a : t) : t :=
  {| config := config a; websocket := w;
     marketDataCallbacks := marketDataCallbacks a;
     orderUpdateCallbacks := orderUpdateCallbacks a;
     reconnectAttempts := reconnectAttempts a |}.

Definition set_marketDataCallbacks (l : list callback) (a : t) : t :=
  {| config := config a; websocket := websocket a;
     marketDataCallbacks := l;
     orderUpdateCallbacks := orderUpdateCallbacks a;
     reconnectAttempts := reconnectAttempts a |}.

Definition set_orderUpdateCallbacks (l : list callback) (a : t) : t :=
  {| config := config a; websocket := websocket a;
     marketDataCallbacks := marketDataCallbacks a;
     orderUpdateCallbacks := l;
     reconnectAttempts := reconnectAttempts a |}.

Definition set_reconnectAttempts (n : Z) (a : t) : t :=
  {| config := config a; websocket := websocket a;
     marketDataCallbacks := marketDataCallbacks a;
     orderUpdateCallbacks := orderUpdateCallbacks a;
     reconnectAttempts := n |}.

Definition Side_str (s : Side) : string :=
  match s with BUY => "BUY" | SELL => "SELL" end.

Definition OrderType_str (o : OrderType) : string :=
  match o with
  | MARKET => "MARKET" | LIMIT => "LIMIT" | STOP => "STOP" | STOP_LIMIT => "STOP_LIMIT"
  end.

Definition TimeInForce_str (f : TimeInForce) : string :=
  match f with GTC => "GTC" | IOC => "IOC" | FOK => "FOK" end.

Definition MarginMode_str (m : MarginMode) : string :=
  match m with ISOLATED => "ISOLATED" | CROSS => "CROSS" end.

Definition optional {X} (k : string) (f : X -> value) (o : option X) : list (string * value) :=
  match o with
  | Some x => [(k, f x)]
  | None => []
  end.

(** The order object handed to [placeOrder], as [JSON.stringify] sees it. *)
Definition CryptoOrderRequest_value (o : CryptoOrderRequest) : value :=
  VObj ([("symbol", VStr (symbol o)); ("side", VStr (Side_str (side o)));
         ("type", VStr (OrderType_str (type o)));
         ("quantity", VNum (quantity o))]
        ++ optional "price" VNum (price o)
        ++ optional "stopPrice" VNum (stopPrice o)
        ++ optional "timeInForce" (fun f => VStr (TimeInForce_str f)) (timeInForce o)
        ++ optional "leverage" VNum (leverage o)
        ++ optional "marginMode" (fun m => VStr (MarginMode_str m)) (marginMode o)).

Definition configure (c : CryptoExchangeConfig) : M t unit :=
  (modify (set_config (Some c)) ;;;
   modify (set_reconnectAttempts 0))%M.

Definition getWebSocketUrl : M t string :=
  (cfg <- gets config ;;
   match cfg with
   | None => throw (Error "No configuration")
   | Some c =>
       if String.eqb (name c) "bybit" then
         ret (if testnet c
              then "wss://stream-testnet.bybit.com/v5/public/linear"
              else "wss://stream.bybit.com/v5/public/linear")
       else if String.eqb (name c) "kucoin" then
         ret (if testnet c
              then "wss://ws-api-sandbox.kucoin.com/"
              else "wss://ws-api-spot.kucoin.com/")
       else if String.eqb (name c) "kraken" then
         ret "wss://ws.kraken.com"
       else if String.eqb (name c) "crypto_com" then
         ret (if testnet c
              then "wss://uat-stream.3ona.co/v2/market"
              else "wss://stream.crypto.com/v2/market")
       else if String.eqb (name c) "coinex" then
         ret "wss://socket.coinex.com/"
       else if String.eqb (name c) "bitget" then
         ret (if testnet c
              then "wss://ws.bitgetapi.com/spot/v1/stream"
              else "wss://ws.bitgetapi.com/spot/v1/stream")
       else throw (Error ("Unsupported exchange: " +:+ name c))
   end)%M.

Definition createSubscriptionMessage (symbols : list string) : M t term :=
  (cfg <- gets config ;;
   match cfg with
   | None => throw (Error "No configuration")
   | Some c =>
       if String.eqb (name c) "bybit" then
         ret (TObj [("op", TStr "subscribe");
                    ("args", TArr (map (fun symbol => TStr ("tickers." +:+ symbol)) symbols))])
       else if String.eqb (name c) "kucoin" then
         id <- date_now ;;
         ret (TObj [("id", TInt id);
                    ("type", TStr "subscribe");
                    ("topic", TStr "/market/ticker:all");
                    ("privateChannel", TBool false);
                    ("response", TBool true)])
       else if String.eqb (name c) "kraken" then
         ret (TObj [("event", TStr "subscribe");
                    ("pair", TArr (map TStr symbols));
                    ("subscription", TObj [("name", TStr "ticker")])])
       else if String.eqb (name c) "crypto_com" then
         ret (TObj [("method", TStr "subscribe");
                    ("params",
                     TObj [("channels",
                            TArr (map (fun symbol => TStr ("ticker." +:+ symbol)) symbols))])])
       else if String.eqb (name c) "coinex" then
         id <- date_now ;;
         ret (TObj [("method", TStr "state.subscribe");
                    ("params", TArr (map TStr symbols));
                    ("id", TInt id)])
       else if String.eqb (name c) "bitget" then
         ret (TObj [("op", TStr "subscribe");
                    ("args",
                     TArr (map (fun symbol =>
                                  TObj [("instType", TStr "sp");
                                        ("channel", TStr "ticker");
                                        ("instId", TStr symbol)]) symbols))])
       else throw (Error ("Unsupported exchange: " +:+ name c))
   end)%M.

Definition subscribeToSymbols (symbols : list string) : M t unit :=
  (ws <- gets websocket ;;
   cfg <- gets config ;;
   match ws, cfg with
   | Some i, Some _ =>
       subscriptionMessage <- createSubscriptionMessage symbols ;;
       ws_send i subscriptionMessage
   | _, _ => ret tt
   end)%M.

(** [Number.parseFloat(v.k)] *)
Definition float_of (v : value) (k : string) : res term :=
  (x <- get v k ;; Ok (TParseFloat (TVal x)))%res.

(** [Number.parseFloat(v.k[n])] *)
Definition float_at (v : value) (k : string) (n : nat) : res term :=
  (x <- get v k ;; y <- index x n ;; Ok (TParseFloat (TVal y)))%res.

Definition percent (t : term) : term := TMul t (TInt 100).

Definition parseBybitData (data : value) : res (option term) :=
  (topic <- get data "topic" ;;
   if truthy topic then
     tickers <- startsWith topic "tickers." ;;
     if tickers then
       ticker <- get data "data" ;;
       if truthy ticker then
         symbol <- get ticker "symbol" ;;
         lastPrice <- float_of ticker "lastPrice" ;;
         bid1Price <- float_of ticker "bid1Price" ;;
         ask1Price <- float_of ticker "ask1Price" ;;
         volume24h <- float_of ticker "volume24h" ;;
         price24hPcnt <- float_of ticker "price24hPcnt" ;;
         highPrice24h <- float_of ticker "highPrice24h" ;;
         lowPrice24h <- float_of ticker "lowPrice24h" ;;
         time <- get ticker "time" ;;
         Ok (Some (TObj [("symbol", TVal symbol);
                         ("price", lastPrice);
                         ("bid", bid1Price);
                         ("ask", ask1Price);
                         ("volume24h", volume24h);
                         ("change24h", TMul price24hPcnt lastPrice);
                         ("changePercent24h", percent price24hPcnt);
                         ("high24h", highPrice24h);
                         ("low24h", lowPrice24h);
                         ("timestamp", TParseInt (TVal time))]))
       else Ok None
     else Ok None
   else Ok None)%res.

Definition parseKuCoinData (data : value) : res (option term) :=
  (ty <- get data "type" ;;
   if is_str ty "message" then
     topic <- get data "topic" ;;
     if is_str topic "/market/ticker:all" then
       ticker <- get data "data" ;;
       if truthy ticker then
         symbol <- get ticker "symbol" ;;
         price <- float_of ticker "price" ;;
         bestBid <- float_of ticker "bestBid" ;;
         bestAsk <- float_of ticker "bestAsk" ;;
         vol <- float_of ticker "vol" ;;
         changePrice <- float_of ticker "changePrice" ;;
         changeRate <- float_of ticker "changeRate" ;;
         high <- float_of ticker "high" ;;
         low <- float_of ticker "low" ;;
         time <- get ticker "time" ;;
         Ok (Some (TObj [("symbol", TVal symbol);
                         ("price", price);
                         ("bid", bestBid);
                         ("ask", bestAsk);
                         ("volume24h", vol);
                         ("change24h", changePrice);
                         ("changePercent24h", percent changeRate);
                         ("high24h", high);
                         ("low24h", low);
                         ("timestamp", TVal time)]))
       else Ok None
     else Ok None
   else Ok None)%res.

(** [now] is what [Date.now()] reads. *)
Definition parseKrakenData (now : Z) (data : value) : res (option term) :=
  (if isArray data then
     ticker <- index data 1 ;;
     if truthy ticker then
       channel <- index data 2 ;;
       if is_str channel "ticker" then
         symbol <- index data 3 ;;
         c0 <- float_at ticker "c" 0 ;;
         b0 <- float_at ticker "b" 0 ;;
         a0 <- float_at ticker "a" 0 ;;
         v1 <- float_at ticker "v" 1 ;;
         p1 <- float_at ticker "p" 1 ;;
         h1 <- float_at ticker "h" 1 ;;
         l1 <- float_at ticker "l" 1 ;;
         Ok (Some (TObj [("symbol", TVal symbol);
                         ("price", c0);
                         ("bid", b0);
                         ("ask", a0);
                         ("volume24h", v1);
                         ("change24h", p1);
                         ("changePercent24h", percent (TDiv p1 c0));
                         ("high24h", h1);
                         ("low24h", l1);
                         ("timestamp", TInt now)]))
       else Ok None
     else Ok None
   else Ok None)%res.

Definition parseCryptoComData (data : value) : res (option term) :=
  (method <- get data "method" ;;
   if is_str method "subscribe" then
     result <- get data "result" ;;
     if truthy result then
       ticker <- get result "data" ;;
       if truthy ticker then
         i <- get ticker "i" ;;
         a <- float_of ticker "a" ;;
         b <- float_of ticker "b" ;;
         k <- float_of ticker "k" ;;
         v <- float_of ticker "v" ;;
         c <- float_of ticker "c" ;;
         h <- float_of ticker "h" ;;
         l <- float_of ticker "l" ;;
         t <- get ticker "t" ;;
         Ok (Some (TObj [("symbol", TVal i);
                         ("price", a);
                         ("bid", b);
                         ("ask", k);
                         ("volume24h", v);
                         ("change24h", c);
                         ("changePercent24h", percent (TDiv c a));
                         ("high24h", h);
                         ("low24h", l);
                         ("timestamp", TVal t)]))
       else Ok None
     else Ok None
   else Ok None)%res.

(** [now] is what [Date.now()] reads. *)
Definition parseCoinExData (now : Z) (data : value) : res (option term) :=
  (method <- get data "method" ;;
   if is_str method "state.update" then
     params <- get data "params" ;;
     if truthy params then
       symbol <- index params 0 ;;
       ticker <- index params 1 ;;
       last <- float_of ticker "last" ;;
       bid <- float_of ticker "bid" ;;
       ask <- float_of ticker "ask" ;;
       vol <- float_of ticker "vol" ;;
       change <- float_of ticker "change" ;;
       high <- float_of ticker "high" ;;
       low <- float_of ticker "low" ;;
       Ok (Some (TObj [("symbol", TVal symbol);
                       ("price", last);
                       ("bid", bid);
                       ("ask", ask);
                       ("volume24h", vol);
                       ("change24h", change);
                       ("changePercent24h", percent (TDiv change last));
                       ("high24h", high);
                       ("low24h", low);
                       ("timestamp", TInt now)]))
     else Ok None
   else Ok None)%res.

Definition parseBitgetData (data : value) : res (option term) :=
  (action <- get data "action" ;;
   if is_str action "snapshot" then
     arg <- get data "arg" ;;
     if truthy arg then
       rows <- get data "data" ;;
       if truthy rows then
         ticker <- index rows 0 ;;
         instId <- get arg "instId" ;;
         last <- float_of ticker "last" ;;
         bidPx <- float_of ticker "bidPx" ;;
         askPx <- float_of ticker "askPx" ;;
         baseVolume <- float_of ticker "baseVolume" ;;
         change24h <- float_of ticker "change24h" ;;
         changeUtc24h <- float_of ticker "changeUtc24h" ;;
         high24h <- float_of ticker "high24h" ;;
         low24h <- float_of ticker "low24h" ;;
         ts <- get ticker "ts" ;;
         Ok (Some (TObj [("symbol", TVal instId);
                         ("price", last);
                         ("bid", bidPx);
                         ("ask", askPx);
                         ("volume24h", baseVolume);
                         ("change24h", change24h);
                         ("changePercent24h", percent changeUtc24h);
                         ("high24h", high24h);
                         ("low24h", low24h);
                         ("timestamp", TParseInt (TVal ts))]))
       else Ok None
     else Ok None
   else Ok None)%res.

(** The [switch] of [handleMarketDataMessage]: the normalizer of the
    configured exchange; [marketData] stays [null] for any other name. *)
Definition normalize (c : CryptoExchangeConfig) (now : Z) (data : value) : res (option term) :=
  if String.eqb (name c) "bybit" then parseBybitData data
  else if String.eqb (name c) "kucoin" then parseKuCoinData data
  else if String.eqb (name c) "kraken" then parseKrakenData now data
  else if String.eqb (name c) "crypto_com" then parseCryptoComData data
  else if String.eqb (name c) "coinex" then parseCoinExData now data
  else if String.eqb (name c) "bitget" then parseBitgetData data
  else Ok None.

Definition handleMarketDataMessage (data : value) : M t unit :=
  (cfg <- gets config ;;
   match cfg with
   | None => ret tt
   | Some c =>
       (* the clock is read for the two normalizers that stamp the tick *)
       now <- date_now ;;
       marketData <- lift (normalize c now data) ;;
       match marketData with
       | Some tick =>
           cbs <- gets marketDataCallbacks ;;
           forEach cbs tick
       | None => ret tt
       end
   end)%M.

Definition handleReconnection (symbols : list string) : M t unit :=
  (n <- gets reconnectAttempts ;;
   if n <? maxReconnectAttempts then
     modify (set_reconnectAttempts (n + 1)) ;;;
     n' <- gets reconnectAttempts ;;
     let delay := 2 ^ n' * 1000 in
     console "Attempting to reconnect" ;;;
     set_timeout delay symbols
   else console "Max reconnection attempts reached")%M.

Definition connectMarketData (symbols : list string) : M t unit :=
  (cfg <- gets config ;;
   match cfg with
   | None => throw (Error "Crypto API not configured")
   | Some _ =>
       try_catch
         (ws <- gets websocket ;;
          match ws with
          | Some i => ws_close i
          | None => ret tt
          end ;;;
          wsUrl <- getWebSocketUrl ;;
          i <- ws_new wsUrl symbols ;;
          modify (set_websocket (Some i)))
         (fun error =>
            console "Failed to connect to market data:" ;;;
            throw error)
   end)%M.

(** [this.config!.name] inside a log line: reading [name] off a [null]
    configuration throws. *)
Definition config_name : M t string :=
  (cfg <- gets config ;;
   match cfg with
   | Some c => ret (name c)
   | None => throw TypeError
   end)%M.

Definition websocket_onopen (symbols : list string) : M t unit :=
  (n <- config_name ;;
   console (n +:+ " WebSocket connected") ;;;
   modify (set_reconnectAttempts 0) ;;;
   subscribeToSymbols symbols)%M.

Definition websocket_onmessage (f : frame) : M t unit :=
  try_catch
    (data <- lift (JSON_parse f) ;;
     handleMarketDataMessage data)%M
    (fun _ => console "Error parsing market data:").

Definition websocket_onclose (symbols : list string) : M t unit :=
  (n <- config_name ;;
   console (n +:+ " WebSocket disconnected") ;;;
   handleReconnection symbols)%M.

Definition websocket_onerror : M t unit :=
  console "WebSocket error:".

Definition socket_handlers : handlers t :=
  {| onopen := websocket_onopen;
     onmessage := websocket_onmessage;
     onerror := websocket_onerror;
     onclose := websocket_onclose;
     ontimeout := connectMarketData |}.

Definition onMarketData (callback : callback) : M t unit :=
  (cbs <- gets marketDataCallbacks ;;
   modify (set_marketDataCallbacks (cbs ++ [callback])))%M.

Definition onOrderUpdate (callback : callback) : M t unit :=
  (cbs <- gets orderUpdateCallbacks ;;
   modify (set_orderUpdateCallbacks (cbs ++ [callback])))%M.

(** Of its four parameters the source reads [timestamp] only. *)
Definition getAuthHeaders (method endpoint timestamp : string) (body : option value)
  : M t (gmap string string) :=
  (cfg <- gets config ;;
   match cfg with
   | None => throw (Error "Crypto API not configured")
   | Some c =>
       if String.eqb (name c) "bybit" then
         ret (<["X-BAPI-RECV-WINDOW" := "5000"]>
                (<["X-BAPI-TIMESTAMP" := timestamp]>
                   {["X-BAPI-API-KEY" := apiKey c]}))
       else if String.eqb (name c) "kucoin" then
         ret (<["KC-API-PASSPHRASE" := str_or (passphrase c) ""]>
                (<["KC-API-TIMESTAMP" := timestamp]>
                   {["KC-API-KEY" := apiKey c]}))
       else if String.eqb (name c) "kraken" then
         ret {["API-Key" := apiKey c]}
       else if String.eqb (name c) "crypto_com" then
         ret {["X-CRO-API-KEY" := apiKey c]}
       else if String.eqb (name c) "coinex" then
         ret (<["Tonce" := timestamp]> {["AccessId" := apiKey c]})
       else if String.eqb (name c) "bitget" then
         ret (<["ACCESS-TIMESTAMP" := timestamp]> {["ACCESS-KEY" := apiKey c]})
       else throw (Error ("Unsupported exchange: " +:+ name c))
   end)%M.

Definition request_headers (headers : gmap string string) : gmap string string :=
  headers ∪ {["Content-Type" := "application/json"]}.

Definition request_body (body : option value) : option term :=
  match body with
  | Some b => if truthy b then Some (TVal b) else None
  | None => None
  end.

Definition makeApiRequest (method endpoint : string) (body : option value) : M t value :=
  (cfg <- gets config ;;
   match cfg with
   | None => throw (Error "Crypto API not configured")
   | Some c =>
       let url := baseUrl c +:+ endpoint in
       now <- date_now ;;
       let timestamp := pretty now in
       headers <- getAuthHeaders method endpoint timestamp body ;;
       let options :=
         {| rq_method := method; rq_url := url;
            rq_headers := request_headers headers;
            rq_body := request_body body |} in
       response <- fetch options ;;
       if negb (rs_ok response) then
         let errorText := rs_text response in
         throw (Error ("API request failed: " +:+ pretty (rs_status response)
                         +:+ " " +:+ errorText))
       else
         match rs_json response with
         | Some v => ret v
         | None => throw SyntaxError
         end
   end)%M.

(** [Number.parseFloat(v.k1 || v.k2 || 0)] *)
Definition float_or2 (v : value) (k1 k2 : string) : res term :=
  (x <- get_or v k1 k2 ;; Ok (TParseFloat (TVal (or_else x (num 0)))))%res.

(** [Number.parseFloat(v.k || d)] *)
Definition float_or (v : value) (k : string) (d : Z) : res term :=
  (x <- get v k ;; Ok (TParseFloat (TVal (or_else x (num d)))))%res.

Definition parseAccountResponse (response : value) : res term :=
  (totalBalance <- float_or2 response "totalBalance" "total" ;;
   availableBalance <- float_or2 response "availableBalance" "available" ;;
   marginBalance <- float_or response "marginBalance" 0 ;;
   unrealizedPnl <- float_or response "unrealizedPnl" 0 ;;
   totalMarginBalance <- float_or response "totalMarginBalance" 0 ;;
   totalWalletBalance <- float_or response "totalWalletBalance" 0 ;;
   Ok (TObj [("totalBalance", totalBalance);
             ("availableBalance", availableBalance);
             ("marginBalance", marginBalance);
             ("unrealizedPnl", unrealizedPnl);
             ("totalMarginBalance", totalMarginBalance);
             ("totalWalletBalance", totalWalletBalance);
             ("positions", TArr [])]))%res.

Definition parsePosition (pos : value) : res term :=
  (symbol <- get pos "symbol" ;;
   side <- get pos "side" ;;
   size <- get_or pos "size" "quantity" ;;
   entryPrice <- get_or pos "entryPrice" "avgPrice" ;;
   markPrice <- get_or pos "markPrice" "currentPrice" ;;
   unrealizedPnl <- float_or pos "unrealizedPnl" 0 ;;
   leverage <- float_or pos "leverage" 1 ;;
   marginMode <- get pos "marginMode" ;;
   liquidationPrice <- float_or pos "liquidationPrice" 0 ;;
   Ok (TObj [("symbol", TVal symbol);
             ("side", TVal side);
             ("size", TParseFloat (TVal size));
             ("entryPrice", TParseFloat (TVal entryPrice));
             ("markPrice", TParseFloat (TVal markPrice));
             ("unrealizedPnl", unrealizedPnl);
             ("leverage", leverage);
             ("marginMode", TVal (or_else marginMode (VStr "CROSS")));
             ("liquidationPrice", liquidationPrice)]))%res.

Definition parsePositionsResponse (response : value) : res term :=
  match response with
  | VArr items => (r <- res_map parsePosition items ;; Ok (TArr r))%res
  | _ => Throw TypeError
  end.

Definition placeOrder (order : CryptoOrderRequest) : M t term :=
  (cfg <- gets config ;;
   match cfg with
   | None => throw (Error "Crypto API not configured")
   | Some _ =>
       try_catch
         (response <- makeApiRequest "POST" "/order" (Some (CryptoOrderRequest_value order)) ;;
          ret (TVal response))
         (fun error => console "Failed to place order:" ;;; throw error)
   end)%M.

Definition getAccount : M t term :=
  (cfg <- gets config ;;
   match cfg with
   | None => throw (Error "Crypto API not configured")
   | Some _ =>
       try_catch
         (response <- makeApiRequest "GET" "/account" None ;;
          lift (parseAccountResponse response))
         (fun error => console "Failed to get account info:" ;;; throw error)
   end)%M.

Definition getPositions : M t term :=
  (cfg <- gets config ;;
   match cfg with
   | None => throw (Error "Crypto API not configured")
   | Some _ =>
       try_catch
         (response <- makeApiRequest "GET" "/positions" None ;;
          lift (parsePositionsResponse response))
         (fun error => console "Failed to get positions:" ;;; throw error)
   end)%M.

Definition disconnect : M t unit :=
  (ws <- gets websocket ;;
   match ws with
   | Some i => ws_close i ;;; modify (set_websocket None)
   | None => ret tt
   end ;;;
   modify (set_marketDataCallbacks []) ;;;
   modify (set_orderUpdateCallbacks []))%M.

Definition isConnected : M t bool :=
  (ws <- gets websocket ;;
   match ws with
   | Some i =>
       st <- ws_state i ;;
       ret match st with Some OPEN => true | _ => false end
   | None => ret false
   end)%M.

Inductive call : Type :=
| Configure (c : CryptoExchangeConfig)
| ConnectMarketData (symbols : list string)
| OnMarketData (cb : callback)
| OnOrderUpdate (cb : callback)
| PlaceOrder (order : CryptoOrderRequest)
| GetAccount
| GetPositions
| Disconnect
| IsConnected.

Definition invoke (c : call) : M t unit :=
  match c with
  | Configure cfg => configure cfg
  | ConnectMarketData symbols => connectMarketData symbols
  | OnMarketData cb => onMarketData cb
  | OnOrderUpdate cb => onOrderUpdate cb
  | PlaceOrder order => (placeOrder order ;;; ret tt)%M
  | GetAccount => (getAccount ;;; ret tt)%M
  | GetPositions => (getPositions ;;; ret tt)%M
  | Disconnect => disconnect
  | IsConnected => (isConnected ;;; ret tt)%M
  end.

Definition start (w : World) : sys t := Sys init w.

Definition exec : list (action call) -> sys t -> option (sys t) :=
  run invoke socket_handlers.

End CryptoAPI.

(** ** RithmicAPI (the Rithmic gateway client) *)

Module RithmicAPI.

Inductive Environment : Type := test | live_env.
Inductive Side : Type := BUY | SELL.
Inductive OrderType : Type := MARKET | LIMIT | STOP | STOP_LIMIT.
Inductive TimeInForce : Type := DAY | GTC | IOC | FOK.

(** [live_env] is the ["live"] environment. *)
Record RithmicConfig : Type := {
  username : string;
  password : string;
  systemName : string;
  appName : string;
  appVersion : string;
  environment : Environment;
  gateway : string
}.

Record RithmicOrderRequest : Type := {
  symbol : string;
  exchange : string;
  side : Side;
  quantity : float;
  orderType : OrderType;
  price : option float;
  stopPrice : option float;
  timeInForce : TimeInForce;
  account : option string
}.

Record t : Type := {
  config : option RithmicConfig;
  websocket : option nat;
  accountUpdateCallbacks : list callback;
  marketDataCallbacks : list callback;
  orderUpdateCallbacks : list callback;
  connected : bool;
  reconnectAttempts : Z
}.

Definition maxReconnectAttempts : Z := 5.

(** [new RithmicAPI()] *)
Definition init : t :=
  {| config := None; websocket := None; accountUpdateCallbacks := [];
     marketDataCallbacks := []; orderUpdateCallbacks := [];
     connected := false; reconnectAttempts := 0 |}.

Definition set_config (c : option RithmicConfig) (a : t) : t :=
  {| config := c; websocket := websocket a;
     accountUpdateCallbacks := accountUpdateCallbacks a;
     marketDataCallbacks := marketDataCallbacks a;
     orderUpdateCallbacks := orderUpdateCallbacks a;
     connected := connected a;
     reconnectAttempts := reconnectAttempts a |}.

Definition set_websocket (w : option nat) (a : t) : t :=
  {| config := config a; websocket := w;
     accountUpdateCallbacks := accountUpdateCallbacks a;
     marketDataCallbacks := marketDataCallbacks a;
     orderUpdateCallbacks := orderUpdateCallbacks a;
     connected := connected a;
     reconnectAttempts := reconnectAttempts a |}.

Definition set_accountUpdateCallbacks (l : list callback) (a : t) : t :=
  {| config := config a; websocket := websocket a;
     accountUpdateCallbacks := l;
     marketDataCallbacks := marketDataCallbacks a;
     orderUpdateCallbacks := orderUpdateCallbacks a;
     connected := connected a;
     reconnectAttempts := reconnectAttempts a |}.

Definition set_marketDataCallbacks (l : list callback) (a : t) : t :=
  {| config := config a; websocket := websocket a;
     accountUpdateCallbacks := accountUpdateCallbacks a;
     marketDataCallbacks := l;
     orderUpdateCallbacks := orderUpdateCallbacks a;
     connected := connected a;
     reconnectAttempts := reconnectAttempts a |}.

Definition set_orderUpdateCallbacks (l : list callback) (a : t) : t :=
  {| config := config a; websocket := websocket a;
     accountUpdateCallbacks := accountUpdateCallbacks a;
     marketDataCallbacks := marketDataCallbacks a;
     orderUpdateCallbacks := l;
     connected := connected a;
     reconnectAttempts := reconnectAttempts a |}.

Definition set_connected (b : bool) (a : t) : t :=
  {| config := config a; websocket := websocket a;
     accountUpdateCallbacks := accountUpdateCallbacks a;
     marketDataCallbacks := marketDataCallbacks a;
     orderUpdateCallbacks := orderUpdateCallbacks a;
     connected := b;
     reconnectAttempts := reconnectAttempts a |}.

Definition set_reconnectAttempts (n : Z) (a : t) : t :=
  {| config := config a; websocket := websocket a;
     accountUpdateCallbacks := accountUpdateCallbacks a;
     marketDataCallbacks := marketDataCallbacks a;
     orderUpdateCallbacks := orderUpdateCallbacks a;
     connected := connected a;
     reconnectAttempts := n |}.

Definition Side_str (s : Side) : string :=
  match s with BUY => "BUY" | SELL => "SELL" end.

Definition OrderType_str (o : OrderType) : string :=
  match o with
  | MARKET => "MARKET" | LIMIT => "LIMIT" | STOP => "STOP" | STOP_LIMIT => "STOP_LIMIT"
  end.

Definition TimeInForce_str (f : TimeInForce) : string :=
  match f with DAY => "DAY" | GTC => "GTC" | IOC => "IOC" | FOK => "FOK" end.

Definition configure (c : RithmicConfig) : M t unit :=
  (modify (set_config (Some c)) ;;;
   modify (set_reconnectAttempts 0))%M.

Definition getWebSocketUrl : M t string :=
  (cfg <- gets config ;;
   match cfg with
   | None => throw (Error "No configuration")
   | Some c =>
       let baseUrl :=
         match environment c with
         | test => "wss://rituz00100.rithmic.com:443"
         | live_env => "wss://rituz00100.rithmic.com:443"
         end in
       ret (baseUrl +:+ "/" +:+ gateway c)
   end)%M.

Definition sendMessage (message : term) : M t unit :=
  (ws <- gets websocket ;;
   match ws with
   | Some i =>
       st <- ws_state i ;;
       match st with
       | Some OPEN => ws_send i message
       | _ => ret tt
       end
   | None => ret tt
   end)%M.

Definition authenticate : M t unit :=
  (ws <- gets websocket ;;
   cfg <- gets config ;;
   match ws, cfg with
   | Some _, Some c =>
       let loginMessage :=
         TObj [("template_id", TInt 10);
               ("user_msg",
                TArr [TStr (username c); TStr (password c); TStr (systemName c);
                      TStr (appName c); TStr (appVersion c)])] in
       sendMessage loginMessage
   | _, _ => ret tt
   end)%M.

(** [view.getUint16(0, true)]: the first two bytes, little endian; a
    [RangeError] when the buffer is shorter. *)
Definition getUint16 (bytes : list byte) : res Z :=
  match bytes with
  | b0 :: b1 :: _ => Ok (Z.of_N (Byte.to_N b0) + 256 * Z.of_N (Byte.to_N b1))
  | _ => Throw RangeError
  end.

Definition parseMessage (data : frame) : res value :=
  match data with
  | Text _ => JSON_parse data
  | Binary bytes =>
      (templateId <- getUint16 bytes ;;
       Ok (VObj [("template_id", num templateId); ("data", VBuf bytes)]))%res
  end.

Definition requestAccountInfo : M t unit :=
  sendMessage (TObj [("template_id", TInt 200); ("user_msg", TArr [])]).

Definition handleLoginResponse (message : value) : M t unit :=
  (rp_code <- lift (get message "rp_code") ;;
   ok <- lift (if truthy rp_code
               then (c0 <- index rp_code 0 ;; Ok (is_str c0 "0"))%res
               else Ok false) ;;
   if ok : bool then
     console "Rithmic login successful" ;;;
     modify (set_connected true) ;;;
     modify (set_reconnectAttempts 0) ;;;
     requestAccountInfo
   else
     console "Rithmic login failed:" ;;;
     throw (Error "Authentication failed"))%M.

(** [Number.parseFloat(message.k || 0)] *)
Definition float_field (message : value) (k : string) : res term :=
  (x <- get message k ;; Ok (TParseFloat (TVal (or_else x (num 0)))))%res.

(** [Number.parseInt(message.k || 0)] *)
Definition int_field (message : value) (k : string) : res term :=
  (x <- get message k ;; Ok (TParseInt (TVal (or_else x (num 0)))))%res.

(** [message.k || ""] *)
Definition str_field (message : value) (k : string) : res term :=
  (x <- get message k ;; Ok (TVal (or_else x (VStr ""))))%res.

Definition handleMarketDataUpdate (message : value) : M t unit :=
  (now <- date_now ;;
   marketData <- lift
     (symbol <- str_field message "symbol" ;;
      exchange <- str_field message "exchange" ;;
      lastPrice <- float_field message "last_trade_price" ;;
      bidPrice <- float_field message "best_bid_price" ;;
      askPrice <- float_field message "best_ask_price" ;;
      bidSize <- int_field message "best_bid_quantity" ;;
      askSize <- int_field message "best_ask_quantity" ;;
      volume <- int_field message "total_volume" ;;
      openPrice <- float_field message "open_price" ;;
      highPrice <- float_field message "high_price" ;;
      lowPrice <- float_field message "low_price" ;;
      settlementPrice <- float_field message "settlement_price" ;;
      Ok (TObj [("symbol", symbol);
                ("exchange", exchange);
                ("lastPrice", lastPrice);
                ("bidPrice", bidPrice);
                ("askPrice", askPrice);
                ("bidSize", bidSize);
                ("askSize", askSize);
                ("volume", volume);
                ("openPrice", openPrice);
                ("highPrice", highPrice);
                ("lowPrice", lowPrice);
                ("settlementPrice", settlementPrice);
                ("timestamp", TInt now)]))%res ;;
   cbs <- gets marketDataCallbacks ;;
   forEach cbs marketData)%M.

Definition handleAccountUpdate (message : value) : M t unit :=
  (account <- lift
     (accountId <- str_field message "account_id" ;;
      netLiquidationValue <- float_field message "net_liquidation_value" ;;
      totalCashValue <- float_field message "total_cash_value" ;;
      buyingPower <- float_field message "buying_power" ;;
      maintenanceMargin <- float_field message "maintenance_margin" ;;
      initialMargin <- float_field message "initial_margin" ;;
      availableFunds <- float_field message "available_funds" ;;
      excessLiquidity <- float_field message "excess_liquidity" ;;
      Ok (TObj [("accountId", accountId);
                ("netLiquidationValue", netLiquidationValue);
                ("totalCashValue", totalCashValue);
                ("buyingPower", buyingPower);
                ("maintenanceMargin", maintenanceMargin);
                ("initialMargin", initialMargin);
                ("availableFunds", availableFunds);
                ("excessLiquidity", excessLiquidity)]))%res ;;
   cbs <- gets accountUpdateCallbacks ;;
   forEach cbs account)%M.

Definition handleOrderUpdate (message : value) : M t unit :=
  (cbs <- gets orderUpdateCallbacks ;;
   forEach cbs (TVal message))%M.

Definition handlePositionUpdate (message : value) : M t unit :=
  console "Position update:".

Definition handleMessage (message : value) : M t unit :=
  (template_id <- lift (get message "template_id") ;;
   if is_num template_id 11 then handleLoginResponse message
   else if is_num template_id 150 then handleMarketDataUpdate message
   else if is_num template_id 101 then handleAccountUpdate message
   else if is_num template_id 102 then handleOrderUpdate message
   else if is_num template_id 103 then handlePositionUpdate message
   else console "Unknown message type:")%M.

Definition handleReconnection : M t unit :=
  (n <- gets reconnectAttempts ;;
   if n <? maxReconnectAttempts then
     modify (set_reconnectAttempts (n + 1)) ;;;
     n' <- gets reconnectAttempts ;;
     let delay := 2 ^ n' * 1000 in
     console "Attempting to reconnect to Rithmic" ;;;
     set_timeout delay []
   else console "Max Rithmic reconnection attempts reached")%M.

Definition connect : M t unit :=
  (cfg <- gets config ;;
   match cfg with
   | None => throw (Error "Rithmic API not configured")
   | Some _ =>
       try_catch
         (ws <- gets websocket ;;
          match ws with
          | Some i => ws_close i
          | None => ret tt
          end ;;;
          wsUrl <- getWebSocketUrl ;;
          i <- ws_new wsUrl [] ;;
          modify (set_websocket (Some i)))
         (fun error =>
            console "Failed to connect to Rithmic:" ;;;
            throw error)
   end)%M.

Definition websocket_onopen : M t unit :=
  (console "Rithmic WebSocket connected" ;;;
   authenticate)%M.

Definition websocket_onmessage (f : frame) : M t unit :=
  try_catch
    (data <- lift (parseMessage f) ;;
     handleMessage data)%M
    (fun _ => console "Error parsing Rithmic message:").

Definition websocket_onclose : M t unit :=
  (console "Rithmic WebSocket disconnected" ;;;
   modify (set_connected false) ;;;
   handleReconnection)%M.

Definition websocket_onerror : M t unit :=
  console "Rithmic WebSocket error:".

(** The handlers of this adapter close over nothing. *)
Definition socket_handlers : handlers t :=
  {| onopen := fun _ => websocket_onopen;
     onmessage := websocket_onmessage;
     onerror := websocket_onerror;
     onclose := fun _ => websocket_onclose;
     ontimeout := fun _ => connect |}.

Definition subscribeMarketData (symbol exchange : string) : M t unit :=
  (c <- gets connected ;;
   if negb c then throw (Error "Not connected to Rithmic")
   else sendMessage (TObj [("template_id", TInt 100);
                           ("user_msg", TArr [TStr symbol; TStr exchange])]))%M.

(** [x?.toString() || ""] for an optional number: the string of a number
    is never empty. *)
Definition opt_toString (x : option float) : term :=
  match x with
  | Some f => TToString (TVal (VNum f))
  | None => TStr ""
  end.

Definition orderMessage (order : RithmicOrderRequest) : term :=
  TObj [("template_id", TInt 300);
        ("user_msg",
         TArr [TStr (symbol order);
               TStr (exchange order);
               TStr (Side_str (side order));
               TToString (TVal (VNum (quantity order)));
               TStr (OrderType_str (orderType order));
               opt_toString (price order);
               opt_toString (stopPrice order);
               TStr (TimeInForce_str (timeInForce order));
               TStr (str_or (account order) "")])].

Definition placeOrder (order : RithmicOrderRequest) : M t term :=
  (c <- gets connected ;;
   if negb c then throw (Error "Not connected to Rithmic")
   else
     sendMessage (orderMessage order) ;;;
     now <- date_now ;;
     ret (TObj [("orderId", TStr (pretty now))]))%M.

Definition cancelOrder (orderId : string) : M t unit :=
  (c <- gets connected ;;
   if negb c then throw (Error "Not connected to Rithmic")
   else sendMessage (TObj [("template_id", TInt 301);
                           ("user_msg", TArr [TStr orderId])]))%M.

Definition onAccountUpdate (callback : callback) : M t unit :=
  (cbs <- gets accountUpdateCallbacks ;;
   modify (set_accountUpdateCallbacks (cbs ++ [callback])))%M.

Definition onMarketData (callback : callback) : M t unit :=
  (cbs <- gets marketDataCallbacks ;;
   modify (set_marketDataCallbacks (cbs ++ [callback])))%M.

Definition onOrderUpdate (callback : callback) : M t unit :=
  (cbs <- gets orderUpdateCallbacks ;;
   modify (set_orderUpdateCallbacks (cbs ++ [callback])))%M.

Definition disconnect : M t unit :=
  (ws <- gets websocket ;;
   match ws with
   | Some i => ws_close i ;;; modify (set_websocket None)
   | None => ret tt
   end ;;;
   modify (set_connected false) ;;;
   modify (set_accountUpdateCallbacks []) ;;;
   modify (set_marketDataCallbacks []) ;;;
   modify (set_orderUpdateCallbacks []))%M.

Definition isConnected : M t bool := gets connected.

Inductive call : Type :=
| Configure (c : RithmicConfig)
| Connect
| SubscribeMarketData (symbol exchange : string)
| PlaceOrder (order : RithmicOrderRequest)
| CancelOrder (orderId : string)
| OnAccountUpdate (cb : callback)
| OnMarketData (cb : callback)
| OnOrderUpdate (cb : callback)
| Disconnect
| IsConnected.

Definition invoke (c : call) : M t unit :=
  match c with
  | Configure cfg => configure cfg
  | Connect => connect
  | SubscribeMarketData symbol exchange => subscribeMarketData symbol exchange
  | PlaceOrder order => (placeOrder order ;;; ret tt)%M
  | CancelOrder orderId => cancelOrder orderId
  | OnAccountUpdate cb => onAccountUpdate cb
  | OnMarketData cb => onMarketData cb
  | OnOrderUpdate cb => onOrderUpdate cb
  | Disconnect => disconnect
  | IsConnected => (isConnected ;;; ret tt)%M
  end.

Definition start (w : World) : sys t := Sys init w.

Definition exec : list (action call) -> sys t -> option (sys t) :=
  run invoke socket_handlers.

End RithmicAPI.

(** ** The presets (src/lib/broker-configs.ts) *)

Module BrokerConfigs.

(** [Omit<BrokerConfig, "apiKey" | "secretKey">], as the presets fill it. *)
Record BrokerPreset : Type := {
  name : string;
  baseUrl : string;
  sandbox : bool
}.

(** An object literal used as a table: its own keys, in the order written. *)
Definition BROKER_CONFIGS : list (string * BrokerPreset) :=
  [("alpaca",
    {| name := "alpaca"; baseUrl := "https://paper-api.alpaca.markets/v2"; sandbox := true |});
   ("alpaca_live",
    {| name := "alpaca"; baseUrl := "https://api.alpaca.markets/v2"; sandbox := false |});
   ("polygon",
    {| name := "polygon"; baseUrl := "https://api.polygon.io/v2"; sandbox := false |});
   ("finnhub",
    {| name := "finnhub"; baseUrl := "https://finnhub.io/api/v1"; sandbox := false |});
   ("interactive_brokers",
    {| name := "interactive_brokers"; baseUrl := "https://localhost:5000/v1/api";
       sandbox := false |});
   ("td_ameritrade",
    {| name := "td_ameritrade"; baseUrl := "https://api.tdameritrade.com/v1";
       sandbox := false |});
   ("rithmic",
    {| name := "rithmic"; baseUrl := "wss://rituz00100.rithmic.com:443"; sandbox := false |});
   ("rithmic_test",
    {| name := "rithmic"; baseUrl := "wss://rituz00100.rithmic.com:443"; sandbox := true |})].

(** [Omit<CryptoExchangeConfig, "apiKey" | "secretKey" | "passphrase">] *)
Record CryptoPreset : Type := {
  exchange : string;
  restUrl : string;
  testnet : bool
}.

Definition CRYPTO_CONFIGS : list (string * CryptoPreset) :=
  [("bybit",
    {| exchange := "bybit"; restUrl := "https://api.bybit.com"; testnet := false |});
   ("bybit_testnet",
    {| exchange := "bybit"; restUrl := "https://api-testnet.bybit.com"; testnet := true |});
   ("kucoin",
    {| exchange := "kucoin"; restUrl := "https://api.kucoin.com"; testnet := false |});
   ("kucoin_sandbox",
    {| exchange := "kucoin"; restUrl := "https://openapi-sandbox.kucoin.com";
       testnet := true |});
   ("kraken",
    {| exchange := "kraken"; restUrl := "https://api.kraken.com"; testnet := false |});
   ("crypto_com",
    {| exchange := "crypto_com"; restUrl := "https://api.crypto.com/v2"; testnet := false |});
   ("crypto_com_sandbox",
    {| exchange := "crypto_com"; restUrl := "https://uat-api.3ona.co/v2"; testnet := true |});
   ("coinex",
    {| exchange := "coinex"; restUrl := "https://api.coinex.com"; testnet := false |});
   ("bitget",
    {| exchange := "bitget"; restUrl := "https://api.bitget.com"; testnet := false |});
   ("bitget_sandbox",
    {| exchange := "bitget"; restUrl := "https://api.bitgetapi.com"; testnet := true |})].

(** The [value] of each entry of [CRYPTO_EXCHANGES]. *)
Definition CRYPTO_EXCHANGES : list string :=
  ["bybit"; "kucoin"; "kraken"; "crypto_com"; "coinex"; "bitget"].

End BrokerConfigs.

(** ** Sample configurations *)

Module Samples.

Definition alpaca_paper : TradingAPI.BrokerConfig :=
  {| TradingAPI.name := "alpaca"; TradingAPI.apiKey := "PK1";
     TradingAPI.secretKey := None;
     TradingAPI.baseUrl := "https://paper-api.alpaca.markets/v2";
     TradingAPI.sandbox := true; TradingAPI.accountId := None |}.

Definition kucoin_main : CryptoAPI.CryptoExchangeConfig :=
  {| CryptoAPI.name := "kucoin"; CryptoAPI.apiKey := "K1"; CryptoAPI.secretKey := "S1";
     CryptoAPI.passphrase := None; CryptoAPI.baseUrl := "https://api.kucoin.com";
     CryptoAPI.testnet := false; CryptoAPI.default_leverage := None |}.

Definition polygon_live : TradingAPI.BrokerConfig :=
  {| TradingAPI.name := "polygon"; TradingAPI.apiKey := "PG1";
     TradingAPI.secretKey := None;
     TradingAPI.baseUrl := "https://api.polygon.io/v2";
     TradingAPI.sandbox := false; TradingAPI.accountId := None |}.

Definition rithmic_login (user : string) (gw : string) : RithmicAPI.RithmicConfig :=
  {| RithmicAPI.username := user; RithmicAPI.password := "p";
     RithmicAPI.systemName := "Rithmic Paper Trading"; RithmicAPI.appName := "NEXUS";
     RithmicAPI.appVersion := "1.0"; RithmicAPI.environment := RithmicAPI.test;
     RithmicAPI.gateway := gw |}.

(** A fresh [TradingAPI] after [configure(alpaca_paper)]. *)
Definition configured_alpaca : sys TradingAPI.t :=
  Sys (TradingAPI.set_config (Some alpaca_paper) TradingAPI.init) empty_world.

End Samples.

(** * Properties of the adapters *)

(** ** Running a computation step by step *)

Section Steps.
Context {A : Type}.

Lemma bind_ok {X Y} (m : M A X) (k : X -> M A Y) s x s' :
  m s = (Ok x, s') -> bind m k s = k x s'.
Proof. unfold bind. now intros ->. Qed.

Lemma bind_throw {X Y} (m : M A X) (k : X -> M A Y) s e s' :
  m s = (Throw e, s') -> bind m k s = (Throw e, s').
Proof. unfold bind. now intros ->. Qed.

Lemma try_ok {X} (m : M A X) h s x s' :
  m s = (Ok x, s') -> try_catch m h s = (Ok x, s').
Proof. unfold try_catch. now intros ->. Qed.

Lemma try_throw {X} (m : M A X) h s e s' :
  m s = (Throw e, s') -> try_catch m h s = h e s'.
Proof. unfold try_catch. now intros ->. Qed.

Lemma gets_run {X} (f : A -> X) s : gets f s = (Ok (f (adapter s)), s).
Proof. reflexivity. Qed.

Lemma lift_run {X} (r : res X) (s : sys A) : lift r s = (r, s).
Proof. reflexivity. Qed.
End Steps.

(** ** What a computation leaves as it is *)

(** [keeps R m]: whatever the state, [m] takes it to an [R]-related one,
    whether it returns or throws.  For a preorder [R] this goes through
    sequencing, [try]/[catch] and the fan-out over callbacks, so that a
    method keeps [R] as soon as the updates it makes do. *)
Definition keeps {A X} (R : relation (sys A)) (m : M A X) : Prop :=
  forall s, R s (snd (m s)).

Section Keeps.
Context {A : Type} (R : relation (sys A)) `{!PreOrder R}.

Lemma keeps_ret {X} (x : X) : keeps R (ret x).
Proof. intros s. reflexivity. Qed.

Lemma keeps_throw {X} e : keeps R (throw (X := X) e).
Proof. intros s. reflexivity. Qed.

Lemma keeps_lift {X} (r : res X) : keeps R (lift r).
Proof. intros s. reflexivity. Qed.

Lemma keeps_gets {X} (f : A -> X) : keeps R (gets f).
Proof. intros s. reflexivity. Qed.

Lemma keeps_ask_world {X} (f : World -> X) : keeps R (ask_world f).
Proof. intros s. reflexivity. Qed.

Lemma keeps_bind {X Y} (m : M A X) (k : X -> M A Y) :
  keeps R m -> (forall x, keeps R (k x)) -> keeps R (bind m k).
Proof.
  intros Hm Hk s. unfold bind. specialize (Hm s).
  destruct (m s) as [[x|e] s']; cbn in *; [|assumption].
  etransitivity; [exact Hm | apply Hk].
Qed.

Lemma keeps_bind_lift {X Y} (r : res X) (k : X -> M A Y) :
  (forall x, r = Ok x -> keeps R (k x)) -> keeps R (bind (lift r) k).
Proof.
  intros Hk s. unfold bind, lift. destruct r as [x|e]; [|reflexivity].
  now apply Hk.
Qed.

Lemma keeps_try_catch {X} (m : M A X) (h : exn -> M A X) :
  keeps R m -> (forall e, keeps R (h e)) -> keeps R (try_catch m h).
Proof.
  intros Hm Hh s. unfold try_catch. specialize (Hm s).
  destruct (m s) as [[x|e] s']; cbn in *; [assumption|].
  etransitivity; [exact Hm | apply Hh].
Qed.

Lemma keeps_forEach cbs arg :
  (forall cb, keeps R (call cb arg)) -> keeps R (forEach cbs arg).
Proof.
  intros Hc. induction cbs as [|cb cbs IH]; cbn [forEach].
  - apply keeps_ret.
  - apply keeps_bind; [apply Hc | intros _; exact IH].
Qed.
End Keeps.

Ltac head_of t :=
  lazymatch t with
  | ?f _ => head_of f
  | _ => t
  end.

(** Walks through a method body, leaving the updates of the instance and
    of the world to [prim]. *)
Ltac keeps_with prim :=
  repeat lazymatch goal with
    | |- keeps ?R (bind _ _) => apply (keeps_bind R); [ | intros ? ]
    | |- keeps ?R (try_catch _ _) => apply (keeps_try_catch R); [ | intros ? ]
    | |- keeps ?R (ret _) => apply (keeps_ret R)
    | |- keeps ?R (throw _) => apply (keeps_throw R)
    | |- keeps ?R (lift _) => apply (keeps_lift R)
    | |- keeps ?R (gets _) => apply (keeps_gets R)
    | |- keeps ?R (ask_world _) => apply (keeps_ask_world R)
    | |- keeps ?R date_now => apply (keeps_ask_world R)
    | |- keeps ?R (ws_state _) => apply (keeps_ask_world R)
    | |- keeps ?R (forEach _ _) => apply (keeps_forEach R); intros ?
    | |- keeps _ (call _ _) => unfold call
    | |- keeps _ (ws_send _ _) => unfold ws_send
    | |- keeps _ (console _) => unfold console
    | |- keeps _ (ws_close _) => unfold ws_close
    | |- keeps _ (set_timeout _ _) => unfold set_timeout
    | |- keeps _ (match ?x with _ => _ end) => destruct x
    | |- keeps _ (let _ := _ in _) => cbv zeta
    | |- keeps _ (on_world _) => prim
    | |- keeps _ (modify _) => prim
    | |- keeps _ (ws_new _ _) => prim
    | |- keeps _ (fetch _) => prim
    | |- keeps _ ?m => let h := head_of m in unfold h
    end.

Lemma timeouts_snoc l e :
  timeouts (l ++ [e]) = timeouts l ++ timeouts [e].
Proof. apply omap_app. Qed.

Lemma fetches_snoc l e :
  fetches (l ++ [e]) = fetches l ++ fetches [e].
Proof. apply omap_app. Qed.

Lemma calls_snoc l e :
  calls (l ++ [e]) = calls l ++ calls [e].
Proof. apply omap_app. Qed.

(** [unchanged obs]: the observation [obs] of the state is the same
    before and after. *)
Definition unchanged {A O} (obs : sys A -> O) : relation (sys A) :=
  fun s s' => obs s' = obs s.

#[global] Instance unchanged_preorder {A O} (obs : sys A -> O) : PreOrder (unchanged obs).
Proof.
  split.
  - intros s. reflexivity.
  - intros s1 s2 s3 H12 H23. unfold unchanged in *. congruence.
Qed.

(** An update that does not touch the observed fields and arms no timer. *)
Ltac untouched :=
  let a := fresh "a" in
  let w := fresh "w" in
  intros [a w];
  lazymatch goal with
  | |- unchanged ?obs _ _ => let h := head_of obs in unfold unchanged, h, delays
  end;
  cbn; rewrite ?timeouts_snoc; cbn; rewrite ?app_nil_r; reflexivity.

(** ** Calls before [configure] *)

Module Unconfigured.

(** How a call ends that the guard at the top of a method rejected: it
    throws [e] and the instance and the world are what they were: no
    socket, no request, no log line. *)
Definition rejected {A X} (m : M A X) (e : exn) (s : sys A) : Prop :=
  m s = (Throw e, s).

Lemma rejected_effects {A X} (m : M A X) e s :
  rejected m e s ->
  effects (world (snd (m s))) = effects (world s) /\
  sockets (world (snd (m s))) = sockets (world s) /\
  network (world (snd (m s))) = network (world s).
Proof. unfold rejected. intros ->. auto. Qed.

Section Trading.
Import TradingAPI.
Variable s : sys t.
Hypothesis unconfigured : config (adapter s) = None.

Let e := Error "Trading API not configured".

Lemma trading_connectMarketData symbols : rejected (connectMarketData symbols) e s.
Proof. unfold rejected, connectMarketData, bind, gets. now rewrite unconfigured. Qed.

Lemma trading_placeOrder order : rejected (placeOrder order) e s.
Proof. unfold rejected, placeOrder, bind, gets. now rewrite unconfigured. Qed.

Lemma trading_cancelOrder orderId : rejected (cancelOrder orderId) e s.
Proof. unfold rejected, cancelOrder, bind, gets. now rewrite unconfigured. Qed.

Lemma trading_getAccount : rejected getAccount e s.
Proof. unfold rejected, getAccount, bind, gets. now rewrite unconfigured. Qed.

Lemma trading_getPositions : rejected getPositions e s.
Proof. unfold rejected, getPositions, bind, gets. now rewrite unconfigured. Qed.

Lemma trading_getOrders status : rejected (getOrders status) e s.
Proof. unfold rejected, getOrders, bind, gets. now rewrite unconfigured. Qed.
End Trading.

Section Crypto.
Import CryptoAPI.
Variable s : sys t.
Hypothesis unconfigured : config (adapter s) = None.

Let e := Error "Crypto API not configured".

Lemma crypto_connectMarketData symbols : rejected (connectMarketData symbols) e s.
Proof. unfold rejected, connectMarketData, bind, gets. now rewrite unconfigured. Qed.

Lemma crypto_placeOrder order : rejected (placeOrder order) e s.
Proof. unfold rejected, placeOrder, bind, gets. now rewrite unconfigured. Qed.

Lemma crypto_getAccount : rejected getAccount e s.
Proof. unfold rejected, getAccount, bind, gets. now rewrite unconfigured. Qed.

Lemma crypto_getPositions : rejected getPositions e s.
Proof. unfold rejected, getPositions, bind, gets. now rewrite unconfigured. Qed.
End Crypto.



End Unconfigured.

(** ** Authentication headers *)

Module AuthHeaders.

(** The header names documented for each broker of [TradingAPI]. *)
Definition broker_header_keys (name : string) : option (gset string) :=
  if String.eqb name "alpaca" then Some {[ "APCA-API-KEY-ID"; "APCA-API-SECRET-KEY" ]}
  else if String.eqb name "polygon" then Some {[ "Authorization" ]}
  else if String.eqb name "finnhub" then Some {[ "X-Finnhub-Token" ]}
  else None.

(** The header names documented for each exchange of [CryptoAPI]. *)
Definition exchange_header_keys (name : string) : option (gset string) :=
  if String.eqb name "bybit"
  then Some {[ "X-BAPI-API-KEY"; "X-BAPI-TIMESTAMP"; "X-BAPI-RECV-WINDOW" ]}
  else if String.eqb name "kucoin"
  then Some {[ "KC-API-KEY"; "KC-API-TIMESTAMP"; "KC-API-PASSPHRASE" ]}
  else if String.eqb name "kraken" then Some {[ "API-Key" ]}
  else if String.eqb name "crypto_com" then Some {[ "X-CRO-API-KEY" ]}
  else if String.eqb name "coinex" then Some {[ "AccessId"; "Tonce" ]}
  else if String.eqb name "bitget" then Some {[ "ACCESS-KEY"; "ACCESS-TIMESTAMP" ]}
  else None.

(** [m] returns a header map with exactly the names [keys], or throws [e]
    when no names are documented; it changes nothing. *)
Definition yields_keys {A} (m : M A (gmap string string)) (keys : option (gset string))
    (e : exn) (s : sys A) : Prop :=
  match keys with
  | Some ks => exists h, m s = (Ok h, s) /\ dom h = ks
  | None => m s = (Throw e, s)
  end.

Ltac header_cases c :=
  repeat match goal with
         | |- context [String.eqb (?f c) ?lit] => destruct (String.eqb (f c) lit)
         end.

Lemma broker_headers (s : sys TradingAPI.t) c :
  TradingAPI.config (adapter s) = Some c ->
  yields_keys TradingAPI.getAuthHeaders (broker_header_keys (TradingAPI.name c))
    (Error ("Unsupported broker: " +:+ TradingAPI.name c)) s.
Proof.
  intros Hc.
  unfold yields_keys, broker_header_keys, TradingAPI.getAuthHeaders, bind, gets, ret, throw.
  rewrite Hc. header_cases c; try reflexivity; eexists; (split; [reflexivity|]).
  - rewrite dom_insert_L, dom_singleton_L. set_solver.
  - now rewrite dom_singleton_L.
  - now rewrite dom_singleton_L.
Qed.

Lemma exchange_headers (s : sys CryptoAPI.t) c method endpoint timestamp body :
  CryptoAPI.config (adapter s) = Some c ->
  yields_keys (CryptoAPI.getAuthHeaders method endpoint timestamp body)
    (exchange_header_keys (CryptoAPI.name c))
    (Error ("Unsupported exchange: " +:+ CryptoAPI.name c)) s.
Proof.
  intros Hc.
  unfold yields_keys, exchange_header_keys, CryptoAPI.getAuthHeaders, bind, gets, ret, throw.
  rewrite Hc. header_cases c; try reflexivity; eexists; (split; [reflexivity|]);
    rewrite ?dom_insert_L, ?dom_singleton_L; set_solver.
Qed.

(** C7.  Whatever the credentials and the other fields of the stored
    configuration, [getAuthHeaders] returns a map whose set of header
    names is exactly the one documented for the configured venue: the
    key-id and secret pair for alpaca, [Authorization] alone for polygon,
    [X-Finnhub-Token] alone for finnhub, and the fixed sets of the six
    crypto exchanges.  For a venue name with no documented set it throws
    "Unsupported ...". *)
Theorem auth_header_names_are_fixed :
  (forall (s : sys TradingAPI.t) c,
     TradingAPI.config (adapter s) = Some c ->
     yields_keys TradingAPI.getAuthHeaders (broker_header_keys (TradingAPI.name c))
       (Error ("Unsupported broker: " +:+ TradingAPI.name c)) s) /\
  (forall (s : sys CryptoAPI.t) c method endpoint timestamp body,
     CryptoAPI.config (adapter s) = Some c ->
     yields_keys (CryptoAPI.getAuthHeaders method endpoint timestamp body)
       (exchange_header_keys (CryptoAPI.name c))
       (Error ("Unsupported exchange: " +:+ CryptoAPI.name c)) s).
Proof.
  split.
  - intros s c Hc. now apply broker_headers.
  - intros s c method endpoint timestamp body Hc. now apply exchange_headers.
Qed.

(** Alpaca without a secret and KuCoin without a passphrase still get
    their two and three header names. *)
Lemma auth_header_names_are_fixed_witness :
  yields_keys TradingAPI.getAuthHeaders
    (Some {[ "APCA-API-KEY-ID"; "APCA-API-SECRET-KEY" ]})
    (Error "Unsupported broker: alpaca")
    (Sys (TradingAPI.set_config (Some Samples.alpaca_paper) TradingAPI.init) empty_world) /\
  yields_keys (CryptoAPI.getAuthHeaders "GET" "/account" "1700000000000" None)
    (Some {[ "KC-API-KEY"; "KC-API-TIMESTAMP"; "KC-API-PASSPHRASE" ]})
    (Error "Unsupported exchange: kucoin")
    (Sys (CryptoAPI.set_config (Some Samples.kucoin_main) CryptoAPI.init) empty_world).
Proof.
  split.
  - apply (proj1 auth_header_names_are_fixed _ Samples.alpaca_paper). reflexivity.
  - apply (proj2 auth_header_names_are_fixed _ Samples.kucoin_main). reflexivity.
Defined.

End AuthHeaders.

(** ** The streaming endpoint *)

Module Endpoint.

Lemma broker_url (s1 s2 : sys TradingAPI.t) c1 c2 :
  TradingAPI.config (adapter s1) = Some c1 ->
  TradingAPI.config (adapter s2) = Some c2 ->
  TradingAPI.name c1 = TradingAPI.name c2 ->
  TradingAPI.sandbox c1 = TradingAPI.sandbox c2 ->
  fst (TradingAPI.getWebSocketUrl s1) = fst (TradingAPI.getWebSocketUrl s2).
Proof.
  intros H1 H2 Hn Hs.
  unfold TradingAPI.getWebSocketUrl, bind, gets, ret, throw.
  rewrite H1, H2, Hn, Hs.
  repeat match goal with
         | |- context [if ?b then _ else _] => destruct b
         end; reflexivity.
Qed.

Lemma exchange_url (s1 s2 : sys CryptoAPI.t) c1 c2 :
  CryptoAPI.config (adapter s1) = Some c1 ->
  CryptoAPI.config (adapter s2) = Some c2 ->
  CryptoAPI.name c1 = CryptoAPI.name c2 ->
  CryptoAPI.testnet c1 = CryptoAPI.testnet c2 ->
  fst (CryptoAPI.getWebSocketUrl s1) = fst (CryptoAPI.getWebSocketUrl s2).
Proof.
  intros H1 H2 Hn Hs.
  unfold CryptoAPI.getWebSocketUrl, bind, gets, ret, throw.
  rewrite H1, H2, Hn, Hs.
  repeat match goal with
         | |- context [if ?b then _ else _] => destruct b
         end; reflexivity.
Qed.

Lemma gateway_url (s1 s2 : sys RithmicAPI.t) c1 c2 :
  RithmicAPI.config (adapter s1) = Some c1 ->
  RithmicAPI.config (adapter s2) = Some c2 ->
  RithmicAPI.environment c1 = RithmicAPI.environment c2 ->
  RithmicAPI.gateway c1 = RithmicAPI.gateway c2 ->
  fst (RithmicAPI.getWebSocketUrl s1) = fst (RithmicAPI.getWebSocketUrl s2).
Proof.
  intros H1 H2 He Hg.
  unfold RithmicAPI.getWebSocketUrl, bind, gets, ret.
  now rewrite H1, H2, He, Hg.
Qed.

Definition rithmic_with (c : RithmicAPI.RithmicConfig) : sys RithmicAPI.t :=
  Sys (RithmicAPI.set_config (Some c) RithmicAPI.init) empty_world.

(** Two Rithmic configurations with the same system name and the same
    environment, differing in the gateway only, get different URLs. *)
Lemma gateway_changes_url :
  let c1 := Samples.rithmic_login "trader" "chicago" in
  let c2 := Samples.rithmic_login "trader" "frankfurt" in
  RithmicAPI.systemName c1 = RithmicAPI.systemName c2 /\
  RithmicAPI.environment c1 = RithmicAPI.environment c2 /\
  fst (RithmicAPI.getWebSocketUrl (rithmic_with c1)) =
    Ok "wss://rituz00100.rithmic.com:443/chicago" /\
  fst (RithmicAPI.getWebSocketUrl (rithmic_with c2)) =
    Ok "wss://rituz00100.rithmic.com:443/frankfurt" /\
  fst (RithmicAPI.getWebSocketUrl (rithmic_with c1)) <>
    fst (RithmicAPI.getWebSocketUrl (rithmic_with c2)).
Proof. repeat split. discriminate. Qed.

(** C8, amended.  For [TradingAPI] and [CryptoAPI] the WebSocket URL (or
    the "Unsupported ..." error) is a function of the venue name and the
    sandbox or testnet flag: two configurations that agree on both get
    the same one, whatever their credentials and base URL.  For
    [RithmicAPI] the gateway is part of the URL: two configurations that
    agree on the environment and on the gateway get the same URL,
    whatever their credentials and application fields. *)
Theorem websocket_url_is_determined :
  (forall (s1 s2 : sys TradingAPI.t) c1 c2,
     TradingAPI.config (adapter s1) = Some c1 ->
     TradingAPI.config (adapter s2) = Some c2 ->
     TradingAPI.name c1 = TradingAPI.name c2 ->
     TradingAPI.sandbox c1 = TradingAPI.sandbox c2 ->
     fst (TradingAPI.getWebSocketUrl s1) = fst (TradingAPI.getWebSocketUrl s2)) /\
  (forall (s1 s2 : sys CryptoAPI.t) c1 c2,
     CryptoAPI.config (adapter s1) = Some c1 ->
     CryptoAPI.config (adapter s2) = Some c2 ->
     CryptoAPI.name c1 = CryptoAPI.name c2 ->
     CryptoAPI.testnet c1 = CryptoAPI.testnet c2 ->
     fst (CryptoAPI.getWebSocketUrl s1) = fst (CryptoAPI.getWebSocketUrl s2)) /\
  (forall (s1 s2 : sys RithmicAPI.t) c1 c2,
     RithmicAPI.config (adapter s1) = Some c1 ->
     RithmicAPI.config (adapter s2) = Some c2 ->
     RithmicAPI.environment c1 = RithmicAPI.environment c2 ->
     RithmicAPI.gateway c1 = RithmicAPI.gateway c2 ->
     fst (RithmicAPI.getWebSocketUrl s1) = fst (RithmicAPI.getWebSocketUrl s2)).
Proof.
  split; [|split].
  - intros. eapply broker_url; eassumption.
  - intros. eapply exchange_url; eassumption.
  - intros. eapply gateway_url; eassumption.
Qed.

(** Two users of one gateway share a URL. *)
Lemma websocket_url_is_determined_witness :
  fst (RithmicAPI.getWebSocketUrl (rithmic_with (Samples.rithmic_login "trader" "chicago"))) =
  fst (RithmicAPI.getWebSocketUrl (rithmic_with (Samples.rithmic_login "desk" "chicago"))).
Proof.
  apply (proj2 (proj2 websocket_url_is_determined) _ _
           (Samples.rithmic_login "trader" "chicago")
           (Samples.rithmic_login "desk" "chicago")); reflexivity.
Defined.

End Endpoint.

(** ** Orders through the Rithmic socket *)

Module RithmicOrders.
Import RithmicAPI.

(** The socket the adapter holds, when it holds one that is open. *)
Definition open_socket (s : sys t) : option nat :=
  match websocket (adapter s) with
  | Some i =>
      match sockets (world s) !! i with
      | Some w => if readyState_eqb (ws_readyState w) OPEN then Some i else None
      | None => None
      end
  | None => None
  end.

(** [s] after [msg] went out on the open socket, or [s] itself when there
    is none. *)
Definition sent (msg : term) (s : sys t) : sys t :=
  match open_socket s with
  | Some i => Sys (adapter s) (emit (EWsSend i msg) (world s))
  | None => s
  end.

Lemma sendMessage_sent msg s : sendMessage msg s = (Ok tt, sent msg s).
Proof.
  destruct s as [a w].
  unfold sendMessage, sent, open_socket, ws_send, ws_state, bind, gets, ask_world, on_world, ret.
  cbn. destruct (websocket a) as [i|]; [|reflexivity].
  cbn. destruct (sockets w !! i) as [sock|] eqn:Hi; cbn; [|reflexivity].
  destruct (ws_readyState sock) eqn:Hr; cbn; try reflexivity.
  now rewrite Hi; cbn; rewrite Hr.
Qed.

(** C10.  While [connected] is set, [placeOrder] resolves to an object
    with the single field [orderId], the decimal rendering of the clock
    at the time of the call: nothing read from the network or from a
    frame of the venue enters it.  The order message goes out exactly
    when the adapter holds a socket that is open; otherwise nothing is
    sent, nothing is thrown and the order id is returned all the same. *)
Theorem placeOrder_returns_local_order_id (s : sys t) (order : RithmicOrderRequest) :
  connected (adapter s) = true ->
  placeOrder order s =
    (Ok (TObj [("orderId", TStr (pretty (now (world s))))]), sent (orderMessage order) s) /\
  (open_socket s = None -> snd (placeOrder order s) = s) /\
  (forall i, open_socket s = Some i ->
     effects (world (snd (placeOrder order s))) =
       effects (world s) ++ [EWsSend i (orderMessage order)]).
Proof.
  intros Hc.
  assert (Hrun : placeOrder order s =
            (Ok (TObj [("orderId", TStr (pretty (now (world s))))]),
             sent (orderMessage order) s)).
  { unfold placeOrder.
    rewrite (bind_ok _ _ _ _ _ (gets_run connected s)), Hc. cbn [negb].
    rewrite (bind_ok _ _ _ _ _ (sendMessage_sent _ s)).
    unfold bind, date_now, ask_world, ret, sent.
    now destruct (open_socket s). }
  split; [exact Hrun|]. rewrite Hrun. unfold sent. split.
  - now intros ->.
  - now intros i ->.
Qed.

Definition es_limit : RithmicOrderRequest :=
  {| symbol := "ESM4"; exchange := "CME"; side := BUY; quantity := 2%float;
     orderType := LIMIT; price := Some 5300.25%float; stopPrice := None;
     timeInForce := DAY; account := None |}.

Definition login_accepted : frame :=
  Text (Some (VObj [("template_id", num 11); ("rp_code", VArr [VStr "0"])])).

(** The UI logs in and then calls [connect] once more: the first socket
    is closing, the second one still connecting, and [connected] is
    still set. *)
Definition reconnect_script : list (action call) :=
  [Api (Configure (Samples.rithmic_login "trader" "chicago")); Api Connect;
   Env (EvOpen 0); Env (EvMessage 0 login_accepted); Api Connect].

Definition reconnecting : sys t :=
  let s0 := start (set_now 1700000000000 empty_world) in
  default s0 (exec reconnect_script s0).

Lemma reconnecting_is_reached :
  exec reconnect_script (start (set_now 1700000000000 empty_world)) = Some reconnecting /\
  map ws_readyState (sockets (world reconnecting)) = [CLOSING; CONNECTING].
Proof. split; vm_compute; reflexivity. Qed.

(** There the order is dropped and an id is returned. *)
Lemma placeOrder_returns_local_order_id_witness :
  connected (adapter reconnecting) = true /\
  open_socket reconnecting = None /\
  placeOrder es_limit reconnecting =
    (Ok (TObj [("orderId", TStr "1700000000000")]), reconnecting).
Proof.
  assert (Hc : connected (adapter reconnecting) = true) by (vm_compute; reflexivity).
  split; [exact Hc|]. split; [vm_compute; reflexivity|].
  etransitivity; [exact (proj1 (placeOrder_returns_local_order_id reconnecting es_limit Hc))|].
  vm_compute. reflexivity.
Defined.

End RithmicOrders.

(** ** Sessions: the sockets of one adapter *)

Module Sessions.

Section Held.
Context {A : Type} (held : A -> option nat).

(** Every socket that is connecting or open is the one the adapter
    holds in its [websocket] field: there is at most one live session. *)
Definition one_session (s : sys A) : Prop :=
  forall i w, sockets (world s) !! i = Some w -> live w = true ->
              held (adapter s) = Some i.

(** The world after [close()] on the held socket, if there is one:
    [if (this.websocket) this.websocket.close()]. *)
Definition closed_held (s : sys A) : World :=
  match held (adapter s) with
  | Some i =>
      emit (EWsClose i) (set_sockets (alter close_socket i (sockets (world s))) (world s))
  | None => world s
  end.

(** The adapter holds the same socket and no socket came alive. *)
Definition calmer : relation (sys A) := fun s s' =>
  held (adapter s') = held (adapter s) /\
  forall i w', sockets (world s') !! i = Some w' -> live w' = true ->
               exists w, sockets (world s) !! i = Some w /\ live w = true.

#[export] Instance calmer_preorder : PreOrder calmer.
Proof.
  split.
  - intros s. split; eauto.
  - intros s1 s2 s3 [H12 L12] [H23 L23]. split; [congruence|].
    intros i w3 Hi Hl. destruct (L23 i w3 Hi Hl) as (w2 & Hi2 & Hl2). eauto.
Qed.

Lemma calmer_one_session s s' : calmer s s' -> one_session s -> one_session s'.
Proof.
  intros [Hh Hl] Hinv i w' Hi Hw.
  destruct (Hl i w' Hi Hw) as (w & Hi0 & Hw0).
  rewrite Hh. eauto.
Qed.

Lemma live_close_socket w : live (close_socket w) = false.
Proof. unfold close_socket. destruct (live w) eqn:H; [reflexivity | exact H]. Qed.

Lemma alter_close_live (l : list socket) (i k : nat) w :
  alter close_socket i l !! k = Some w -> live w = true -> l !! k = Some w.
Proof.
  intros Hk Hl. destruct (decide (i = k)) as [->|Hne].
  - rewrite list_lookup_alter_eq in Hk.
    destruct (l !! k) as [w0|]; [|discriminate].
    cbn in Hk. injection Hk as <-. now rewrite live_close_socket in Hl.
  - now rewrite list_lookup_alter_ne in Hk.
Qed.

Lemma alter_set_closed_live (l : list socket) (i k : nat) w :
  alter (set_readyState CLOSED) i l !! k = Some w -> live w = true -> l !! k = Some w.
Proof.
  intros Hk Hl. destruct (decide (i = k)) as [->|Hne].
  - rewrite list_lookup_alter_eq in Hk.
    destruct (l !! k) as [w0|]; [|discriminate].
    cbn in Hk. now injection Hk as <-.
  - now rewrite list_lookup_alter_ne in Hk.
Qed.

Lemma length_closed_held s :
  length (sockets (closed_held s)) = length (sockets (world s)).
Proof.
  unfold closed_held. destruct (held (adapter s)); [|reflexivity].
  cbn. apply length_alter.
Qed.

(** Under the invariant, closing the held socket leaves no live socket. *)
Lemma closed_held_none_live s :
  one_session s ->
  forall k w, sockets (closed_held s) !! k = Some w -> live w = false.
Proof.
  intros Hinv k w Hk. destruct (live w) eqn:Hl; [|reflexivity]. exfalso.
  unfold closed_held in Hk. destruct (held (adapter s)) as [i|] eqn:Hh.
  - cbn in Hk. destruct (decide (i = k)) as [->|Hne].
    + rewrite list_lookup_alter_eq in Hk.
      destruct (sockets (world s) !! k) as [w0|]; [|discriminate].
      cbn in Hk. injection Hk as <-. now rewrite live_close_socket in Hl.
    + rewrite list_lookup_alter_ne in Hk by exact Hne.
      pose proof (Hinv k w Hk Hl) as H. congruence.
  - pose proof (Hinv k w Hk Hl) as H. congruence.
Qed.

(** A connect that succeeds: the held socket is closed, a new one is
    appended and held. *)
Lemma one_session_connected s a' e w0 :
  one_session s ->
  held a' = Some (length (sockets (world s))) ->
  one_session (Sys a' (emit e (set_sockets (sockets (closed_held s) ++ [w0]) (closed_held s)))).
Proof.
  intros Hinv Hh k w Hk Hl. cbn in *.
  destruct (decide (k < length (sockets (closed_held s)))%nat) as [Hlt|Hge].
  - rewrite lookup_app_l in Hk by exact Hlt.
    now rewrite (closed_held_none_live s Hinv k w Hk) in Hl.
  - apply lookup_lt_Some in Hk as Hb. rewrite length_app in Hb. cbn in Hb.
    rewrite Hh, <- length_closed_held. f_equal. lia.
Qed.

(** A connect that gives up after the close, and a disconnect. *)
Lemma one_session_closed s a' :
  one_session s -> one_session (Sys a' (closed_held s)).
Proof.
  intros Hinv k w Hk Hl. cbn in *.
  now rewrite (closed_held_none_live s Hinv k w Hk) in Hl.
Qed.

Lemma calmer_set_closed i s : calmer s (set_ready i CLOSED s).
Proof.
  split; [reflexivity|]. cbn. intros k w Hk Hl.
  exists w. split; [|exact Hl]. now apply (alter_set_closed_live _ i).
Qed.

Lemma calmer_set_open i w s :
  sockets (world s) !! i = Some w -> ws_readyState w = CONNECTING ->
  calmer s (set_ready i OPEN s).
Proof.
  intros Hi Hc. split; [reflexivity|]. cbn. intros k w' Hk Hl.
  destruct (decide (i = k)) as [->|Hne].
  - exists w. split; [exact Hi|]. unfold live. now rewrite Hc.
  - rewrite list_lookup_alter_ne in Hk by exact Hne. eauto.
Qed.

Lemma calmer_fetch rq : keeps calmer (fetch rq).
Proof.
  intros [a w]. unfold fetch. cbn.
  destruct (network w) as [|[r|] rest]; split; cbn; eauto.
Qed.

Lemma calmer_drop_timer k s : calmer s (drop_timer k s).
Proof. split; [reflexivity|]. cbn. eauto. Qed.

(** The invariant along the event loop, for handlers that keep [calmer]
    and a timer function that keeps the invariant. *)
Lemma one_session_fire (h : handlers A) e s s' :
  (forall symbols, keeps calmer (onopen h symbols)) ->
  (forall f, keeps calmer (onmessage h f)) ->
  keeps calmer (onerror h) ->
  (forall symbols, keeps calmer (onclose h symbols)) ->
  (forall symbols s, one_session s -> one_session (handled (ontimeout h symbols) s)) ->
  one_session s -> fire h e s = Some s' -> one_session s'.
Proof.
  intros Hopen Hmsg Herr Hclose Htimer Hinv Hf.
  destruct e as [i|i f|i|i|k|t]; cbn in Hf.
  - destruct (sockets (world s) !! i) as [w|] eqn:Hi; [|discriminate].
    destruct (ws_readyState w) eqn:Hr; try discriminate. injection Hf as <-.
    eapply calmer_one_session; [|exact Hinv].
    etransitivity; [exact (calmer_set_open i w s Hi Hr) | apply Hopen].
  - destruct (sockets (world s) !! i) as [w|]; [|discriminate].
    destruct (ws_readyState w); try discriminate. injection Hf as <-.
    eapply calmer_one_session; [apply Hmsg | exact Hinv].
  - destruct (sockets (world s) !! i) as [w|]; [|discriminate].
    destruct (ws_readyState w); try discriminate; injection Hf as <-;
      (eapply calmer_one_session; [apply Herr | exact Hinv]).
  - destruct (sockets (world s) !! i) as [w|]; [|discriminate].
    assert (Hs' : s' = handled (onclose h (ws_symbols w)) (set_ready i CLOSED s))
      by (destruct (ws_readyState w); now inversion Hf).
    subst s'. eapply calmer_one_session; [|exact Hinv].
    etransitivity; [apply calmer_set_closed | apply Hclose].
  - destruct (timers (world s) !! k) as [[d symbols]|]; [|discriminate].
    injection Hf as <-. apply Htimer.
    eapply calmer_one_session; [apply calmer_drop_timer | exact Hinv].
  - destruct (now (world s) <=? t); [|discriminate]. injection Hf as <-.
    exact Hinv.
Qed.

Lemma one_session_run {C} (invoke : C -> M A unit) (h : handlers A) :
  (forall c s, one_session s -> one_session (handled (invoke c) s)) ->
  (forall e s s', one_session s -> fire h e s = Some s' -> one_session s') ->
  forall acts s s', one_session s -> run invoke h acts s = Some s' -> one_session s'.
Proof.
  intros Hcall Hfire acts. induction acts as [|a acts IH]; intros s s' Hinv Hrun.
  - cbn in Hrun. now injection Hrun as <-.
  - cbn in Hrun. destruct a as [c|e]; cbn in Hrun.
    + eapply IH; [|exact Hrun]. now apply Hcall.
    + destruct (fire h e s) as [s1|] eqn:Hf; [|discriminate].
      eapply IH; [|exact Hrun]. eapply Hfire; eassumption.
Qed.
End Held.

(** An update that holds on to the socket and revives none. *)
Ltac calm :=
  let a := fresh "a" in
  let w := fresh "w" in
  let k := fresh "k" in
  let w' := fresh "w'" in
  let Hk := fresh "Hk" in
  let Hl := fresh "Hl" in
  first
    [ apply calmer_fetch
    | intros [a w]; split; [reflexivity|]; cbn; intros k w' Hk Hl;
      first [ now eauto | apply alter_close_live in Hk; now eauto ] ].

(** *** TradingAPI *)

Section Trading.
Import TradingAPI.

Definition brokers : list string := ["alpaca"; "polygon"; "finnhub"].

Lemma trading_connect_supported s c symbols :
  config (adapter s) = Some c -> In (name c) brokers ->
  exists url,
    connectMarketData symbols s =
      (Ok tt,
       Sys (set_websocket (Some (length (sockets (world s)))) (adapter s))
         (emit (EWsNew (length (sockets (world s))) url)
            (set_sockets
               (sockets (closed_held websocket s) ++ [Socket url CONNECTING symbols])
               (closed_held websocket s)))).
Proof.
  intros Hc Hn. destruct s as [[cfg ws mcb ocb n] w]. cbn in Hc. subst cfg.
  destruct c as [nm key sec base sb acc]. cbn in Hn.
  destruct Hn as [Hn|[Hn|[Hn|[]]]]; subst nm; destruct ws; eexists; cbn;
    rewrite ?length_alter; reflexivity.
Qed.

Lemma trading_connect_unsupported s c symbols :
  config (adapter s) = Some c -> ~ In (name c) brokers ->
  connectMarketData symbols s =
    (Throw (Error ("Unsupported broker: " +:+ name c)),
     Sys (adapter s)
       (emit (EConsole "Failed to connect to market data:") (closed_held websocket s))).
Proof.
  intros Hc Hn. destruct s as [[cfg ws mcb ocb n] w]. cbn in Hc. subst cfg.
  assert (Ha : String.eqb (name c) "alpaca" = false)
    by (apply String.eqb_neq; intros E; apply Hn; rewrite E; cbn; auto).
  assert (Hp : String.eqb (name c) "polygon" = false)
    by (apply String.eqb_neq; intros E; apply Hn; rewrite E; cbn; auto).
  assert (Hf : String.eqb (name c) "finnhub" = false)
    by (apply String.eqb_neq; intros E; apply Hn; rewrite E; cbn; auto).
  unfold connectMarketData, getWebSocketUrl, closed_held.
  unfold try_catch, bind, gets, ws_close, console, on_world, throw.
  destruct ws; cbn; rewrite Ha, Hp, Hf; reflexivity.
Qed.

Lemma trading_connect_one_session symbols s :
  one_session websocket s -> one_session websocket (handled (connectMarketData symbols) s).
Proof.
  intros Hinv. unfold handled.
  destruct (config (adapter s)) as [c|] eqn:Hc.
  - destruct (in_dec string_dec (name c) brokers) as [Hin|Hout].
    + destruct (trading_connect_supported s c symbols Hc Hin) as [url ->]. cbn.
      now apply one_session_connected.
    + rewrite (trading_connect_unsupported s c symbols Hc Hout). cbn.
      now apply (one_session_closed websocket s).
  - now rewrite Unconfigured.trading_connectMarketData.
Qed.

Lemma trading_disconnect s :
  disconnect s =
    (Ok tt,
     Sys {| config := config (adapter s); websocket := None;
            marketDataCallbacks := []; orderUpdateCallbacks := [];
            reconnectAttempts := reconnectAttempts (adapter s) |}
         (closed_held websocket s)).
Proof. destruct s as [[cfg ws mcb ocb n] w]. now destruct ws. Qed.

Lemma trading_configure c : keeps (calmer websocket) (configure c).
Proof. keeps_with calm. Qed.

Lemma trading_onMarketData cb : keeps (calmer websocket) (onMarketData cb).
Proof. keeps_with calm. Qed.

Lemma trading_onOrderUpdate cb : keeps (calmer websocket) (onOrderUpdate cb).
Proof. keeps_with calm. Qed.

Lemma trading_makeApiRequest method endpoint body :
  keeps (calmer websocket) (makeApiRequest method endpoint body).
Proof. keeps_with calm. Qed.

Lemma trading_rest (c : call) :
  match c with
  | PlaceOrder _ | CancelOrder _ | GetAccount | GetPositions | GetOrders _ | IsConnected => True
  | _ => False
  end ->
  keeps (calmer websocket) (invoke c).
Proof.
  destruct c; intros []; unfold invoke;
    [unfold placeOrder | unfold cancelOrder | unfold getAccount
    | unfold getPositions | unfold getOrders | unfold isConnected ];
    repeat lazymatch goal with
      | |- keeps ?R (bind (makeApiRequest _ _ _) _) =>
          apply (keeps_bind R); [apply trading_makeApiRequest | intros ?]
      | |- keeps ?R (bind _ _) => apply (keeps_bind R); [ | intros ? ]
      | |- keeps ?R (try_catch _ _) => apply (keeps_try_catch R); [ | intros ? ]
      | |- keeps _ (match ?x with _ => _ end) => destruct x
      | |- _ => progress keeps_with calm
      end.
Qed.

Lemma trading_onopen_calm symbols : keeps (calmer websocket) (websocket_onopen symbols).
Proof. keeps_with calm. Qed.

Lemma trading_onmessage_calm f : keeps (calmer websocket) (websocket_onmessage f).
Proof. keeps_with calm. Qed.

Lemma trading_onerror_calm : keeps (calmer websocket) websocket_onerror.
Proof. keeps_with calm. Qed.

Lemma trading_onclose_calm symbols : keeps (calmer websocket) (websocket_onclose symbols).
Proof. keeps_with calm. Qed.

Lemma trading_invoke_one_session c s :
  one_session websocket s -> one_session websocket (handled (invoke c) s).
Proof.
  intros Hinv. destruct c;
    try (eapply calmer_one_session; [|exact Hinv]; apply trading_rest; exact I).
  - eapply calmer_one_session; [apply trading_configure | exact Hinv].
  - now apply trading_connect_one_session.
  - eapply calmer_one_session; [apply trading_onMarketData | exact Hinv].
  - eapply calmer_one_session; [apply trading_onOrderUpdate | exact Hinv].
  - unfold handled, invoke. rewrite trading_disconnect. cbn.
    now apply (one_session_closed websocket s).
Qed.

Lemma trading_fire_one_session e s s' :
  one_session websocket s -> fire socket_handlers e s = Some s' ->
  one_session websocket s'.
Proof.
  apply one_session_fire.
  - apply trading_onopen_calm.
  - apply trading_onmessage_calm.
  - apply trading_onerror_calm.
  - apply trading_onclose_calm.
  - intros symbols s0. apply trading_connect_one_session.
Qed.

Lemma trading_one_session acts s s' :
  one_session websocket s -> exec acts s = Some s' -> one_session websocket s'.
Proof.
  apply one_session_run.
  - apply trading_invoke_one_session.
  - apply trading_fire_one_session.
Qed.
End Trading.

(** *** CryptoAPI *)

Section Crypto.
Import CryptoAPI.

Definition exchanges : list string :=
  ["bybit"; "kucoin"; "kraken"; "crypto_com"; "coinex"; "bitget"].

Lemma crypto_connect_supported s c symbols :
  config (adapter s) = Some c -> In (name c) exchanges ->
  exists url,
    connectMarketData symbols s =
      (Ok tt,
       Sys (set_websocket (Some (length (sockets (world s)))) (adapter s))
         (emit (EWsNew (length (sockets (world s))) url)
            (set_sockets
               (sockets (closed_held websocket s) ++ [Socket url CONNECTING symbols])
               (closed_held websocket s)))).
Proof.
  intros Hc Hn. destruct s as [[cfg ws mcb ocb n] w]. cbn in Hc. subst cfg.
  destruct c as [nm key sec pass base tn lev]. cbn in Hn.
  destruct Hn as [Hn|[Hn|[Hn|[Hn|[Hn|[Hn|[]]]]]]]; subst nm; destruct ws; eexists; cbn;
    rewrite ?length_alter; reflexivity.
Qed.

Lemma crypto_connect_unsupported s c symbols :
  config (adapter s) = Some c -> ~ In (name c) exchanges ->
  connectMarketData symbols s =
    (Throw (Error ("Unsupported exchange: " +:+ name c)),
     Sys (adapter s)
       (emit (EConsole "Failed to connect to market data:") (closed_held websocket s))).
Proof.
  intros Hc Hn. destruct s as [[cfg ws mcb ocb n] w]. cbn in Hc. subst cfg.
  assert (H1 : String.eqb (name c) "bybit" = false)
    by (apply String.eqb_neq; intros E; apply Hn; rewrite E; cbn; auto).
  assert (H2 : String.eqb (name c) "kucoin" = false)
    by (apply String.eqb_neq; intros E; apply Hn; rewrite E; cbn; auto).
  assert (H3 : String.eqb (name c) "kraken" = false)
    by (apply String.eqb_neq; intros E; apply Hn; rewrite E; cbn; auto).
  assert (H4 : String.eqb (name c) "crypto_com" = false)
    by (apply String.eqb_neq; intros E; apply Hn; rewrite E; cbn; auto 6).
  assert (H5 : String.eqb (name c) "coinex" = false)
    by (apply String.eqb_neq; intros E; apply Hn; rewrite E; cbn; auto 7).
  assert (H6 : String.eqb (name c) "bitget" = false)
    by (apply String.eqb_neq; intros E; apply Hn; rewrite E; cbn; auto 8).
  unfold connectMarketData, getWebSocketUrl, closed_held.
  unfold try_catch, bind, gets, ws_close, console, on_world, throw.
  destruct ws; cbn; rewrite H1, H2, H3, H4, H5, H6; reflexivity.
Qed.

Lemma crypto_connect_one_session symbols s :
  one_session websocket s -> one_session websocket (handled (connectMarketData symbols) s).
Proof.
  intros Hinv. unfold handled.
  destruct (config (adapter s)) as [c|] eqn:Hc.
  - destruct (in_dec string_dec (name c) exchanges) as [Hin|Hout].
    + destruct (crypto_connect_supported s c symbols Hc Hin) as [url ->]. cbn.
      now apply one_session_connected.
    + rewrite (crypto_connect_unsupported s c symbols Hc Hout). cbn.
      now apply (one_session_closed websocket s).
  - now rewrite Unconfigured.crypto_connectMarketData.
Qed.

Lemma crypto_disconnect s :
  disconnect s =
    (Ok tt,
     Sys {| config := config (adapter s); websocket := None;
            marketDataCallbacks := []; orderUpdateCallbacks := [];
            reconnectAttempts := reconnectAttempts (adapter s) |}
         (closed_held websocket s)).
Proof. destruct s as [[cfg ws mcb ocb n] w]. now destruct ws. Qed.

Lemma crypto_configure c : keeps (calmer websocket) (configure c).
Proof. keeps_with calm. Qed.

Lemma crypto_onMarketData cb : keeps (calmer websocket) (onMarketData cb).
Proof. keeps_with calm. Qed.

Lemma crypto_onOrderUpdate cb : keeps (calmer websocket) (onOrderUpdate cb).
Proof. keeps_with calm. Qed.

Lemma crypto_makeApiRequest method endpoint body :
  keeps (calmer websocket) (makeApiRequest method endpoint body).
Proof. keeps_with calm. Qed.

Lemma crypto_rest (c : call) :
  match c with
  | PlaceOrder _ | GetAccount | GetPositions | IsConnected => True
  | _ => False
  end ->
  keeps (calmer websocket) (invoke c).
Proof.
  destruct c; intros []; unfold invoke;
    [unfold placeOrder | unfold getAccount | unfold getPositions | unfold isConnected ];
    repeat lazymatch goal with
      | |- keeps ?R (bind (makeApiRequest _ _ _) _) =>
          apply (keeps_bind R); [apply crypto_makeApiRequest | intros ?]
      | |- keeps ?R (bind _ _) => apply (keeps_bind R); [ | intros ? ]
      | |- keeps ?R (try_catch _ _) => apply (keeps_try_catch R); [ | intros ? ]
      | |- keeps _ (match ?x with _ => _ end) => destruct x
      | |- _ => progress keeps_with calm
      end.
Qed.

Lemma crypto_onopen_calm symbols : keeps (calmer websocket) (websocket_onopen symbols).
Proof. keeps_with calm. Qed.

Lemma crypto_onmessage_calm f : keeps (calmer websocket) (websocket_onmessage f).
Proof. keeps_with calm. Qed.

Lemma crypto_onerror_calm : keeps (calmer websocket) websocket_onerror.
Proof. keeps_with calm. Qed.

Lemma crypto_onclose_calm symbols : keeps (calmer websocket) (websocket_onclose symbols).
Proof. keeps_with calm. Qed.

Lemma crypto_invoke_one_session c s :
  one_session websocket s -> one_session websocket (handled (invoke c) s).
Proof.
  intros Hinv. destruct c;
    try (eapply calmer_one_session; [|exact Hinv]; apply crypto_rest; exact I).
  - eapply calmer_one_session; [apply crypto_configure | exact Hinv].
  - now apply crypto_connect_one_session.
  - eapply calmer_one_session; [apply crypto_onMarketData | exact Hinv].
  - eapply calmer_one_session; [apply crypto_onOrderUpdate | exact Hinv].
  - unfold handled, invoke. rewrite crypto_disconnect. cbn.
    now apply (one_session_closed websocket s).
Qed.

Lemma crypto_fire_one_session e s s' :
  one_session websocket s -> fire socket_handlers e s = Some s' ->
  one_session websocket s'.
Proof.
  apply one_session_fire.
  - apply crypto_onopen_calm.
  - apply crypto_onmessage_calm.
  - apply crypto_onerror_calm.
  - apply crypto_onclose_calm.
  - intros symbols s0. apply crypto_connect_one_session.
Qed.

Lemma crypto_one_session acts s s' :
  one_session websocket s -> exec acts s = Some s' -> one_session websocket s'.
Proof.
  apply one_session_run.
  - apply crypto_invoke_one_session.
  - apply crypto_fire_one_session.
Qed.
End Crypto.

(** *** RithmicAPI *)

Section Rithmic.
Import RithmicAPI.

Lemma rithmic_connect_configured s c :
  config (adapter s) = Some c ->
  exists url,
    connect s =
      (Ok tt,
       Sys (set_websocket (Some (length (sockets (world s)))) (adapter s))
         (emit (EWsNew (length (sockets (world s))) url)
            (set_sockets
               (sockets (closed_held websocket s) ++ [Socket url CONNECTING []])
               (closed_held websocket s)))).
Proof.
  intros Hc. destruct s as [[cfg ws acb mcb ocb co n] w]. cbn in Hc. subst cfg.
  destruct ws; eexists; cbn; rewrite ?length_alter; reflexivity.
Qed.

Lemma rithmic_connect_unconfigured s :
  config (adapter s) = None ->
  connect s = (Throw (Error "Rithmic API not configured"), s).
Proof. intros Hc. unfold connect, bind, gets. now rewrite Hc. Qed.

Lemma rithmic_connect_one_session s :
  one_session websocket s -> one_session websocket (handled connect s).
Proof.
  intros Hinv. unfold handled.
  destruct (config (adapter s)) as [c|] eqn:Hc.
  - destruct (rithmic_connect_configured s c Hc) as [url ->]. cbn.
    now apply one_session_connected.
  - now rewrite rithmic_connect_unconfigured.
Qed.

Lemma rithmic_disconnect s :
  disconnect s =
    (Ok tt,
     Sys {| config := config (adapter s); websocket := None;
            accountUpdateCallbacks := []; marketDataCallbacks := [];
            orderUpdateCallbacks := []; connected := false;
            reconnectAttempts := reconnectAttempts (adapter s) |}
         (closed_held websocket s)).
Proof. destruct s as [[cfg ws acb mcb ocb co n] w]. now destruct ws. Qed.

Lemma rithmic_invoke_calm (c : call) :
  match c with
  | Connect | Disconnect => False
  | _ => True
  end ->
  keeps (calmer websocket) (invoke c).
Proof. destruct c; intros []; keeps_with calm. Qed.

Lemma rithmic_onopen_calm : keeps (calmer websocket) websocket_onopen.
Proof. keeps_with calm. Qed.

Lemma rithmic_onmessage_calm f : keeps (calmer websocket) (websocket_onmessage f).
Proof. keeps_with calm. Qed.

Lemma rithmic_onerror_calm : keeps (calmer websocket) websocket_onerror.
Proof. keeps_with calm. Qed.

Lemma rithmic_onclose_calm : keeps (calmer websocket) websocket_onclose.
Proof. keeps_with calm. Qed.

Lemma rithmic_invoke_one_session c s :
  one_session websocket s -> one_session websocket (handled (invoke c) s).
Proof.
  intros Hinv. destruct c;
    try (eapply calmer_one_session; [|exact Hinv]; apply rithmic_invoke_calm; exact I).
  - now apply rithmic_connect_one_session.
  - unfold handled, invoke. rewrite rithmic_disconnect. cbn.
    now apply (one_session_closed websocket s).
Qed.

Lemma rithmic_fire_one_session e s s' :
  one_session websocket s -> fire socket_handlers e s = Some s' ->
  one_session websocket s'.
Proof.
  apply one_session_fire; cbn.
  - intros _. apply rithmic_onopen_calm.
  - apply rithmic_onmessage_calm.
  - apply rithmic_onerror_calm.
  - intros _. apply rithmic_onclose_calm.
  - intros _ s0. apply rithmic_connect_one_session.
Qed.

Lemma rithmic_one_session acts s s' :
  one_session websocket s -> exec acts s = Some s' -> one_session websocket s'.
Proof.
  apply one_session_run.
  - apply rithmic_invoke_one_session.
  - apply rithmic_fire_one_session.
Qed.
End Rithmic.

End Sessions.

(** ** Reconnection with exponential backoff *)

Module Backoff.

Definition backoff_delays : list Z := [2000; 4000; 8000; 16000; 32000].

Definition is_close (e : event) : bool :=
  match e with
  | EvClose _ => true
  | _ => false
  end.

(** The number of close events in a run. *)
Fixpoint closes (evs : list event) : nat :=
  match evs with
  | [] => 0
  | e :: rest => if is_close e then S (closes rest) else closes rest
  end.

(** The backoff law of an adapter with handlers [h] and attempt counter
    [attempts], for runs of events none of which is a successful reopen
    ([reopens]), from states where [ok] holds:
    - from a counter at zero, the delays armed along the run are the
      first [closes evs] of 2000, 4000, 8000, 16000, 32000, one per close
      event, and none from the sixth close on;
    - the counter ends at the number of closes, capped at five. *)
Definition backoff_law {A} (h : handlers A) (attempts : sys A -> Z)
    (ok : sys A -> Prop) (reopens : event -> bool) : Prop :=
  forall evs s s',
    ok s ->
    forallb (fun e => negb (reopens e)) evs = true ->
    attempts s = 0 ->
    deliver h evs s = Some s' ->
    delays s' = delays s ++ take (closes evs) backoff_delays /\
    attempts s' = Z.of_nat (min (closes evs) 5).

(** In an idle state only the clock moves: no socket event and no timer
    can fire, so nothing reconnects until the UI calls the adapter. *)
Definition idle_is_quiescent {A} (h : handlers A) : Prop :=
  forall e (s s' : sys A),
    idle s -> fire h e s = Some s' ->
    (exists t, e = EvClock t) /\ adapter s' = adapter s /\
    effects (world s') = effects (world s) /\ idle s'.

Lemma idle_quiescent {A} (h : handlers A) : idle_is_quiescent h.
Proof.
  intros e s s' [Ht Hs] Hf. destruct e as [i|i f|i|i|k|t]; cbn in Hf.
  - destruct (sockets (world s) !! i) as [w|] eqn:Hi; [|discriminate].
    now rewrite (Hs i w Hi) in Hf.
  - destruct (sockets (world s) !! i) as [w|] eqn:Hi; [|discriminate].
    now rewrite (Hs i w Hi) in Hf.
  - destruct (sockets (world s) !! i) as [w|] eqn:Hi; [|discriminate].
    now rewrite (Hs i w Hi) in Hf.
  - destruct (sockets (world s) !! i) as [w|] eqn:Hi; [|discriminate].
    now rewrite (Hs i w Hi) in Hf.
  - now rewrite Ht in Hf.
  - destruct (now (world s) <=? t); [|discriminate].
    injection Hf as <-. cbn. repeat split; eauto.
Qed.

Section Law.
Context {A : Type} (h : handlers A) (attempts : sys A -> Z).
Context (ok : sys A -> Prop) (reopens : event -> bool).

(** What one event does to the counter and to the armed delays. *)
Hypothesis ok_fire : forall e s s',
  ok s -> reopens e = false -> fire h e s = Some s' -> ok s'.
Hypothesis fire_other : forall e s s',
  ok s -> reopens e = false -> is_close e = false -> fire h e s = Some s' ->
  attempts s' = attempts s /\ delays s' = delays s.
Hypothesis fire_close : forall e s s',
  ok s -> reopens e = false -> is_close e = true -> fire h e s = Some s' ->
  if attempts s <? 5
  then attempts s' = attempts s + 1 /\
       delays s' = delays s ++ [2 ^ (attempts s + 1) * 1000]
  else attempts s' = attempts s /\ delays s' = delays s.

Lemma next_delay (k : nat) :
  (k < 5)%nat ->
  drop k backoff_delays = 2 ^ (Z.of_nat k + 1) * 1000 :: drop (S k) backoff_delays.
Proof.
  intros Hk. do 5 (destruct k as [|k]; [reflexivity|]). lia.
Qed.

Lemma law_from (evs : list event) : forall (k : nat) s s',
  ok s ->
  forallb (fun e => negb (reopens e)) evs = true ->
  (k <= 5)%nat ->
  attempts s = Z.of_nat k ->
  deliver h evs s = Some s' ->
  delays s' = delays s ++ take (closes evs) (drop k backoff_delays) /\
  attempts s' = Z.of_nat (min (k + closes evs) 5).
Proof.
  induction evs as [|e evs IH]; intros k s s' Hok Hev Hk Hat Hrun.
  - cbn in Hrun. injection Hrun as <-. cbn.
    rewrite app_nil_r, Nat.add_0_r, Nat.min_l by lia. auto.
  - cbn in Hrun, Hev. apply andb_prop in Hev as [He Hev].
    apply negb_true_iff in He.
    destruct (fire h e s) as [s1|] eqn:Hf; [|discriminate].
    pose proof (ok_fire _ _ _ Hok He Hf) as Hok1.
    cbn [closes]. destruct (is_close e) eqn:Hc.
    + pose proof (fire_close _ _ _ Hok He Hc Hf) as Hstep.
      destruct (attempts s <? 5) eqn:Hlt.
      * apply Z.ltb_lt in Hlt. destruct Hstep as [Ha1 Hd1].
        assert (Hk' : (k < 5)%nat) by lia.
        destruct (IH (S k) s1 s' Hok1 Hev ltac:(lia) ltac:(lia) Hrun) as [Hd Ha].
        split.
        -- rewrite Hd, Hd1, Hat, (next_delay k Hk'). cbn [take].
           now rewrite <- app_assoc.
        -- rewrite Ha. f_equal. lia.
      * apply Z.ltb_ge in Hlt. destruct Hstep as [Ha1 Hd1].
        assert (k = 5%nat) as -> by lia.
        destruct (IH 5%nat s1 s' Hok1 Hev ltac:(lia) ltac:(lia) Hrun) as [Hd Ha].
        split.
        -- rewrite Hd, Hd1. cbn. now rewrite !take_nil.
        -- rewrite Ha. f_equal. lia.
    + destruct (fire_other _ _ _ Hok He Hc Hf) as [Ha1 Hd1].
      destruct (IH k s1 s' Hok1 Hev Hk ltac:(lia) Hrun) as [Hd Ha].
      now rewrite Hd, Hd1.
Qed.

Lemma law : backoff_law h attempts ok reopens.
Proof.
  intros evs s s' Hok Hev Hat Hrun.
  destruct (law_from evs 0%nat s s' Hok Hev ltac:(lia) Hat Hrun) as [Hd Ha].
  now rewrite Hd, Ha.
Qed.
End Law.

Definition is_open (e : event) : bool :=
  match e with
  | EvOpen _ => true
  | _ => false
  end.

(** *** TradingAPI *)

Section Trading.
Import TradingAPI.

Definition trading_obs (s : sys t) : Z * list Z :=
  (reconnectAttempts (adapter s), delays s).

Lemma trading_onmessage f : keeps (unchanged trading_obs) (websocket_onmessage f).
Proof. keeps_with untouched. Qed.

Lemma trading_onerror : keeps (unchanged trading_obs) websocket_onerror.
Proof. keeps_with untouched. Qed.

Lemma trading_connect symbols : keeps (unchanged trading_obs) (connectMarketData symbols).
Proof. keeps_with untouched. Qed.

Lemma trading_onclose symbols s :
  let s' := snd (websocket_onclose symbols s) in
  if reconnectAttempts (adapter s) <? 5
  then reconnectAttempts (adapter s') = reconnectAttempts (adapter s) + 1 /\
       delays s' = delays s ++ [2 ^ (reconnectAttempts (adapter s) + 1) * 1000]
  else reconnectAttempts (adapter s') = reconnectAttempts (adapter s) /\
       delays s' = delays s.
Proof.
  destruct s as [a w]. unfold websocket_onclose, handleReconnection, delays.
  unfold bind, console, gets, modify, on_world, set_timeout, maxReconnectAttempts. cbn.
  destruct (reconnectAttempts a <? 5); cbn;
    rewrite ?timeouts_snoc; cbn; rewrite ?app_nil_r; auto.
Qed.

Lemma trading_fire_other e s s' :
  is_open e = false -> is_close e = false ->
  fire socket_handlers e s = Some s' ->
  reconnectAttempts (adapter s') = reconnectAttempts (adapter s) /\ delays s' = delays s.
Proof.
  intros Ho Hc Hf.
  enough (H : unchanged trading_obs s s') by (now injection H).
  destruct e as [i|i f|i|i|k|t]; try discriminate; cbn in Hf.
  - destruct (sockets (world s) !! i) as [w|]; [|discriminate].
    destruct (ws_readyState w); try discriminate.
    injection Hf as <-. apply trading_onmessage.
  - destruct (sockets (world s) !! i) as [w|]; [|discriminate].
    destruct (ws_readyState w); try discriminate;
      injection Hf as <-; apply trading_onerror.
  - destruct (timers (world s) !! k) as [[d symbols]|]; [|discriminate].
    injection Hf as <-. unfold handled.
    etransitivity; [|apply trading_connect]. now destruct s.
  - destruct (now (world s) <=? t); [|discriminate].
    injection Hf as <-. now destruct s.
Qed.

Lemma trading_fire_close e s s' :
  is_close e = true ->
  fire socket_handlers e s = Some s' ->
  if reconnectAttempts (adapter s) <? 5
  then reconnectAttempts (adapter s') = reconnectAttempts (adapter s) + 1 /\
       delays s' = delays s ++ [2 ^ (reconnectAttempts (adapter s) + 1) * 1000]
  else reconnectAttempts (adapter s') = reconnectAttempts (adapter s) /\
       delays s' = delays s.
Proof.
  intros Hc Hf. destruct e as [i|i f|i|i|k|t]; try discriminate. cbn in Hf.
  destruct (sockets (world s) !! i) as [w|]; [|discriminate].
  assert (Hs' : s' = handled (websocket_onclose (ws_symbols w)) (set_ready i CLOSED s))
    by (destruct (ws_readyState w); now inversion Hf).
  subst s'. apply (trading_onclose (ws_symbols w) (set_ready i CLOSED s)).
Qed.

Lemma trading_law :
  backoff_law socket_handlers (fun s => reconnectAttempts (adapter s))
    (fun _ => True) is_open.
Proof.
  apply law.
  - auto.
  - intros e s s' _ Ho Hc Hf. now apply (trading_fire_other e).
  - intros e s s' _ _ Hc Hf. now apply (trading_fire_close e).
Qed.
End Trading.

(** *** CryptoAPI *)

Section Crypto.
Import CryptoAPI.

Definition crypto_obs (s : sys t) : Z * option CryptoExchangeConfig * list Z :=
  (reconnectAttempts (adapter s), config (adapter s), delays s).

(** The handlers of [CryptoAPI] read the exchange name for their log
    line, so they need the configuration a socket was created under. *)
Definition configured (s : sys t) : Prop := is_Some (config (adapter s)).

Lemma crypto_onmessage f : keeps (unchanged crypto_obs) (websocket_onmessage f).
Proof. keeps_with untouched. Qed.

Lemma crypto_onerror : keeps (unchanged crypto_obs) websocket_onerror.
Proof. keeps_with untouched. Qed.

Lemma crypto_connect symbols : keeps (unchanged crypto_obs) (connectMarketData symbols).
Proof. keeps_with untouched. Qed.

Lemma crypto_onclose symbols s :
  configured s ->
  let s' := snd (websocket_onclose symbols s) in
  config (adapter s') = config (adapter s) /\
  if reconnectAttempts (adapter s) <? 5
  then reconnectAttempts (adapter s') = reconnectAttempts (adapter s) + 1 /\
       delays s' = delays s ++ [2 ^ (reconnectAttempts (adapter s) + 1) * 1000]
  else reconnectAttempts (adapter s') = reconnectAttempts (adapter s) /\
       delays s' = delays s.
Proof.
  destruct s as [a w]. intros [c Hc]. cbn in Hc.
  unfold websocket_onclose, config_name, handleReconnection, delays.
  unfold bind, console, gets, modify, on_world, set_timeout, ret, maxReconnectAttempts.
  cbn. rewrite Hc. cbn.
  destruct (reconnectAttempts a <? 5); cbn;
    rewrite ?timeouts_snoc; cbn; rewrite ?app_nil_r; auto.
Qed.

Lemma crypto_fire_other e s s' :
  is_open e = false -> is_close e = false ->
  fire socket_handlers e s = Some s' ->
  unchanged crypto_obs s s'.
Proof.
  intros Ho Hc Hf.
  destruct e as [i|i f|i|i|k|t]; try discriminate; cbn in Hf.
  - destruct (sockets (world s) !! i) as [w|]; [|discriminate].
    destruct (ws_readyState w); try discriminate.
    injection Hf as <-. apply crypto_onmessage.
  - destruct (sockets (world s) !! i) as [w|]; [|discriminate].
    destruct (ws_readyState w); try discriminate;
      injection Hf as <-; apply crypto_onerror.
  - destruct (timers (world s) !! k) as [[d symbols]|]; [|discriminate].
    injection Hf as <-. unfold handled.
    etransitivity; [|apply crypto_connect]. now destruct s.
  - destruct (now (world s) <=? t); [|discriminate].
    injection Hf as <-. now destruct s.
Qed.

Lemma crypto_fire_close e s s' :
  configured s ->
  is_close e = true ->
  fire socket_handlers e s = Some s' ->
  config (adapter s') = config (adapter s) /\
  if reconnectAttempts (adapter s) <? 5
  then reconnectAttempts (adapter s') = reconnectAttempts (adapter s) + 1 /\
       delays s' = delays s ++ [2 ^ (reconnectAttempts (adapter s) + 1) * 1000]
  else reconnectAttempts (adapter s') = reconnectAttempts (adapter s) /\
       delays s' = delays s.
Proof.
  intros Hok Hc Hf. destruct e as [i|i f|i|i|k|t]; try discriminate. cbn in Hf.
  destruct (sockets (world s) !! i) as [w|]; [|discriminate].
  assert (Hs' : s' = handled (websocket_onclose (ws_symbols w)) (set_ready i CLOSED s))
    by (destruct (ws_readyState w); now inversion Hf).
  subst s'. apply (crypto_onclose (ws_symbols w) (set_ready i CLOSED s)).
  now destruct s.
Qed.

Lemma crypto_law :
  backoff_law socket_handlers (fun s => reconnectAttempts (adapter s))
    configured is_open.
Proof.
  apply law.
  - intros e s s' Hok Ho Hf. unfold configured in *.
    destruct (is_close e) eqn:Hc.
    + destruct (crypto_fire_close e s s' Hok Hc Hf) as [-> _]. exact Hok.
    + pose proof (crypto_fire_other e s s' Ho Hc Hf) as H.
      injection H as _ -> _. exact Hok.
  - intros e s s' _ Ho Hc Hf.
    pose proof (crypto_fire_other e s s' Ho Hc Hf) as H. now injection H.
  - intros e s s' Hok _ Hc Hf. now apply (crypto_fire_close e).
Qed.
End Crypto.

(** *** RithmicAPI *)

Section Rithmic.
Import RithmicAPI.

Definition rithmic_obs (s : sys t) : Z * list Z :=
  (reconnectAttempts (adapter s), delays s).

(** The test of [handleLoginResponse]:
    [message.rp_code && message.rp_code[0] === "0"]. *)
Definition login_ok (message : value) : res bool :=
  (rp_code <- get message "rp_code" ;;
   if truthy rp_code
   then (c0 <- index rp_code 0 ;; Ok (is_str c0 "0"))
   else Ok false)%res.

(** A frame that [handleMessage] takes for a login response and
    [handleLoginResponse] accepts: the only thing that resets the attempt
    counter of this adapter short of [configure]. *)
Definition accepted_login (f : frame) : bool :=
  match parseMessage f with
  | Ok message =>
      match get message "template_id" with
      | Ok template_id =>
          is_num template_id 11 &&
          match login_ok message with
          | Ok b => b
          | Throw _ => false
          end
      | Throw _ => false
      end
  | Throw _ => false
  end.

Definition is_login (e : event) : bool :=
  match e with
  | EvMessage _ f => accepted_login f
  | _ => false
  end.

Lemma rithmic_onmessage f :
  accepted_login f = false -> keeps (unchanged rithmic_obs) (websocket_onmessage f).
Proof.
  intros Hacc. unfold websocket_onmessage.
  apply (keeps_try_catch _); [|intros ?; keeps_with untouched].
  apply (keeps_bind_lift _). intros message Hm. unfold handleMessage.
  apply (keeps_bind_lift _). intros template_id Ht.
  unfold accepted_login in Hacc. rewrite Hm, Ht in Hacc.
  destruct (is_num template_id 11).
  - unfold handleLoginResponse.
    apply (keeps_bind_lift _). intros rp_code Hrp.
    apply (keeps_bind_lift _). intros b Hb.
    assert (login_ok message = Ok b) as Hl
      by (unfold login_ok; rewrite Hrp; exact Hb).
    rewrite Hl in Hacc. cbn in Hacc. subst b.
    keeps_with untouched.
  - keeps_with untouched.
Qed.

Lemma rithmic_onopen : keeps (unchanged rithmic_obs) websocket_onopen.
Proof. keeps_with untouched. Qed.

Lemma rithmic_onerror : keeps (unchanged rithmic_obs) websocket_onerror.
Proof. keeps_with untouched. Qed.

Lemma rithmic_connect : keeps (unchanged rithmic_obs) connect.
Proof. keeps_with untouched. Qed.

Lemma rithmic_onclose s :
  let s' := snd (websocket_onclose s) in
  if reconnectAttempts (adapter s) <? 5
  then reconnectAttempts (adapter s') = reconnectAttempts (adapter s) + 1 /\
       delays s' = delays s ++ [2 ^ (reconnectAttempts (adapter s) + 1) * 1000]
  else reconnectAttempts (adapter s') = reconnectAttempts (adapter s) /\
       delays s' = delays s.
Proof.
  destruct s as [a w]. unfold websocket_onclose, handleReconnection, delays.
  unfold bind, console, gets, modify, on_world, set_timeout, maxReconnectAttempts. cbn.
  destruct (reconnectAttempts a <? 5); cbn;
    rewrite ?timeouts_snoc; cbn; rewrite ?app_nil_r; auto.
Qed.

Lemma rithmic_fire_other e s s' :
  is_login e = false -> is_close e = false ->
  fire socket_handlers e s = Some s' ->
  unchanged rithmic_obs s s'.
Proof.
  intros Ho Hc Hf.
  destruct e as [i|i f|i|i|k|t]; try discriminate; cbn in Hf.
  - destruct (sockets (world s) !! i) as [w|]; [|discriminate].
    destruct (ws_readyState w); try discriminate.
    injection Hf as <-. unfold handled.
    etransitivity; [|apply rithmic_onopen]. now destruct s.
  - destruct (sockets (world s) !! i) as [w|]; [|discriminate].
    destruct (ws_readyState w); try discriminate.
    injection Hf as <-. now apply rithmic_onmessage.
  - destruct (sockets (world s) !! i) as [w|]; [|discriminate].
    destruct (ws_readyState w); try discriminate;
      injection Hf as <-; apply rithmic_onerror.
  - destruct (timers (world s) !! k) as [[d symbols]|]; [|discriminate].
    injection Hf as <-. unfold handled.
    etransitivity; [|apply rithmic_connect]. now destruct s.
  - destruct (now (world s) <=? t); [|discriminate].
    injection Hf as <-. now destruct s.
Qed.

Lemma rithmic_fire_close e s s' :
  is_close e = true ->
  fire socket_handlers e s = Some s' ->
  if reconnectAttempts (adapter s) <? 5
  then reconnectAttempts (adapter s') = reconnectAttempts (adapter s) + 1 /\
       delays s' = delays s ++ [2 ^ (reconnectAttempts (adapter s) + 1) * 1000]
  else reconnectAttempts (adapter s') = reconnectAttempts (adapter s) /\
       delays s' = delays s.
Proof.
  intros Hc Hf. destruct e as [i|i f|i|i|k|t]; try discriminate. cbn in Hf.
  destruct (sockets (world s) !! i) as [w|]; [|discriminate].
  assert (Hs' : s' = handled websocket_onclose (set_ready i CLOSED s))
    by (destruct (ws_readyState w); now inversion Hf).
  subst s'. apply (rithmic_onclose (set_ready i CLOSED s)).
Qed.

Lemma rithmic_law :
  backoff_law socket_handlers (fun s => reconnectAttempts (adapter s))
    (fun _ => True) is_login.
Proof.
  apply law.
  - auto.
  - intros e s s' _ Ho Hc Hf.
    pose proof (rithmic_fire_other e s s' Ho Hc Hf) as H. now injection H.
  - intros e s s' _ _ Hc Hf. now apply (rithmic_fire_close e).
Qed.
End Rithmic.

(** *** What resets the counter, and what makes that possible again *)

Lemma trading_open_resets i s s' :
  fire TradingAPI.socket_handlers (EvOpen i) s = Some s' ->
  TradingAPI.reconnectAttempts (adapter s') = 0.
Proof.
  cbn. intros Hf.
  destruct (sockets (world s) !! i) as [w|]; [|discriminate].
  destruct (ws_readyState w); try discriminate. injection Hf as <-.
  set (s0 := set_ready i OPEN s).
  pose (s1 := Sys (TradingAPI.set_reconnectAttempts 0 (adapter s0))
                  (emit (EConsole "Market data WebSocket connected") (world s0))).
  change (handled (TradingAPI.websocket_onopen (ws_symbols w)) s0)
    with (snd (TradingAPI.subscribeToSymbols (ws_symbols w) s1)).
  assert (K : keeps (unchanged trading_obs) (TradingAPI.subscribeToSymbols (ws_symbols w)))
    by keeps_with untouched.
  specialize (K s1). now injection K.
Qed.

Lemma crypto_open_resets i s s' :
  configured s ->
  fire CryptoAPI.socket_handlers (EvOpen i) s = Some s' ->
  CryptoAPI.reconnectAttempts (adapter s') = 0.
Proof.
  intros [c Hc]. cbn. intros Hf.
  destruct (sockets (world s) !! i) as [w|]; [|discriminate].
  destruct (ws_readyState w); try discriminate. injection Hf as <-.
  set (s0 := set_ready i OPEN s).
  pose (s1 := Sys (CryptoAPI.set_reconnectAttempts 0 (adapter s0))
                  (emit (EConsole (CryptoAPI.name c +:+ " WebSocket connected")) (world s0))).
  assert (E : handled (CryptoAPI.websocket_onopen (ws_symbols w)) s0 =
              snd (CryptoAPI.subscribeToSymbols (ws_symbols w) s1)).
  { unfold handled, CryptoAPI.websocket_onopen, CryptoAPI.config_name.
    unfold bind at 1. unfold bind at 1. unfold gets at 1.
    assert (Hc0 : CryptoAPI.config (adapter s0) = Some c) by (destruct s; exact Hc).
    rewrite Hc0. reflexivity. }
  rewrite E.
  assert (K : keeps (unchanged crypto_obs) (CryptoAPI.subscribeToSymbols (ws_symbols w)))
    by keeps_with untouched.
  specialize (K s1). now injection K.
Qed.

Lemma rithmic_login_resets i f s s' :
  accepted_login f = true ->
  fire RithmicAPI.socket_handlers (EvMessage i f) s = Some s' ->
  RithmicAPI.reconnectAttempts (adapter s') = 0.
Proof.
  intros Hacc. cbn. intros Hf.
  destruct (sockets (world s) !! i) as [w|]; [|discriminate].
  destruct (ws_readyState w); try discriminate. injection Hf as <-.
  unfold accepted_login in Hacc.
  destruct (RithmicAPI.parseMessage f) as [message|] eqn:Hm; [|discriminate].
  destruct (get message "template_id") as [template_id|] eqn:Ht; [|discriminate].
  apply andb_prop in Hacc as [H11 Hl].
  destruct (login_ok message) as [b|] eqn:Hb; [|discriminate]. subst b.
  unfold login_ok in Hb.
  destruct (get message "rp_code") as [rp_code|] eqn:Hrp; [|discriminate].
  cbn in Hb.
  pose (s1 := Sys (RithmicAPI.set_reconnectAttempts 0
                     (RithmicAPI.set_connected true (adapter s)))
                  (emit (EConsole "Rithmic login successful") (world s))).
  assert (K : keeps (unchanged rithmic_obs) RithmicAPI.requestAccountInfo)
    by keeps_with untouched.
  specialize (K s1).
  unfold handled, RithmicAPI.websocket_onmessage, try_catch.
  rewrite (bind_ok _ _ s message s) by (rewrite lift_run, Hm; reflexivity).
  unfold RithmicAPI.handleMessage.
  rewrite (bind_ok _ _ s template_id s) by (rewrite lift_run, Ht; reflexivity).
  rewrite H11. unfold RithmicAPI.handleLoginResponse.
  rewrite (bind_ok _ _ s rp_code s) by (rewrite lift_run, Hrp; reflexivity).
  rewrite (bind_ok _ _ s true s) by (rewrite lift_run, Hb; reflexivity).
  match goal with
  | |- context [bind (console ?m) ?k s] =>
      change (bind (console m) k s) with (RithmicAPI.requestAccountInfo s1)
  end.
  destruct (RithmicAPI.requestAccountInfo s1) as [[x|e] s2]; cbn in *;
    now injection K.
Qed.

(** An explicit connect call makes a reopen possible: afterwards the
    adapter holds a fresh socket [j] that is connecting, its open event
    can fire, and when it fires the counter is back at zero. *)
Definition restarts {A} (h : handlers A) (attempts : sys A -> Z)
    (held : A -> option nat) (connect : M A unit) (s : sys A) : Prop :=
  let s1 := handled connect s in
  let j := length (sockets (world s)) in
  held (adapter s1) = Some j /\
  (exists s2, fire h (EvOpen j) s1 = Some s2) /\
  (forall s2, fire h (EvOpen j) s1 = Some s2 -> attempts s2 = 0).

(** The same for [RithmicAPI], whose counter is reset by the login
    response that follows the open event. *)
Definition restarts_after_login (s : sys RithmicAPI.t) : Prop :=
  let s1 := handled RithmicAPI.connect s in
  let j := length (sockets (world s)) in
  RithmicAPI.websocket (adapter s1) = Some j /\
  (exists s2, fire RithmicAPI.socket_handlers (EvOpen j) s1 = Some s2) /\
  (forall s2 f,
     fire RithmicAPI.socket_handlers (EvOpen j) s1 = Some s2 ->
     accepted_login f = true ->
     (exists s3, fire RithmicAPI.socket_handlers (EvMessage j f) s2 = Some s3) /\
     (forall s3, fire RithmicAPI.socket_handlers (EvMessage j f) s2 = Some s3 ->
                 RithmicAPI.reconnectAttempts (adapter s3) = 0)).

Lemma lookup_fresh {A} (held : A -> option nat) (s : sys A) w0 :
  (sockets (Sessions.closed_held held s) ++ [w0]) !! length (sockets (world s)) = Some w0.
Proof. apply list_lookup_middle. now rewrite Sessions.length_closed_held. Qed.

Lemma trading_restarts s c symbols :
  TradingAPI.config (adapter s) = Some c -> In (TradingAPI.name c) Sessions.brokers ->
  restarts TradingAPI.socket_handlers (fun s => TradingAPI.reconnectAttempts (adapter s))
    TradingAPI.websocket (TradingAPI.connectMarketData symbols) s.
Proof.
  intros Hc Hn. unfold restarts, handled.
  destruct (Sessions.trading_connect_supported s c symbols Hc Hn) as [url ->].
  cbn [snd adapter]. split; [reflexivity|]. split.
  - cbn. rewrite lookup_fresh. cbn. eauto.
  - intros s2. apply trading_open_resets.
Qed.

Lemma crypto_restarts s c symbols :
  CryptoAPI.config (adapter s) = Some c -> In (CryptoAPI.name c) Sessions.exchanges ->
  restarts CryptoAPI.socket_handlers (fun s => CryptoAPI.reconnectAttempts (adapter s))
    CryptoAPI.websocket (CryptoAPI.connectMarketData symbols) s.
Proof.
  intros Hc Hn. unfold restarts, handled.
  destruct (Sessions.crypto_connect_supported s c symbols Hc Hn) as [url ->].
  cbn [snd adapter]. split; [reflexivity|]. split.
  - cbn. rewrite lookup_fresh. cbn. eauto.
  - intros s2. apply crypto_open_resets. exists c. exact Hc.
Qed.

Definition socket_table {A} (s : sys A) : list socket := sockets (world s).

Lemma rithmic_restarts s c :
  RithmicAPI.config (adapter s) = Some c -> restarts_after_login s.
Proof.
  intros Hc. unfold restarts_after_login, handled.
  destruct (Sessions.rithmic_connect_configured s c Hc) as [url ->].
  cbn [snd adapter]. split; [reflexivity|]. split.
  - cbn. rewrite lookup_fresh. cbn. eauto.
  - intros s2 f Hf Hacc. split; [|intros s3; now apply rithmic_login_resets].
    cbn in Hf. rewrite lookup_fresh in Hf. cbn in Hf. injection Hf as <-.
    assert (K : keeps (unchanged socket_table) RithmicAPI.websocket_onopen)
      by keeps_with untouched.
    match goal with
    | |- context [handled RithmicAPI.websocket_onopen ?s0] => specialize (K s0); set (s1 := s0) in *
    end.
    unfold unchanged, socket_table in K. cbn [fire].
    change (sockets (world (handled RithmicAPI.websocket_onopen s1)))
      with (sockets (world (RithmicAPI.websocket_onopen s1).2)).
    rewrite K. subst s1. cbn [set_ready world sockets set_sockets emit].
    rewrite list_lookup_alter_eq, lookup_fresh. cbn. eauto.
Qed.


(** A stream that is lost for good: the UI configures alpaca and
    connects; the socket and each of the five sockets opened by the
    reconnection timers close without ever opening. *)
Definition streaming : sys TradingAPI.t :=
  let s0 := TradingAPI.start empty_world in
  default s0
    (TradingAPI.exec
       [Api (TradingAPI.Configure Samples.alpaca_paper);
        Api (TradingAPI.ConnectMarketData ["SPY"; "QQQ"])] s0).

Definition six_failures : list event :=
  [EvClose 0; EvTimeout 0; EvClose 1; EvTimeout 0; EvClose 2; EvTimeout 0;
   EvClose 3; EvTimeout 0; EvClose 4; EvTimeout 0; EvClose 5].

Definition given_up : sys TradingAPI.t :=
  default streaming (deliver TradingAPI.socket_handlers six_failures streaming).


End Backoff.

(** ** Refused HTTP requests *)

Module Rest.

(** The error [makeApiRequest] throws on a response that is not 2xx:
    [`API request failed: ${response.status} ${errorText}`]. *)
Definition request_error (r : response) : exn :=
  Error ("API request failed: " +:+ pretty (rs_status r) +:+ " " +:+ rs_text r).

(** [m] issued one request [method url], got the refusal [r], and threw
    [request_error r] to its caller after one log line; the instance is
    as it was and the answers still to come are [rest]. *)
Definition surfaces {A X} (m : M A X) (method url : string)
    (r : response) (rest : list (option response)) (s : sys A) : Prop :=
  exists rq log,
    rq_method rq = method /\ rq_url rq = url /\
    m s = (Throw (request_error r),
           Sys (adapter s)
             (emit (EConsole log) (set_network rest (emit (EFetch rq) (world s))))).

Definition fetch_log {A} (s : sys A) : list request := fetches (effects (world s)).

(** [m] issues no request. *)
Definition offline {A X} (m : M A X) : Prop := keeps (unchanged fetch_log) m.

(** [m] issues at most one request, whatever the state, the answer and
    the way it ends. *)
Definition single_request {A X} (m : M A X) : Prop :=
  forall s, exists l,
    fetch_log (snd (m s)) = fetch_log s ++ l /\ (length l <= 1)%nat.

Ltac no_request :=
  let a := fresh "a" in
  let w := fresh "w" in
  intros [a w]; unfold unchanged, fetch_log; cbn;
  rewrite ?fetches_snoc; cbn; rewrite ?app_nil_r; reflexivity.

Section Single.
Context {A : Type}.

Lemma single_offline {X} (m : M A X) : offline m -> single_request m.
Proof.
  intros H s. exists []. rewrite app_nil_r. split; [apply H | cbn; lia].
Qed.

Lemma single_fetch rq : single_request (fetch (A := A) rq).
Proof.
  intros [a w]. exists [rq]. split; [|cbn; lia].
  unfold fetch, fetch_log. cbn.
  destruct (network w) as [|[r|] rest]; cbn; now rewrite fetches_snoc.
Qed.

Lemma single_bind_l {X Y} (m : M A X) (k : X -> M A Y) :
  offline m -> (forall x, single_request (k x)) -> single_request (bind m k).
Proof.
  intros Hm Hk s. unfold bind. specialize (Hm s). unfold unchanged in Hm.
  destruct (m s) as [[x|e] s1]; cbn in *.
  - destruct (Hk x s1) as (l & Hl & Hn). exists l. now rewrite Hl, Hm.
  - exists []. rewrite app_nil_r. split; [exact Hm | cbn; lia].
Qed.

Lemma single_bind_r {X Y} (m : M A X) (k : X -> M A Y) :
  single_request m -> (forall x, offline (k x)) -> single_request (bind m k).
Proof.
  intros Hm Hk s. unfold bind. destruct (Hm s) as (l & Hl & Hn).
  destruct (m s) as [[x|e] s1]; cbn in *.
  - exists l. split; [|exact Hn]. rewrite <- Hl. apply Hk.
  - exists l. auto.
Qed.

Lemma single_try {X} (m : M A X) (h : exn -> M A X) :
  single_request m -> (forall e, offline (h e)) -> single_request (try_catch m h).
Proof.
  intros Hm Hh s. unfold try_catch. destruct (Hm s) as (l & Hl & Hn).
  destruct (m s) as [[x|e] s1]; cbn in *.
  - exists l. auto.
  - exists l. split; [|exact Hn]. rewrite <- Hl. apply Hh.
Qed.

Lemma fetch_answered (s : sys A) rq r rest :
  network (world s) = Some r :: rest ->
  fetch rq s = (Ok r, Sys (adapter s) (set_network rest (emit (EFetch rq) (world s)))).
Proof. intros H. unfold fetch. cbn. now rewrite H. Qed.
End Single.

Ltac rest_single request_single :=
  apply single_bind_l; [unfold offline; keeps_with no_request|]; intros [?|];
    [|apply single_offline; unfold offline; keeps_with no_request];
  apply single_try; [|intros ?; unfold offline; keeps_with no_request];
  apply single_bind_r; [apply request_single|];
  intros ?; unfold offline; keeps_with no_request.

(** *** TradingAPI *)

Section Trading.
Import TradingAPI.

Lemma trading_headers_offline : offline getAuthHeaders.
Proof. unfold offline. keeps_with no_request. Qed.

Lemma trading_request_single method endpoint body :
  single_request (makeApiRequest method endpoint body).
Proof.
  unfold makeApiRequest.
  apply single_bind_l; [unfold offline; keeps_with no_request|]. intros [c|].
  - cbv zeta. apply single_bind_l; [apply trading_headers_offline|]. intros headers.
    apply single_bind_r; [apply single_fetch|]. intros response.
    unfold offline. keeps_with no_request.
  - apply single_offline. unfold offline. keeps_with no_request.
Qed.

Lemma trading_placeOrder_single order : single_request (placeOrder order).
Proof. unfold placeOrder. rest_single trading_request_single. Qed.

Lemma trading_cancelOrder_single orderId : single_request (cancelOrder orderId).
Proof. unfold cancelOrder. rest_single trading_request_single. Qed.

Lemma trading_getAccount_single : single_request getAccount.
Proof. unfold getAccount. rest_single trading_request_single. Qed.

Lemma trading_getPositions_single : single_request getPositions.
Proof. unfold getPositions. rest_single trading_request_single. Qed.

Lemma trading_getOrders_single status : single_request (getOrders status).
Proof. unfold getOrders. rest_single trading_request_single. Qed.

Lemma trading_request_refused s c method endpoint body r rest :
  config (adapter s) = Some c -> In (name c) Sessions.brokers ->
  network (world s) = Some r :: rest -> rs_ok r = false ->
  exists rq,
    rq_method rq = method /\ rq_url rq = baseUrl c +:+ endpoint /\
    makeApiRequest method endpoint body s =
      (Throw (request_error r),
       Sys (adapter s) (set_network rest (emit (EFetch rq) (world s)))).
Proof.
  intros Hc Hn Hnet Hok.
  assert (Hh : exists h, getAuthHeaders s = (Ok h, s)).
  { pose proof (AuthHeaders.broker_headers s c Hc) as H.
    unfold AuthHeaders.yields_keys, AuthHeaders.broker_header_keys in H.
    destruct Hn as [Hn|[Hn|[Hn|[]]]]; rewrite <- Hn in H; cbn in H;
      destruct H as (h & Hh & _); eauto. }
  destruct Hh as [h Hh]. eexists. split; [|split]; cycle 2.
  - unfold makeApiRequest.
    rewrite (bind_ok _ _ _ _ _ (gets_run config s)), Hc. cbv zeta.
    rewrite (bind_ok _ _ _ _ _ Hh).
    rewrite (bind_ok _ _ _ _ _ (fetch_answered s _ r rest Hnet)).
    rewrite Hok. reflexivity.
  - reflexivity.
  - reflexivity.
Qed.

Lemma trading_refusal_surfaces s c r rest :
  config (adapter s) = Some c -> In (name c) Sessions.brokers ->
  network (world s) = Some r :: rest -> rs_ok r = false ->
  (forall order, surfaces (placeOrder order) "POST" (baseUrl c +:+ "/orders") r rest s) /\
  (forall orderId,
     surfaces (cancelOrder orderId) "DELETE" (baseUrl c +:+ "/orders/" +:+ orderId) r rest s) /\
  surfaces getAccount "GET" (baseUrl c +:+ "/account") r rest s /\
  surfaces getPositions "GET" (baseUrl c +:+ "/positions") r rest s /\
  (forall status,
     surfaces (getOrders status) "GET" (baseUrl c +:+ orders_url status) r rest s).
Proof.
  intros Hc Hn Hnet Hok.
  repeat split; intros;
    match goal with
    | |- surfaces ?m ?method (baseUrl c +:+ ?endpoint) r rest s =>
        let h := head_of m in
        unfold surfaces, h;
        rewrite (bind_ok _ _ _ _ _ (gets_run config s)), Hc
    end;
    match goal with
    | |- context [makeApiRequest ?method ?endpoint ?body] =>
        destruct (trading_request_refused s c method endpoint body r rest Hc Hn Hnet Hok)
          as (rq & Hm & Hu & Hrun)
    end;
    exists rq; eexists; (split; [exact Hm|]); (split; [exact Hu|]);
    rewrite (try_throw _ _ _ _ _ (bind_throw _ _ _ _ _ Hrun)); reflexivity.
Qed.
End Trading.

(** *** CryptoAPI *)

Section Crypto.
Import CryptoAPI.

Lemma crypto_request_single method endpoint body :
  single_request (makeApiRequest method endpoint body).
Proof.
  unfold makeApiRequest.
  apply single_bind_l; [unfold offline; keeps_with no_request|]. intros [c|].
  - cbv zeta. apply single_bind_l; [unfold offline; keeps_with no_request|]. intros now.
    apply single_bind_l; [unfold offline; keeps_with no_request|]. intros headers.
    apply single_bind_r; [apply single_fetch|]. intros response.
    unfold offline. keeps_with no_request.
  - apply single_offline. unfold offline. keeps_with no_request.
Qed.

Lemma crypto_placeOrder_single order : single_request (placeOrder order).
Proof. unfold placeOrder. rest_single crypto_request_single. Qed.

Lemma crypto_getAccount_single : single_request getAccount.
Proof. unfold getAccount. rest_single crypto_request_single. Qed.

Lemma crypto_getPositions_single : single_request getPositions.
Proof. unfold getPositions. rest_single crypto_request_single. Qed.

Lemma crypto_request_refused s c method endpoint body r rest :
  config (adapter s) = Some c -> In (name c) Sessions.exchanges ->
  network (world s) = Some r :: rest -> rs_ok r = false ->
  exists rq,
    rq_method rq = method /\ rq_url rq = baseUrl c +:+ endpoint /\
    makeApiRequest method endpoint body s =
      (Throw (request_error r),
       Sys (adapter s) (set_network rest (emit (EFetch rq) (world s)))).
Proof.
  intros Hc Hn Hnet Hok.
  assert (Hh : exists h,
             getAuthHeaders method endpoint (pretty (now (world s))) body s = (Ok h, s)).
  { pose proof (AuthHeaders.exchange_headers s c method endpoint
                  (pretty (now (world s))) body Hc) as H.
    unfold AuthHeaders.yields_keys, AuthHeaders.exchange_header_keys in H.
    destruct Hn as [Hn|[Hn|[Hn|[Hn|[Hn|[Hn|[]]]]]]]; rewrite <- Hn in H; cbn in H;
      destruct H as (h & Hh & _); eauto. }
  destruct Hh as [h Hh]. eexists. split; [|split]; cycle 2.
  - unfold makeApiRequest.
    rewrite (bind_ok _ _ _ _ _ (gets_run config s)), Hc. cbv zeta.
    rewrite (bind_ok date_now _ s (now (world s)) s) by reflexivity.
    rewrite (bind_ok _ _ _ _ _ Hh).
    rewrite (bind_ok _ _ _ _ _ (fetch_answered s _ r rest Hnet)).
    rewrite Hok. reflexivity.
  - reflexivity.
  - reflexivity.
Qed.

Lemma crypto_refusal_surfaces s c r rest :
  config (adapter s) = Some c -> In (name c) Sessions.exchanges ->
  network (world s) = Some r :: rest -> rs_ok r = false ->
  (forall order, surfaces (placeOrder order) "POST" (baseUrl c +:+ "/order") r rest s) /\
  surfaces getAccount "GET" (baseUrl c +:+ "/account") r rest s /\
  surfaces getPositions "GET" (baseUrl c +:+ "/positions") r rest s.
Proof.
  intros Hc Hn Hnet Hok.
  repeat split; intros;
    match goal with
    | |- surfaces ?m ?method (baseUrl c +:+ ?endpoint) r rest s =>
        let h := head_of m in
        unfold surfaces, h;
        rewrite (bind_ok _ _ _ _ _ (gets_run config s)), Hc
    end;
    match goal with
    | |- context [makeApiRequest ?method ?endpoint ?body] =>
        destruct (crypto_request_refused s c method endpoint body r rest Hc Hn Hnet Hok)
          as (rq & Hm & Hu & Hrun)
    end;
    exists rq; eexists; (split; [exact Hm|]); (split; [exact Hu|]);
    rewrite (try_throw _ _ _ _ _ (bind_throw _ _ _ _ _ Hrun)); reflexivity.
Qed.
End Crypto.

(** C5.  When the venue answers a REST operation with a status outside
    200..299, the operation throws an error whose message holds the
    status code and the text of the response body; it is the error
    [makeApiRequest] threw, passed on by the operation after one log
    line; exactly one request was issued and the instance is unchanged.
    Whatever the state and the answer, no operation issues more than one
    request per invocation: nothing is retried.  This holds for
    [placeOrder], [cancelOrder], [getAccount], [getPositions] and
    [getOrders] of [TradingAPI] and for the three of them that
    [CryptoAPI] has. *)
Theorem refused_request_surfaces_once :
  (forall (s : sys TradingAPI.t) c r rest,
     TradingAPI.config (adapter s) = Some c -> In (TradingAPI.name c) Sessions.brokers ->
     network (world s) = Some r :: rest -> rs_ok r = false ->
     let url := fun endpoint => TradingAPI.baseUrl c +:+ endpoint in
     (forall order, surfaces (TradingAPI.placeOrder order) "POST" (url "/orders") r rest s) /\
     (forall orderId,
        surfaces (TradingAPI.cancelOrder orderId) "DELETE" (url ("/orders/" +:+ orderId))
          r rest s) /\
     surfaces TradingAPI.getAccount "GET" (url "/account") r rest s /\
     surfaces TradingAPI.getPositions "GET" (url "/positions") r rest s /\
     (forall status,
        surfaces (TradingAPI.getOrders status) "GET" (url (TradingAPI.orders_url status))
          r rest s)) /\
  ((forall order, single_request (TradingAPI.placeOrder order)) /\
   (forall orderId, single_request (TradingAPI.cancelOrder orderId)) /\
   single_request TradingAPI.getAccount /\
   single_request TradingAPI.getPositions /\
   (forall status, single_request (TradingAPI.getOrders status))) /\
  (forall (s : sys CryptoAPI.t) c r rest,
     CryptoAPI.config (adapter s) = Some c -> In (CryptoAPI.name c) Sessions.exchanges ->
     network (world s) = Some r :: rest -> rs_ok r = false ->
     let url := fun endpoint => CryptoAPI.baseUrl c +:+ endpoint in
     (forall order, surfaces (CryptoAPI.placeOrder order) "POST" (url "/order") r rest s) /\
     surfaces CryptoAPI.getAccount "GET" (url "/account") r rest s /\
     surfaces CryptoAPI.getPositions "GET" (url "/positions") r rest s) /\
  ((forall order, single_request (CryptoAPI.placeOrder order)) /\
   single_request CryptoAPI.getAccount /\
   single_request CryptoAPI.getPositions).
Proof.
  split; [|split; [|split]].
  - intros s c r rest Hc Hn Hnet Hok url. now apply trading_refusal_surfaces.
  - repeat split; intros.
    + apply trading_placeOrder_single.
    + apply trading_cancelOrder_single.
    + apply trading_getAccount_single.
    + apply trading_getPositions_single.
    + apply trading_getOrders_single.
  - intros s c r rest Hc Hn Hnet Hok url. now apply crypto_refusal_surfaces.
  - repeat split; intros.
    + apply crypto_placeOrder_single.
    + apply crypto_getAccount_single.
    + apply crypto_getPositions_single.
Qed.

Definition forbidden : response :=
  {| rs_status := 403; rs_text := "forbidden."; rs_json := None |}.

Definition spy_market : TradingAPI.OrderRequest :=
  {| TradingAPI.symbol := "SPY"; TradingAPI.side := TradingAPI.BUY;
     TradingAPI.quantity := 10%float; TradingAPI.orderType := TradingAPI.MARKET;
     TradingAPI.price := None; TradingAPI.stopPrice := None;
     TradingAPI.timeInForce := TradingAPI.DAY;
     TradingAPI.strategy := None; TradingAPI.notes := None |}.

(** Alpaca is configured and will answer the next request with 403. *)
Definition refusing : sys TradingAPI.t :=
  Sys (TradingAPI.set_config (Some Samples.alpaca_paper) TradingAPI.init)
      (set_network [Some forbidden] empty_world).

Lemma refused_request_surfaces_once_witness :
  fst (TradingAPI.placeOrder spy_market refusing) =
    Throw (Error "API request failed: 403 forbidden.") /\
  length (fetch_log (snd (TradingAPI.placeOrder spy_market refusing))) = 1%nat /\
  network (world (snd (TradingAPI.placeOrder spy_market refusing))) = [].
Proof.
  destruct (proj1 (proj1 refused_request_surfaces_once refusing Samples.alpaca_paper
                     forbidden [] eq_refl (or_introl eq_refl) eq_refl eq_refl) spy_market)
    as (rq & log & _ & _ & Hrun).
  rewrite Hrun. repeat split; vm_compute; reflexivity.
Defined.

End Rest.

(** ** Fan-out to the registered callbacks *)

Module FanOut.

(** The callbacks a fan-out reaches: every one up to and including the
    first that throws. *)
Fixpoint reached (cbs : list callback) (arg : term) : list callback :=
  match cbs with
  | [] => []
  | cb :: rest =>
      match cb_run cb arg with
      | Some _ => [cb]
      | None => cb :: reached rest arg
      end
  end.

(** How the fan-out ends: with what the first throwing callback threw. *)
Fixpoint outcome (cbs : list callback) (arg : term) : res unit :=
  match cbs with
  | [] => Ok tt
  | cb :: rest =>
      match cb_run cb arg with
      | Some e => Throw e
      | None => outcome rest arg
      end
  end.

Definition invocations (cbs : list callback) (arg : term) : list effect :=
  map (fun cb => ECall (cb_id cb) arg) cbs.

Definition emits (l : list effect) (w : World) : World :=
  {| sockets := sockets w; timers := timers w; now := now w;
     network := network w; effects := effects w ++ l |}.

Lemma emits_nil w : emits [] w = w.
Proof. destruct w. unfold emits. cbn. now rewrite app_nil_r. Qed.

Lemma emits_emit e l w : emits l (emit e w) = emits (e :: l) w.
Proof. unfold emits, emit. cbn. now rewrite <- app_assoc. Qed.

Lemma forEach_run {A} cbs arg (s : sys A) :
  forEach cbs arg s =
    (outcome cbs arg, Sys (adapter s) (emits (invocations (reached cbs arg) arg) (world s))).
Proof.
  revert s. induction cbs as [|cb cbs IH]; intros [a w].
  - cbn. now rewrite emits_nil.
  - cbn [forEach reached outcome]. unfold bind, call, on_world. cbn.
    destruct (cb_run cb arg) as [e|]; cbn.
    + reflexivity.
    + rewrite IH. cbn. now rewrite emits_emit.
Qed.

Lemma reached_all cbs arg :
  (forall cb, In cb cbs -> cb_run cb arg = None) ->
  reached cbs arg = cbs /\ outcome cbs arg = Ok tt.
Proof.
  induction cbs as [|cb cbs IH]; intros H; [auto|].
  cbn. rewrite (H cb) by (left; reflexivity).
  destruct IH as [-> ->]; [|auto]. intros cb' Hin. apply H. now right.
Qed.

Lemma calls_invocations cbs arg :
  calls (invocations cbs arg) = map (fun cb => (cb_id cb, arg)) cbs.
Proof. induction cbs as [|cb cbs IH]; [reflexivity|]. cbn. now rewrite <- IH. Qed.

(** *** TradingAPI *)

Section Trading.
Import TradingAPI.

(** [onMarketData] called for each of [cbs] in turn. *)
Fixpoint register (cbs : list callback) : M t unit :=
  match cbs with
  | [] => ret tt
  | cb :: rest => (onMarketData cb ;;; register rest)%M
  end.

Lemma trading_register cbs s :
  register cbs s =
    (Ok tt,
     Sys (set_marketDataCallbacks (marketDataCallbacks (adapter s) ++ cbs) (adapter s))
         (world s)).
Proof.
  revert s. induction cbs as [|cb cbs IH]; intros [[cfg ws mcb ocb n] w].
  - cbn. unfold ret, set_marketDataCallbacks. cbn. now rewrite app_nil_r.
  - cbn [register]. unfold bind, onMarketData, gets, modify. cbn.
    rewrite IH. cbn. unfold set_marketDataCallbacks. cbn. now rewrite <- app_assoc.
Qed.

Lemma trading_dispatch s c data tick :
  config (adapter s) = Some c ->
  normalize c data = Ok (Some tick) ->
  handleMarketDataMessage data s =
    (outcome (marketDataCallbacks (adapter s)) tick,
     Sys (adapter s)
       (emits (invocations (reached (marketDataCallbacks (adapter s)) tick) tick) (world s))).
Proof.
  intros Hc Hn. unfold handleMarketDataMessage.
  rewrite (bind_ok _ _ _ _ _ (gets_run config s)), Hc.
  rewrite (bind_ok (lift _) _ s (Some tick) s) by (unfold lift; now rewrite Hn).
  rewrite (bind_ok _ _ _ _ _ (gets_run marketDataCallbacks s)).
  apply forEach_run.
Qed.
End Trading.

(** *** CryptoAPI *)

Section Crypto.
Import CryptoAPI.

Fixpoint crypto_register (cbs : list callback) : M t unit :=
  match cbs with
  | [] => ret tt
  | cb :: rest => (onMarketData cb ;;; crypto_register rest)%M
  end.

Lemma crypto_register_run cbs s :
  crypto_register cbs s =
    (Ok tt,
     Sys (set_marketDataCallbacks (marketDataCallbacks (adapter s) ++ cbs) (adapter s))
         (world s)).
Proof.
  revert s. induction cbs as [|cb cbs IH]; intros [[cfg ws mcb ocb n] w].
  - cbn. unfold ret, set_marketDataCallbacks. cbn. now rewrite app_nil_r.
  - cbn [crypto_register]. unfold bind, onMarketData, gets, modify. cbn.
    rewrite IH. cbn. unfold set_marketDataCallbacks. cbn. now rewrite <- app_assoc.
Qed.

Lemma crypto_dispatch s c data tick :
  config (adapter s) = Some c ->
  normalize c (now (world s)) data = Ok (Some tick) ->
  handleMarketDataMessage data s =
    (outcome (marketDataCallbacks (adapter s)) tick,
     Sys (adapter s)
       (emits (invocations (reached (marketDataCallbacks (adapter s)) tick) tick) (world s))).
Proof.
  intros Hc Hn. unfold handleMarketDataMessage.
  rewrite (bind_ok _ _ _ _ _ (gets_run config s)), Hc.
  rewrite (bind_ok date_now _ s (now (world s)) s) by reflexivity.
  rewrite (bind_ok (lift _) _ s (Some tick) s) by (unfold lift; now rewrite Hn).
  rewrite (bind_ok _ _ _ _ _ (gets_run marketDataCallbacks s)).
  apply forEach_run.
Qed.
End Crypto.

(** *** RithmicAPI *)

Section Rithmic.
Import RithmicAPI.

Fixpoint rithmic_register (cbs : list callback) : M t unit :=
  match cbs with
  | [] => ret tt
  | cb :: rest => (onMarketData cb ;;; rithmic_register rest)%M
  end.

Lemma rithmic_register_run cbs s :
  rithmic_register cbs s =
    (Ok tt,
     Sys (set_marketDataCallbacks (marketDataCallbacks (adapter s) ++ cbs) (adapter s))
         (world s)).
Proof.
  revert s. induction cbs as [|cb cbs IH]; intros [[cfg ws acb mcb ocb co n] w].
  - cbn. unfold ret, set_marketDataCallbacks. cbn. now rewrite app_nil_r.
  - cbn [rithmic_register]. unfold bind, onMarketData, gets, modify. cbn.
    rewrite IH. cbn. unfold set_marketDataCallbacks. cbn. now rewrite <- app_assoc.
Qed.

(** A market data update (template 150) always yields a tick: every
    field has a fallback. *)
Lemma rithmic_dispatch s message :
  message <> VNull -> message <> VUndef ->
  exists tick,
    handleMarketDataUpdate message s =
      (outcome (marketDataCallbacks (adapter s)) tick,
       Sys (adapter s)
         (emits (invocations (reached (marketDataCallbacks (adapter s)) tick) tick)
            (world s))).
Proof.
  intros Hn Hu. unfold handleMarketDataUpdate.
  rewrite (bind_ok date_now _ s (now (world s)) s) by reflexivity.
  destruct message; try congruence;
    (eexists;
     rewrite (bind_ok (lift _) _ s _ s) by reflexivity;
     rewrite (bind_ok _ _ _ _ _ (gets_run marketDataCallbacks s));
     apply forEach_run).
Qed.
End Rithmic.

(** C9, amended.  After [cbs] were registered through [onMarketData],
    a message whose normalization yields a tick invokes the registered
    callbacks in registration order, each at most once, up to and
    including the first one that throws; when none of them throws, all
    of them are invoked exactly once each with that tick and the handler
    returns.  For [RithmicAPI] the message is a market data update,
    which always yields a tick. *)
Theorem fan_out_in_registration_order :
  (forall (s : sys TradingAPI.t) c data tick cbs,
     TradingAPI.config (adapter s) = Some c ->
     TradingAPI.normalize c data = Ok (Some tick) ->
     let s1 := handled (register cbs) s in
     let all := TradingAPI.marketDataCallbacks (adapter s) ++ cbs in
     TradingAPI.marketDataCallbacks (adapter s1) = all /\
     calls (effects (world (handled (TradingAPI.handleMarketDataMessage data) s1))) =
       calls (effects (world s1)) ++ map (fun cb => (cb_id cb, tick)) (reached all tick) /\
     ((forall cb, In cb all -> cb_run cb tick = None) ->
      TradingAPI.handleMarketDataMessage data s1 =
        (Ok tt, Sys (adapter s1) (emits (invocations all tick) (world s1))))) /\
  (forall (s : sys CryptoAPI.t) c data tick cbs,
     CryptoAPI.config (adapter s) = Some c ->
     CryptoAPI.normalize c (now (world s)) data = Ok (Some tick) ->
     let s1 := handled (crypto_register cbs) s in
     let all := CryptoAPI.marketDataCallbacks (adapter s) ++ cbs in
     CryptoAPI.marketDataCallbacks (adapter s1) = all /\
     calls (effects (world (handled (CryptoAPI.handleMarketDataMessage data) s1))) =
       calls (effects (world s1)) ++ map (fun cb => (cb_id cb, tick)) (reached all tick) /\
     ((forall cb, In cb all -> cb_run cb tick = None) ->
      CryptoAPI.handleMarketDataMessage data s1 =
        (Ok tt, Sys (adapter s1) (emits (invocations all tick) (world s1))))) /\
  (forall (s : sys RithmicAPI.t) message cbs,
     message <> VNull -> message <> VUndef ->
     let s1 := handled (rithmic_register cbs) s in
     let all := RithmicAPI.marketDataCallbacks (adapter s) ++ cbs in
     RithmicAPI.marketDataCallbacks (adapter s1) = all /\
     exists tick,
       calls (effects (world (handled (RithmicAPI.handleMarketDataUpdate message) s1))) =
         calls (effects (world s1)) ++ map (fun cb => (cb_id cb, tick)) (reached all tick) /\
       ((forall cb, In cb all -> cb_run cb tick = None) ->
        RithmicAPI.handleMarketDataUpdate message s1 =
          (Ok tt, Sys (adapter s1) (emits (invocations all tick) (world s1))))).
Proof.
  split; [|split].
  - intros s c data tick cbs Hc Hn s1 all.
    assert (Hs1 : s1 = Sys (TradingAPI.set_marketDataCallbacks all (adapter s)) (world s))
      by (unfold s1, handled; now rewrite trading_register).
    assert (Hrun := trading_dispatch s1 c data tick).
    rewrite Hs1 in Hrun |- *. cbn [adapter world TradingAPI.set_marketDataCallbacks
      TradingAPI.config TradingAPI.marketDataCallbacks] in Hrun |- *.
    specialize (Hrun Hc Hn). split; [reflexivity|]. split.
    + unfold handled. rewrite Hrun. cbn.
      unfold calls at 1. rewrite omap_app. fold (calls (effects (world s))).
      f_equal. apply calls_invocations.
    + intros Hall. rewrite Hrun. now destruct (reached_all all tick Hall) as [-> ->].
  - intros s c data tick cbs Hc Hn s1 all.
    assert (Hs1 : s1 = Sys (CryptoAPI.set_marketDataCallbacks all (adapter s)) (world s))
      by (unfold s1, handled; now rewrite crypto_register_run).
    assert (Hrun := crypto_dispatch s1 c data tick).
    rewrite Hs1 in Hrun |- *. cbn [adapter world CryptoAPI.set_marketDataCallbacks
      CryptoAPI.config CryptoAPI.marketDataCallbacks] in Hrun |- *.
    specialize (Hrun Hc Hn). split; [reflexivity|]. split.
    + unfold handled. rewrite Hrun. cbn.
      unfold calls at 1. rewrite omap_app. fold (calls (effects (world s))).
      f_equal. apply calls_invocations.
    + intros Hall. rewrite Hrun. now destruct (reached_all all tick Hall) as [-> ->].
  - intros s message cbs Hnull Hundef s1 all.
    assert (Hs1 : s1 = Sys (RithmicAPI.set_marketDataCallbacks all (adapter s)) (world s))
      by (unfold s1, handled; now rewrite rithmic_register_run).
    destruct (rithmic_dispatch s1 message Hnull Hundef) as [tick Hrun].
    rewrite Hs1 in Hrun |- *. cbn [adapter world RithmicAPI.set_marketDataCallbacks
      RithmicAPI.marketDataCallbacks] in Hrun |- *.
    split; [reflexivity|]. exists tick. split.
    + unfold handled. rewrite Hrun. cbn.
      unfold calls at 1. rewrite omap_app. fold (calls (effects (world s))).
      f_equal. apply calls_invocations.
    + intros Hall. rewrite Hrun. now destruct (reached_all all tick Hall) as [-> ->].
Qed.

(** An alpaca trade frame. *)
Definition spy_trade : value :=
  VObj [("T", VStr "t"); ("S", VStr "SPY"); ("p", VNum 450.25%float);
        ("s", VNum 100%float); ("t", VStr "2024-03-01T14:30:00Z")].

Definition spy_tick : term :=
  TObj [("symbol", TVal (VStr "SPY"));
        ("price", TVal (VNum 450.25%float));
        ("bid", TSub (TVal (VNum 450.25%float)) (TLit 0.01));
        ("ask", TAdd (TVal (VNum 450.25%float)) (TLit 0.01));
        ("volume", TVal (VNum 100%float));
        ("timestamp", TDateGetTime (TVal (VStr "2024-03-01T14:30:00Z")));
        ("change", TInt 0);
        ("changePercent", TInt 0)].

(** A callback that throws on every tick, and one that returns. *)
Definition chart : callback := {| cb_id := 0; cb_run := fun _ => Some (Thrown 0) |}.
Definition ticker : callback := {| cb_id := 1; cb_run := fun _ => None |}.

(** Two callbacks are registered and the first one throws: the tick
    reaches the first only, and the second is skipped. *)
Lemma throwing_callback_ends_fan_out :
  let s1 := handled (register [chart; ticker]) Samples.configured_alpaca in
  TradingAPI.marketDataCallbacks (adapter s1) = [chart; ticker] /\
  TradingAPI.normalize Samples.alpaca_paper spy_trade = Ok (Some spy_tick) /\
  TradingAPI.handleMarketDataMessage spy_trade s1 =
    (Throw (Thrown 0), Sys (adapter s1) (emit (ECall 0 spy_tick) (world s1))) /\
  calls (effects (world (handled (TradingAPI.handleMarketDataMessage spy_trade) s1))) =
    [(0%nat, spy_tick)] /\
  calls (effects (world (handled (TradingAPI.handleMarketDataMessage spy_trade) s1))) <>
    [(0%nat, spy_tick); (1%nat, spy_tick)].
Proof.
  cbv zeta. repeat split; try (vm_compute; reflexivity).
  vm_compute. discriminate.
Qed.

(** With two callbacks that return, both get the tick, in order. *)
Lemma fan_out_in_registration_order_witness :
  let quotes := {| cb_id := 7; cb_run := fun _ => None |} in
  let s1 := handled (register [ticker; quotes]) Samples.configured_alpaca in
  TradingAPI.handleMarketDataMessage spy_trade s1 =
    (Ok tt,
     Sys (adapter s1) (emits [ECall 1 spy_tick; ECall 7 spy_tick] (world s1))).
Proof.
  intros quotes s1.
  refine (proj2 (proj2 (proj1 fan_out_in_registration_order Samples.configured_alpaca
                          Samples.alpaca_paper spy_trade spy_tick [ticker; quotes]
                          eq_refl _)) _).
  - vm_compute. reflexivity.
  - intros cb [<-|[<-|[]]]; reflexivity.
Defined.

End FanOut.

(** ** Frames that are not data *)

Module NonData.

(** The test each normalizer makes before it builds a tick, as its [if]
    has it. *)
Definition alpaca_test (data : value) : res bool :=
  (T <- get data "T" ;; Ok (is_str T "t"))%res.

Definition polygon_test (data : value) : res bool :=
  (ev <- get data "ev" ;; Ok (is_str ev "T"))%res.

Definition finnhub_test (data : value) : res bool :=
  (ty <- get data "type" ;; Ok (is_str ty "trade"))%res.

Definition bybit_test (data : value) : res bool :=
  (topic <- get data "topic" ;;
   if truthy topic then
     tickers <- startsWith topic "tickers." ;;
     if tickers then (ticker <- get data "data" ;; Ok (truthy ticker)) else Ok false
   else Ok false)%res.

Definition kucoin_test (data : value) : res bool :=
  (ty <- get data "type" ;;
   if is_str ty "message" then
     topic <- get data "topic" ;;
     if is_str topic "/market/ticker:all"
     then (ticker <- get data "data" ;; Ok (truthy ticker))
     else Ok false
   else Ok false)%res.

Definition kraken_test (data : value) : res bool :=
  (if isArray data then
     ticker <- index data 1 ;;
     if truthy ticker
     then (channel <- index data 2 ;; Ok (is_str channel "ticker"))
     else Ok false
   else Ok false)%res.

Definition crypto_com_test (data : value) : res bool :=
  (method <- get data "method" ;;
   if is_str method "subscribe" then
     result <- get data "result" ;;
     if truthy result
     then (ticker <- get result "data" ;; Ok (truthy ticker))
     else Ok false
   else Ok false)%res.

Definition coinex_test (data : value) : res bool :=
  (method <- get data "method" ;;
   if is_str method "state.update"
   then (params <- get data "params" ;; Ok (truthy params))
   else Ok false)%res.

Definition bitget_test (data : value) : res bool :=
  (action <- get data "action" ;;
   if is_str action "snapshot" then
     arg <- get data "arg" ;;
     if truthy arg
     then (rows <- get data "data" ;; Ok (truthy rows))
     else Ok false
   else Ok false)%res.

(** Whether [data] is a data frame of the configured broker. *)
Definition broker_data_frame (c : TradingAPI.BrokerConfig) (data : value) : res bool :=
  if String.eqb (TradingAPI.name c) "alpaca" then alpaca_test data
  else if String.eqb (TradingAPI.name c) "polygon" then polygon_test data
  else if String.eqb (TradingAPI.name c) "finnhub" then finnhub_test data
  else Ok false.

(** Whether [data] is a data frame of the configured exchange. *)
Definition exchange_data_frame (c : CryptoAPI.CryptoExchangeConfig) (data : value) : res bool :=
  if String.eqb (CryptoAPI.name c) "bybit" then bybit_test data
  else if String.eqb (CryptoAPI.name c) "kucoin" then kucoin_test data
  else if String.eqb (CryptoAPI.name c) "kraken" then kraken_test data
  else if String.eqb (CryptoAPI.name c) "crypto_com" then crypto_com_test data
  else if String.eqb (CryptoAPI.name c) "coinex" then coinex_test data
  else if String.eqb (CryptoAPI.name c) "bitget" then bitget_test data
  else Ok false.

(** A normalizer follows its test: [null] exactly when the test is
    false, the error of the test when the test throws, and never [null]
    when the test passes. *)
Definition follows (test : res bool) (parsed : res (option term)) : Prop :=
  match test with
  | Ok false => parsed = Ok None
  | Ok true => parsed <> Ok None
  | Throw e => parsed = Throw e
  end.

Ltac follow :=
  repeat match goal with
         | |- context [res_bind ?r _] => destruct r as [?|?] eqn:?; cbn
         | |- context [if ?b then _ else _] => destruct b eqn:?; cbn
         end;
  first [ reflexivity | discriminate ].

Lemma alpaca_follows data : follows (alpaca_test data) (TradingAPI.parseAlpacaData data).
Proof. unfold follows, alpaca_test, TradingAPI.parseAlpacaData. follow. Qed.

Lemma polygon_follows data : follows (polygon_test data) (TradingAPI.parsePolygonData data).
Proof. unfold follows, polygon_test, TradingAPI.parsePolygonData. follow. Qed.

Lemma finnhub_follows data : follows (finnhub_test data) (TradingAPI.parseFinnhubData data).
Proof. unfold follows, finnhub_test, TradingAPI.parseFinnhubData. follow. Qed.

Lemma bybit_follows data : follows (bybit_test data) (CryptoAPI.parseBybitData data).
Proof. unfold follows, bybit_test, CryptoAPI.parseBybitData. follow. Qed.

Lemma kucoin_follows data : follows (kucoin_test data) (CryptoAPI.parseKuCoinData data).
Proof. unfold follows, kucoin_test, CryptoAPI.parseKuCoinData. follow. Qed.

Lemma kraken_follows now data :
  follows (kraken_test data) (CryptoAPI.parseKrakenData now data).
Proof. unfold follows, kraken_test, CryptoAPI.parseKrakenData. follow. Qed.

Lemma crypto_com_follows data :
  follows (crypto_com_test data) (CryptoAPI.parseCryptoComData data).
Proof. unfold follows, crypto_com_test, CryptoAPI.parseCryptoComData. follow. Qed.

Lemma coinex_follows now data :
  follows (coinex_test data) (CryptoAPI.parseCoinExData now data).
Proof. unfold follows, coinex_test, CryptoAPI.parseCoinExData. follow. Qed.

Lemma bitget_follows data : follows (bitget_test data) (CryptoAPI.parseBitgetData data).
Proof. unfold follows, bitget_test, CryptoAPI.parseBitgetData. follow. Qed.

Lemma broker_follows c data :
  follows (broker_data_frame c data) (TradingAPI.normalize c data).
Proof.
  unfold broker_data_frame, TradingAPI.normalize.
  destruct (String.eqb (TradingAPI.name c) "alpaca"); [apply alpaca_follows|].
  destruct (String.eqb (TradingAPI.name c) "polygon"); [apply polygon_follows|].
  destruct (String.eqb (TradingAPI.name c) "finnhub"); [apply finnhub_follows|].
  reflexivity.
Qed.

Lemma exchange_follows c now data :
  follows (exchange_data_frame c data) (CryptoAPI.normalize c now data).
Proof.
  unfold exchange_data_frame, CryptoAPI.normalize.
  destruct (String.eqb (CryptoAPI.name c) "bybit"); [apply bybit_follows|].
  destruct (String.eqb (CryptoAPI.name c) "kucoin"); [apply kucoin_follows|].
  destruct (String.eqb (CryptoAPI.name c) "kraken"); [apply kraken_follows|].
  destruct (String.eqb (CryptoAPI.name c) "crypto_com"); [apply crypto_com_follows|].
  destruct (String.eqb (CryptoAPI.name c) "coinex"); [apply coinex_follows|].
  destruct (String.eqb (CryptoAPI.name c) "bitget"); [apply bitget_follows|].
  reflexivity.
Qed.

(** A frame that is not a data frame: not JSON, or JSON on which the
    test is false or throws. *)
Definition not_data (test : value -> res bool) (f : frame) : Prop :=
  forall data, JSON_parse f = Ok data -> test data <> Ok true.

(** The handler returned normally and did nothing, or nothing but write
    the log line [log]. *)
Definition ignored {A} (m : M A unit) (log : string) (s : sys A) : Prop :=
  m s = (Ok tt, s) \/
  m s = (Ok tt, Sys (adapter s) (emit (EConsole log) (world s))).

Lemma ignored_calls {A} (m : M A unit) log s :
  ignored m log s ->
  fst (m s) = Ok tt /\ adapter (snd (m s)) = adapter s /\
  calls (effects (world (snd (m s)))) = calls (effects (world s)) /\
  sockets (world (snd (m s))) = sockets (world s).
Proof.
  intros [-> | ->]; cbn; repeat split.
  rewrite calls_snoc. cbn. apply app_nil_r.
Qed.

Section Trading.
Import TradingAPI.

Lemma trading_handle s c data :
  config (adapter s) = Some c ->
  match normalize c data with
  | Ok None => handleMarketDataMessage data s = (Ok tt, s)
  | Throw e => handleMarketDataMessage data s = (Throw e, s)
  | Ok (Some _) => True
  end.
Proof.
  intros Hc. unfold handleMarketDataMessage.
  rewrite (bind_ok _ _ _ _ _ (gets_run config s)), Hc.
  unfold bind, lift. now destruct (normalize c data) as [[tick|]|e].
Qed.

Lemma trading_null_frame s c data :
  config (adapter s) = Some c ->
  broker_data_frame c data = Ok false ->
  normalize c data = Ok None /\ handleMarketDataMessage data s = (Ok tt, s).
Proof.
  intros Hc Ht. pose proof (broker_follows c data) as Hf. rewrite Ht in Hf. cbn in Hf.
  split; [exact Hf|]. pose proof (trading_handle s c data Hc) as Hh. now rewrite Hf in Hh.
Qed.

Lemma trading_ignores s c f :
  config (adapter s) = Some c ->
  not_data (broker_data_frame c) f ->
  ignored (websocket_onmessage f) "Error parsing market data:" s.
Proof.
  intros Hc Hnd. unfold ignored, websocket_onmessage.
  destruct (JSON_parse f) as [data|e] eqn:Hp.
  - pose proof (broker_follows c data) as Hf.
    pose proof (trading_handle s c data Hc) as Hh.
    unfold try_catch, bind, lift. cbv beta iota.
    destruct (broker_data_frame c data) as [[|]|e] eqn:Ht; cbn in Hf.
    + now destruct (Hnd data Hp).
    + rewrite Hf in Hh. left. now rewrite Hh.
    + rewrite Hf in Hh. right. now rewrite Hh.
  - right. unfold try_catch, bind, lift. reflexivity.
Qed.
End Trading.

Section Crypto.
Import CryptoAPI.

Lemma crypto_handle s c data :
  config (adapter s) = Some c ->
  match normalize c (now (world s)) data with
  | Ok None => handleMarketDataMessage data s = (Ok tt, s)
  | Throw e => handleMarketDataMessage data s = (Throw e, s)
  | Ok (Some _) => True
  end.
Proof.
  intros Hc. unfold handleMarketDataMessage.
  rewrite (bind_ok _ _ _ _ _ (gets_run config s)), Hc.
  rewrite (bind_ok date_now _ s (now (world s)) s) by reflexivity.
  unfold bind, lift. now destruct (normalize c (now (world s)) data) as [[tick|]|e].
Qed.

Lemma crypto_null_frame s c data :
  config (adapter s) = Some c ->
  exchange_data_frame c data = Ok false ->
  normalize c (now (world s)) data = Ok None /\
  handleMarketDataMessage data s = (Ok tt, s).
Proof.
  intros Hc Ht. pose proof (exchange_follows c (now (world s)) data) as Hf.
  rewrite Ht in Hf. cbn in Hf.
  split; [exact Hf|]. pose proof (crypto_handle s c data Hc) as Hh. now rewrite Hf in Hh.
Qed.

Lemma crypto_ignores s c f :
  config (adapter s) = Some c ->
  not_data (exchange_data_frame c) f ->
  ignored (websocket_onmessage f) "Error parsing market data:" s.
Proof.
  intros Hc Hnd. unfold ignored, websocket_onmessage.
  destruct (JSON_parse f) as [data|e] eqn:Hp.
  - pose proof (exchange_follows c (now (world s)) data) as Hf.
    pose proof (crypto_handle s c data Hc) as Hh.
    unfold try_catch, bind, lift. cbv beta iota.
    destruct (exchange_data_frame c data) as [[|]|e] eqn:Ht; cbn in Hf.
    + now destruct (Hnd data Hp).
    + rewrite Hf in Hh. left. now rewrite Hh.
    + rewrite Hf in Hh. right. now rewrite Hh.
  - right. unfold try_catch, bind, lift. reflexivity.
Qed.
End Crypto.

(** On a payload other than [null] the tests do not throw, but for the
    one of bybit, which calls [startsWith] on whatever [topic] holds. *)
Ltac total_test :=
  repeat (match goal with
          | |- context [if ?b then _ else _] => destruct b eqn:?
          | H : truthy ?v = true |- context [get ?v _] =>
              destruct v; cbn in H; try discriminate H
          end; cbn);
  eauto.

Lemma broker_test_total c data :
  data <> VNull -> data <> VUndef -> exists b, broker_data_frame c data = Ok b.
Proof.
  intros Hn Hu.
  unfold broker_data_frame, alpaca_test, polygon_test, finnhub_test.
  destruct data; try congruence; cbn; total_test.
Qed.

Lemma exchange_test_total c data :
  data <> VNull -> data <> VUndef -> String.eqb (CryptoAPI.name c) "bybit" = false ->
  exists b, exchange_data_frame c data = Ok b.
Proof.
  intros Hn Hu Hb. unfold exchange_data_frame. rewrite Hb.
  unfold kucoin_test, kraken_test, crypto_com_test, coinex_test, bitget_test.
  destruct data; try congruence; cbn; total_test.
Qed.

(** C6, amended.  For every configured venue: a parsed payload on which
    the normalizer's test is false (every payload other than [null] that
    fails the test, a subscription acknowledgment for one) is normalized
    to [null], and [handleMarketDataMessage] then returns without
    invoking a callback and without changing anything; a frame that is
    not a data frame at all, be it no JSON, [null], or a payload on which
    the test throws, is swallowed by the [onmessage] handler, which
    returns normally having at most written a log line: no callback is
    invoked and the socket is untouched. *)
Theorem non_data_frame_is_ignored :
  (forall (s : sys TradingAPI.t) c,
     TradingAPI.config (adapter s) = Some c ->
     (forall data,
        broker_data_frame c data = Ok false ->
        TradingAPI.normalize c data = Ok None /\
        TradingAPI.handleMarketDataMessage data s = (Ok tt, s)) /\
     (forall data, data <> VNull -> data <> VUndef ->
                   exists b, broker_data_frame c data = Ok b) /\
     (forall f,
        not_data (broker_data_frame c) f ->
        ignored (TradingAPI.websocket_onmessage f) "Error parsing market data:" s)) /\
  (forall (s : sys CryptoAPI.t) c,
     CryptoAPI.config (adapter s) = Some c ->
     (forall data,
        exchange_data_frame c data = Ok false ->
        CryptoAPI.normalize c (now (world s)) data = Ok None /\
        CryptoAPI.handleMarketDataMessage data s = (Ok tt, s)) /\
     (forall data, data <> VNull -> data <> VUndef ->
                   String.eqb (CryptoAPI.name c) "bybit" = false ->
                   exists b, exchange_data_frame c data = Ok b) /\
     (forall f,
        not_data (exchange_data_frame c) f ->
        ignored (CryptoAPI.websocket_onmessage f) "Error parsing market data:" s)).
Proof.
  split; intros s c Hc; (split; [|split]).
  - intros data Ht. now apply trading_null_frame.
  - intros data Hn Hu. now apply broker_test_total.
  - intros f Hf. now apply (trading_ignores s c).
  - intros data Ht. now apply crypto_null_frame.
  - intros data Hn Hu Hb. now apply exchange_test_total.
  - intros f Hf. now apply (crypto_ignores s c).
Qed.

(** The payload [null]: the test of alpaca throws on it, so it is no
    data frame, yet the normalizer does not return [null] and
    [handleMarketDataMessage] raises the [TypeError]. *)
Lemma null_payload_raises :
  let s := Samples.configured_alpaca in
  JSON_parse (Text (Some VNull)) = Ok VNull /\
  broker_data_frame Samples.alpaca_paper VNull = Throw TypeError /\
  TradingAPI.parseAlpacaData VNull = Throw TypeError /\
  TradingAPI.parseAlpacaData VNull <> Ok None /\
  TradingAPI.handleMarketDataMessage VNull s = (Throw TypeError, s).
Proof. cbv zeta. repeat split. discriminate. Qed.

(** The acknowledgment alpaca sends after authentication. *)
Definition alpaca_ack : value :=
  VArr [VObj [("T", VStr "success"); ("msg", VStr "authenticated")]].

Lemma non_data_frame_is_ignored_witness :
  TradingAPI.normalize Samples.alpaca_paper alpaca_ack = Ok None /\
  TradingAPI.handleMarketDataMessage alpaca_ack Samples.configured_alpaca =
    (Ok tt, Samples.configured_alpaca).
Proof.
  apply (proj1 (proj1 non_data_frame_is_ignored Samples.configured_alpaca
                  Samples.alpaca_paper eq_refl) alpaca_ack).
  reflexivity.
Defined.

End NonData.

(** ** One session at a time *)

Module Ownership.
Import Sessions.

(** The adapter holds socket [i] and it is connecting or open. *)
Definition live_session {A} (held : A -> option nat) (s : sys A) (i : nat) : Prop :=
  held (adapter s) = Some i /\
  exists w, sockets (world s) !! i = Some w /\ live w = true.

(** [connect] run in [s], where session [i] is live: [i] is closed
    first, then a new socket is created, and it is the new one the
    adapter holds afterwards, while [i] is closing. *)
Definition closes_before_opening {A} (held : A -> option nat) (connect : M A unit)
    (s : sys A) (i : nat) : Prop :=
  let s' := handled connect s in
  let j := length (sockets (world s)) in
  (exists url, effects (world s') = effects (world s) ++ [EWsClose i; EWsNew j url]) /\
  held (adapter s') = Some j /\
  (exists w, sockets (world s') !! i = Some w /\ ws_readyState w = CLOSING).

(** [configure] stores the configuration and resets the counter; the
    held socket and the whole world are as before. *)
Definition leaves_session {A} (held : A -> option nat) (configure : M A unit)
    (s : sys A) : Prop :=
  world (handled configure s) = world s /\
  held (adapter (handled configure s)) = held (adapter s).

Lemma closed_live (w : socket) : live w = true -> ws_readyState (close_socket w) = CLOSING.
Proof. unfold close_socket. now intros ->. Qed.

Lemma closes_then_opens {A} (held : A -> option nat) (s : sys A) i a' url symbols :
  live_session held s i ->
  held a' = Some (length (sockets (world s))) ->
  let s' := Sys a' (emit (EWsNew (length (sockets (world s))) url)
                      (set_sockets (sockets (closed_held held s) ++
                                    [Socket url CONNECTING symbols])
                                   (closed_held held s))) in
  (exists url', effects (world s') =
                effects (world s) ++ [EWsClose i; EWsNew (length (sockets (world s))) url']) /\
  held (adapter s') = Some (length (sockets (world s))) /\
  (exists w, sockets (world s') !! i = Some w /\ ws_readyState w = CLOSING).
Proof.
  intros (Hh & w & Hi & Hl) Ha'. cbn. unfold closed_held. rewrite Hh. cbn.
  split; [|split].
  - exists url. now rewrite <- app_assoc.
  - exact Ha'.
  - exists (close_socket w). split; [|now apply closed_live].
    rewrite lookup_app_l
      by (rewrite length_alter; now apply lookup_lt_Some in Hi).
    now rewrite list_lookup_alter_eq, Hi.
Qed.

Lemma fresh_one_session {A} (held : A -> option nat) (a : A) w :
  sockets w = [] -> one_session held (Sys a w).
Proof. intros Hw i sock Hi. cbn in Hi. now rewrite Hw in Hi. Qed.

(** C3, amended.  Each adapter instance has at most one live WebSocket
    session at any time: in every state reached from a fresh instance,
    a socket that is connecting or open is the one the adapter holds.
    [configure] does not touch the session: it leaves the held socket
    and the world as they are.  It is the next connect call that tears
    the previous session down, and it closes the held socket before it
    creates the new one, so the two never overlap. *)
Theorem one_live_session :
  ((forall w acts s,
      sockets w = [] -> TradingAPI.exec acts (TradingAPI.start w) = Some s ->
      one_session TradingAPI.websocket s) /\
   (forall s c, leaves_session TradingAPI.websocket (TradingAPI.configure c) s) /\
   (forall s c symbols i,
      TradingAPI.config (adapter s) = Some c -> In (TradingAPI.name c) brokers ->
      live_session TradingAPI.websocket s i ->
      closes_before_opening TradingAPI.websocket (TradingAPI.connectMarketData symbols) s i)) /\
  ((forall w acts s,
      sockets w = [] -> CryptoAPI.exec acts (CryptoAPI.start w) = Some s ->
      one_session CryptoAPI.websocket s) /\
   (forall s c, leaves_session CryptoAPI.websocket (CryptoAPI.configure c) s) /\
   (forall s c symbols i,
      CryptoAPI.config (adapter s) = Some c -> In (CryptoAPI.name c) exchanges ->
      live_session CryptoAPI.websocket s i ->
      closes_before_opening CryptoAPI.websocket (CryptoAPI.connectMarketData symbols) s i)) /\
  ((forall w acts s,
      sockets w = [] -> RithmicAPI.exec acts (RithmicAPI.start w) = Some s ->
      one_session RithmicAPI.websocket s) /\
   (forall s c, leaves_session RithmicAPI.websocket (RithmicAPI.configure c) s) /\
   (forall s c i,
      RithmicAPI.config (adapter s) = Some c ->
      live_session RithmicAPI.websocket s i ->
      closes_before_opening RithmicAPI.websocket RithmicAPI.connect s i)).
Proof.
  split; [|split]; (split; [|split]).
  - intros w acts s Hw. apply trading_one_session. now apply fresh_one_session.
  - intros [a w] c. split; reflexivity.
  - intros s c symbols i Hc Hn Hlive. unfold closes_before_opening, handled.
    destruct (trading_connect_supported s c symbols Hc Hn) as [url ->].
    now apply closes_then_opens.
  - intros w acts s Hw. apply crypto_one_session. now apply fresh_one_session.
  - intros [a w] c. split; reflexivity.
  - intros s c symbols i Hc Hn Hlive. unfold closes_before_opening, handled.
    destruct (crypto_connect_supported s c symbols Hc Hn) as [url ->].
    now apply closes_then_opens.
  - intros w acts s Hw. apply rithmic_one_session. now apply fresh_one_session.
  - intros [a w] c. split; reflexivity.
  - intros s c i Hc Hlive. unfold closes_before_opening, handled.
    destruct (rithmic_connect_configured s c Hc) as [url ->].
    now apply closes_then_opens.
Qed.

(** The alpaca stream is up: configured, connected, and the socket has
    opened. *)
Definition streaming_open : sys TradingAPI.t :=
  let s0 := TradingAPI.start empty_world in
  default s0
    (TradingAPI.exec
       [Api (TradingAPI.Configure Samples.alpaca_paper);
        Api (TradingAPI.ConnectMarketData ["SPY"]);
        Env (EvOpen 0)] s0).

(** The UI now configures polygon: the alpaca socket is still held and
    still open, nothing was closed, and [isConnected()] is still true. *)
Lemma configure_leaves_session_open :
  let s := streaming_open in
  let s' := handled (TradingAPI.configure Samples.polygon_live) s in
  live_session TradingAPI.websocket s 0 /\
  TradingAPI.config (adapter s') = Some Samples.polygon_live /\
  live_session TradingAPI.websocket s' 0 /\
  map ws_readyState (sockets (world s')) = [OPEN] /\
  effects (world s') = effects (world s) /\
  fst (TradingAPI.isConnected s') = Ok true.
Proof.
  cbv zeta. repeat split; try (vm_compute; reflexivity);
    eexists; split; vm_compute; reflexivity.
Qed.

(** The UI connects again on the open stream: socket 0 is closed, then
    socket 1 is created. *)
Lemma one_live_session_witness :
  closes_before_opening TradingAPI.websocket
    (TradingAPI.connectMarketData ["SPY"; "QQQ"]) streaming_open 0.
Proof.
  apply (proj2 (proj2 (proj1 one_live_session)) streaming_open Samples.alpaca_paper).
  - vm_compute. reflexivity.
  - left. reflexivity.
  - split; [vm_compute; reflexivity|]. eexists. split; vm_compute; reflexivity.
Defined.

End Ownership.

(** ** Disconnect *)

Module Teardown.
Import Sessions.

(** The socket the adapter held is not live any more (it is closing, or
    it was closing or closed already). *)
Definition released {A} (held : A -> option nat) (s s' : sys A) : Prop :=
  world s' = closed_held held s /\
  forall i w, held (adapter s) = Some i -> sockets (world s') !! i = Some w -> live w = false.

Lemma closed_held_released {A} (held : A -> option nat) (s : sys A) a' :
  released held s (Sys a' (closed_held held s)).
Proof.
  split; [reflexivity|]. intros i w Hh Hi. cbn in Hi.
  unfold closed_held in Hi. rewrite Hh in Hi. cbn in Hi.
  rewrite list_lookup_alter_eq in Hi.
  destruct (sockets (world s) !! i) as [w0|]; [|discriminate].
  cbn in Hi. injection Hi as <-. apply live_close_socket.
Qed.

(** *** TradingAPI and CryptoAPI *)

Lemma trading_no_callbacks s data :
  TradingAPI.marketDataCallbacks (adapter s) = [] ->
  snd (TradingAPI.handleMarketDataMessage data s) = s.
Proof.
  intros H. destruct s as [a w]. cbn in H.
  unfold TradingAPI.handleMarketDataMessage, bind, gets, lift, ret. cbn.
  destruct (TradingAPI.config a); [|reflexivity].
  destruct (TradingAPI.normalize _ data) as [[tick|]|e]; try reflexivity.
  cbn. now rewrite H.
Qed.

Lemma crypto_no_callbacks s data :
  CryptoAPI.marketDataCallbacks (adapter s) = [] ->
  snd (CryptoAPI.handleMarketDataMessage data s) = s.
Proof.
  intros H. destruct s as [a w]. cbn in H.
  unfold CryptoAPI.handleMarketDataMessage, bind, gets, lift, ret, date_now, ask_world. cbn.
  destruct (CryptoAPI.config a); [|reflexivity].
  destruct (CryptoAPI.normalize _ _ data) as [[tick|]|e]; try reflexivity.
  cbn. now rewrite H.
Qed.

(** *** RithmicAPI *)

Section Rithmic.
Import RithmicAPI.

Definition no_callbacks (s : sys t) : Prop :=
  accountUpdateCallbacks (adapter s) = [] /\
  marketDataCallbacks (adapter s) = [] /\
  orderUpdateCallbacks (adapter s) = [].

(** With nothing registered, nothing gets registered and nothing is
    invoked. *)
Definition silent : relation (sys t) := fun s s' =>
  no_callbacks s ->
  no_callbacks s' /\ calls (effects (world s')) = calls (effects (world s)).

#[local] Instance silent_preorder : PreOrder silent.
Proof.
  split.
  - intros s H. auto.
  - intros s1 s2 s3 H12 H23 H1.
    destruct (H12 H1) as [H2 E12]. destruct (H23 H2) as [H3 E23].
    split; [exact H3 | congruence].
Qed.

Ltac hush :=
  let a := fresh "a" in
  let w := fresh "w" in
  let H := fresh "H" in
  intros [a w] H; split; [exact H|];
  cbn; rewrite ?calls_snoc; cbn; rewrite ?app_nil_r; reflexivity.

Lemma silent_dispatch (f : t -> list callback) arg :
  (forall s, no_callbacks s -> f (adapter s) = []) ->
  keeps silent (bind (gets f) (fun cbs => forEach cbs arg)).
Proof.
  intros Hf s H. unfold bind, gets. cbn. rewrite (Hf s H). cbn. auto.
Qed.

Lemma silent_handleMessage message : keeps silent (handleMessage message).
Proof.
  unfold handleMessage.
  apply (keeps_bind silent); [keeps_with hush|]. intros template_id.
  destruct (is_num template_id 11); [keeps_with hush|].
  destruct (is_num template_id 150).
  { unfold handleMarketDataUpdate.
    apply (keeps_bind silent); [keeps_with hush|]. intros now.
    apply (keeps_bind silent); [keeps_with hush|]. intros marketData.
    apply silent_dispatch. now intros s (_ & H & _). }
  destruct (is_num template_id 101).
  { unfold handleAccountUpdate.
    apply (keeps_bind silent); [keeps_with hush|]. intros account.
    apply silent_dispatch. now intros s (H & _ & _). }
  destruct (is_num template_id 102).
  { unfold handleOrderUpdate. apply silent_dispatch. now intros s (_ & _ & H). }
  keeps_with hush.
Qed.

Lemma silent_onmessage f : keeps silent (websocket_onmessage f).
Proof.
  unfold websocket_onmessage.
  apply (keeps_try_catch silent); [|intros e; keeps_with hush].
  apply (keeps_bind silent); [keeps_with hush|]. intros message.
  apply silent_handleMessage.
Qed.
End Rithmic.


(** The first socket was lost and the reconnection timer has opened a
    second one: the counter stands at one. *)
Definition reconnecting_once : sys TradingAPI.t :=
  let s0 := TradingAPI.start empty_world in
  default s0
    (TradingAPI.exec
       [Api (TradingAPI.Configure Samples.alpaca_paper);
        Api (TradingAPI.ConnectMarketData ["SPY"]);
        Env (EvClose 0); Env (EvTimeout 0)] s0).


End Teardown.

(** ** Whole runs *)

Module Runs.

Section Along.
Context {A C : Type} (invoke : C -> M A unit) (h : handlers A).

(** A property that every call of the UI and every event of the browser
    preserve holds at the end of every run. *)
Lemma run_invariant (P : sys A -> Prop) :
  (forall c s, P s -> P (handled (invoke c) s)) ->
  (forall e s s', P s -> fire h e s = Some s' -> P s') ->
  forall acts s s', P s -> run invoke h acts s = Some s' -> P s'.
Proof.
  intros Hcall Hfire acts. induction acts as [|a acts IH]; intros s s' HP Hrun.
  - cbn in Hrun. now injection Hrun as <-.
  - cbn in Hrun. destruct a as [c|e]; cbn in Hrun.
    + eapply IH; [|exact Hrun]. now apply Hcall.
    + destruct (fire h e s) as [s1|] eqn:Hf; [|discriminate].
      eapply IH; [|exact Hrun]. eapply Hfire; eassumption.
Qed.
End Along.

Section Delivery.
Context {A : Type} (R : relation (sys A)) `{!PreOrder R} (h : handlers A).

(** What the browser itself does when it delivers an event: it moves a
    ready state, retires the timer that fires, advances the clock. *)
Hypothesis ready : forall i r s, R s (set_ready i r s).
Hypothesis retired : forall k s, R s (drop_timer k s).
Hypothesis clock : forall t s, R s (Sys (adapter s) (set_now t (world s))).

Lemma fire_keeps e s s' :
  (forall symbols, keeps R (onopen h symbols)) ->
  (forall f, keeps R (onmessage h f)) ->
  keeps R (onerror h) ->
  (forall symbols, keeps R (onclose h symbols)) ->
  (forall symbols, keeps R (ontimeout h symbols)) ->
  fire h e s = Some s' -> R s s'.
Proof.
  intros Hopen Hmsg Herr Hclose Htimer Hf.
  destruct e as [i|i f|i|i|k|t]; cbn in Hf.
  - destruct (sockets (world s) !! i) as [w|]; [|discriminate].
    destruct (ws_readyState w); try discriminate. injection Hf as <-.
    etransitivity; [apply (ready i OPEN) | apply Hopen].
  - destruct (sockets (world s) !! i) as [w|]; [|discriminate].
    destruct (ws_readyState w); try discriminate. injection Hf as <-.
    apply Hmsg.
  - destruct (sockets (world s) !! i) as [w|]; [|discriminate].
    destruct (ws_readyState w); try discriminate; injection Hf as <-; apply Herr.
  - destruct (sockets (world s) !! i) as [w|]; [|discriminate].
    assert (Hs' : s' = handled (onclose h (ws_symbols w)) (set_ready i CLOSED s))
      by (destruct (ws_readyState w); now inversion Hf).
    subst s'. etransitivity; [apply (ready i CLOSED) | apply Hclose].
  - destruct (timers (world s) !! k) as [[d symbols]|]; [|discriminate].
    injection Hf as <-. etransitivity; [apply (retired k) | apply Htimer].
  - destruct (now (world s) <=? t); [|discriminate]. injection Hf as <-.
    apply clock.
Qed.
End Delivery.

(** The frames sent so far, each with the socket it went out on. *)
Definition frames {A} (s : sys A) : list (nat * term) :=
  omap (fun e => match e with EWsSend i msg => Some (i, msg) | _ => None end)
       (effects (world s)).

Lemma frames_emit {A} (a : A) e w :
  frames (Sys a (emit e w)) =
    frames (Sys a w) ++ match e with EWsSend i msg => [(i, msg)] | _ => [] end.
Proof. unfold frames. cbn. rewrite omap_app. cbn. now destruct e. Qed.

End Runs.

(** ** The timers of the reconnection *)

Module Timers.

(** The timers that are armed and have not fired. *)
Definition pending {A} (s : sys A) : list (Z * list string) := timers (world s).

Lemma pending_fetch {A} rq : keeps (unchanged (@pending A)) (fetch rq).
Proof.
  intros [a w]. unfold fetch, unchanged, pending. cbn.
  now destruct (network w) as [|[r|] rest].
Qed.

Ltac still := first [ apply pending_fetch | untouched ].

Lemma trading_calls c : keeps (unchanged pending) (TradingAPI.invoke c).
Proof. destruct c; keeps_with still. Qed.

Lemma crypto_calls c : keeps (unchanged pending) (CryptoAPI.invoke c).
Proof. destruct c; keeps_with still. Qed.

Lemma rithmic_calls c : keeps (unchanged pending) (RithmicAPI.invoke c).
Proof. destruct c; keeps_with still. Qed.

(** No public method arms a timer and none cancels one: whatever is
    called, [configure] and [disconnect] included, the timers that are
    armed stay armed, with their delays and their symbols.  Timers are
    armed by the close handler alone and go away only by firing. *)
Theorem calls_leave_timers :
  (forall c s, pending (handled (TradingAPI.invoke c) s) = pending s) /\
  (forall c s, pending (handled (CryptoAPI.invoke c) s) = pending s) /\
  (forall c s, pending (handled (RithmicAPI.invoke c) s) = pending s).
Proof.
  split; [|split]; intros c s.
  - apply trading_calls.
  - apply crypto_calls.
  - apply rithmic_calls.
Qed.

End Timers.

(** ** The range of the attempt counter and of the delays *)

Module Range.

Section Counter.
Context {A : Type} (attempts : A -> Z).

(** The counter is between zero and the maximum, and every timer armed so
    far waits for one of the five delays of the backoff. *)
Definition within (s : sys A) : Prop :=
  0 <= attempts (adapter s) <= 5 /\
  Forall (fun d => d ∈ Backoff.backoff_delays) (delays s).

(** The counter stays or goes back to zero, and no timer is armed. *)
Definition settles : relation (sys A) := fun s s' =>
  (attempts (adapter s') = attempts (adapter s) \/ attempts (adapter s') = 0) /\
  delays s' = delays s.

#[export] Instance settles_preorder : PreOrder settles.
Proof.
  split.
  - intros s. split; auto.
  - intros s1 s2 s3 [[H12|H12] D12] [[H23|H23] D23]; split; try congruence;
      first [ left; congruence | right; congruence ].
Qed.

(** One more attempt, with its timer, while the maximum is not reached. *)
Definition backs_off : relation (sys A) := fun s s' =>
  (attempts (adapter s') = attempts (adapter s) /\ delays s' = delays s) \/
  (attempts (adapter s) < 5 /\
   attempts (adapter s') = attempts (adapter s) + 1 /\
   delays s' = delays s ++ [2 ^ (attempts (adapter s) + 1) * 1000]).

Lemma within_settles s s' : settles s s' -> within s -> within s'.
Proof.
  intros [Ha Hd] [Hr Hf]. split; [|now rewrite Hd].
  destruct Ha as [-> | ->]; lia.
Qed.

Lemma delay_in_backoff n :
  0 <= n < 5 -> 2 ^ (n + 1) * 1000 ∈ Backoff.backoff_delays.
Proof.
  intros Hn. unfold Backoff.backoff_delays.
  assert (Hcases : n = 0 \/ n = 1 \/ n = 2 \/ n = 3 \/ n = 4) by lia.
  clear Hn. destruct Hcases as [E|[E|[E|[E|E]]]]; rewrite E; cbn; set_solver.
Qed.

Lemma within_backs_off s s' : backs_off s s' -> within s -> within s'.
Proof.
  intros [[Ha Hd] | (Hlt & Ha & Hd)] [Hr Hf].
  - split; [now rewrite Ha | now rewrite Hd].
  - split; [lia|]. rewrite Hd. apply Forall_app. split; [exact Hf|].
    apply Forall_singleton, delay_in_backoff. lia.
Qed.

Lemma settles_ready i r s : settles s (set_ready i r s).
Proof. split; [now left | reflexivity]. Qed.

Lemma settles_retired k s : settles s (drop_timer k s).
Proof. split; [now left | reflexivity]. Qed.

Lemma settles_clock t s : settles s (Sys (adapter s) (set_now t (world s))).
Proof. split; [now left | reflexivity]. Qed.

(** The range along the event loop of an adapter whose close handler
    backs off and whose other handlers and methods settle. *)
Lemma within_fire (h : handlers A) e s s' :
  (forall symbols, keeps settles (onopen h symbols)) ->
  (forall f, keeps settles (onmessage h f)) ->
  keeps settles (onerror h) ->
  (forall symbols s, backs_off s (handled (onclose h symbols) s)) ->
  (forall symbols, keeps settles (ontimeout h symbols)) ->
  within s -> fire h e s = Some s' -> within s'.
Proof.
  intros Hopen Hmsg Herr Hclose Htimer Hin Hf.
  destruct e as [i|i f|i|i|k|t]; cbn in Hf.
  - destruct (sockets (world s) !! i) as [w|]; [|discriminate].
    destruct (ws_readyState w); try discriminate. injection Hf as <-.
    eapply within_settles; [apply Hopen|].
    eapply within_settles; [apply settles_ready | exact Hin].
  - destruct (sockets (world s) !! i) as [w|]; [|discriminate].
    destruct (ws_readyState w); try discriminate. injection Hf as <-.
    eapply within_settles; [apply Hmsg | exact Hin].
  - destruct (sockets (world s) !! i) as [w|]; [|discriminate].
    destruct (ws_readyState w); try discriminate; injection Hf as <-;
      (eapply within_settles; [apply Herr | exact Hin]).
  - destruct (sockets (world s) !! i) as [w|]; [|discriminate].
    assert (Hs' : s' = handled (onclose h (ws_symbols w)) (set_ready i CLOSED s))
      by (destruct (ws_readyState w); now inversion Hf).
    subst s'. eapply within_backs_off; [apply Hclose|].
    eapply within_settles; [apply settles_ready | exact Hin].
  - destruct (timers (world s) !! k) as [[d symbols]|]; [|discriminate].
    injection Hf as <-. eapply within_settles; [apply Htimer|].
    eapply within_settles; [apply settles_retired | exact Hin].
  - destruct (now (world s) <=? t); [|discriminate]. injection Hf as <-.
    eapply within_settles; [apply settles_clock | exact Hin].
Qed.
End Counter.

(** An update that leaves the counter or resets it, and arms no timer. *)
Lemma settles_fetch {A} (attempts : A -> Z) rq : keeps (settles attempts) (fetch rq).
Proof.
  intros [a w]. unfold fetch. cbn.
  destruct (network w) as [|[r|] rest];
    (split;
     [ cbn; auto
     | unfold delays, timeouts; cbn; rewrite omap_app; cbn;
       now rewrite app_nil_r ]).
Qed.

Ltac settle :=
  let a := fresh "a" in
  let w := fresh "w" in
  first
    [ apply settles_fetch
    | intros [a w]; split;
      [ cbn; auto
      | unfold delays, timeouts; cbn; rewrite ?omap_app; cbn;
        rewrite ?app_nil_r; reflexivity ] ].

Section Trading.
Import TradingAPI.

Lemma trading_calls_settle c : keeps (settles reconnectAttempts) (invoke c).
Proof. destruct c; keeps_with settle. Qed.

Lemma trading_onopen_settles symbols :
  keeps (settles reconnectAttempts) (websocket_onopen symbols).
Proof. keeps_with settle. Qed.

Lemma trading_onmessage_settles f :
  keeps (settles reconnectAttempts) (websocket_onmessage f).
Proof. keeps_with settle. Qed.

Lemma trading_onclose_backs_off symbols s :
  backs_off reconnectAttempts s (handled (websocket_onclose symbols) s).
Proof.
  pose proof (Backoff.trading_onclose symbols s) as H. cbv zeta in H.
  unfold backs_off, handled.
  destruct (reconnectAttempts (adapter s) <? 5) eqn:Hlt; [right|left]; [|exact H].
  apply Z.ltb_lt in Hlt. tauto.
Qed.

Lemma trading_within acts s s' :
  within reconnectAttempts s -> exec acts s = Some s' -> within reconnectAttempts s'.
Proof.
  apply Runs.run_invariant.
  - intros c s0. apply within_settles, trading_calls_settle.
  - intros e s0 s1. apply within_fire.
    + apply trading_onopen_settles.
    + apply trading_onmessage_settles.
    + unfold socket_handlers; cbn. keeps_with settle.
    + apply trading_onclose_backs_off.
    + intros symbols. apply (trading_calls_settle (ConnectMarketData symbols)).
Qed.
End Trading.

Section Crypto.
Import CryptoAPI.

Lemma crypto_calls_settle c : keeps (settles reconnectAttempts) (invoke c).
Proof. destruct c; keeps_with settle. Qed.

Lemma crypto_onopen_settles symbols :
  keeps (settles reconnectAttempts) (websocket_onopen symbols).
Proof. keeps_with settle. Qed.

Lemma crypto_onmessage_settles f :
  keeps (settles reconnectAttempts) (websocket_onmessage f).
Proof. keeps_with settle. Qed.

(** Without a configuration the close handler throws on its log line,
    before it reaches the reconnection. *)
Lemma crypto_onclose_backs_off symbols s :
  backs_off reconnectAttempts s (handled (websocket_onclose symbols) s).
Proof.
  destruct s as [a w]. unfold backs_off, handled.
  unfold websocket_onclose, config_name, handleReconnection, delays, timeouts.
  unfold bind, console, gets, modify, on_world, set_timeout, ret, throw, maxReconnectAttempts.
  cbn. destruct (config a) as [c|]; cbn; [|now left].
  destruct (reconnectAttempts a <? 5) eqn:Hlt; cbn; rewrite !omap_app; cbn;
    rewrite ?app_nil_r; [right|left]; [|tauto].
  apply Z.ltb_lt in Hlt. tauto.
Qed.

Lemma crypto_within acts s s' :
  within reconnectAttempts s -> exec acts s = Some s' -> within reconnectAttempts s'.
Proof.
  apply Runs.run_invariant.
  - intros c s0. apply within_settles, crypto_calls_settle.
  - intros e s0 s1. apply within_fire.
    + apply crypto_onopen_settles.
    + apply crypto_onmessage_settles.
    + unfold socket_handlers; cbn. keeps_with settle.
    + apply crypto_onclose_backs_off.
    + intros symbols. apply (crypto_calls_settle (ConnectMarketData symbols)).
Qed.
End Crypto.

Section Rithmic.
Import RithmicAPI.

Lemma rithmic_calls_settle c : keeps (settles reconnectAttempts) (invoke c).
Proof. destruct c; keeps_with settle. Qed.

Lemma rithmic_onopen_settles : keeps (settles reconnectAttempts) websocket_onopen.
Proof. keeps_with settle. Qed.

Lemma rithmic_onmessage_settles f :
  keeps (settles reconnectAttempts) (websocket_onmessage f).
Proof. keeps_with settle. Qed.

Lemma rithmic_onclose_backs_off s :
  backs_off reconnectAttempts s (handled websocket_onclose s).
Proof.
  pose proof (Backoff.rithmic_onclose s) as H. cbv zeta in H.
  unfold backs_off, handled.
  destruct (reconnectAttempts (adapter s) <? 5) eqn:Hlt; [right|left]; [|exact H].
  apply Z.ltb_lt in Hlt. tauto.
Qed.

Lemma rithmic_within acts s s' :
  within reconnectAttempts s -> exec acts s = Some s' -> within reconnectAttempts s'.
Proof.
  apply Runs.run_invariant.
  - intros c s0. apply within_settles, rithmic_calls_settle.
  - intros e s0 s1. apply within_fire.
    + intros ?. apply rithmic_onopen_settles.
    + apply rithmic_onmessage_settles.
    + unfold socket_handlers; cbn. keeps_with settle.
    + intros ?. apply rithmic_onclose_backs_off.
    + intros ?. apply (rithmic_calls_settle Connect).
Qed.
End Rithmic.

(** A fresh instance is within the range when no timer was armed in its
    browser before. *)
Lemma fresh_within {A} (attempts : A -> Z) (a : A) w :
  attempts a = 0 -> timeouts (effects w) = [] -> within attempts (Sys a w).
Proof.
  intros Ha Hw. split; cbn; [lia|]. unfold delays. cbn. rewrite Hw. constructor.
Qed.

(** Along every run of calls and events, of every adapter, the attempt
    counter stays between 0 and 5 and every timer that is armed waits
    2000, 4000, 8000, 16000 or 32000 ms. *)
Theorem reconnection_stays_in_range :
  (forall acts s s',
     within TradingAPI.reconnectAttempts s -> TradingAPI.exec acts s = Some s' ->
     within TradingAPI.reconnectAttempts s') /\
  (forall acts s s',
     within CryptoAPI.reconnectAttempts s -> CryptoAPI.exec acts s = Some s' ->
     within CryptoAPI.reconnectAttempts s') /\
  (forall acts s s',
     within RithmicAPI.reconnectAttempts s -> RithmicAPI.exec acts s = Some s' ->
     within RithmicAPI.reconnectAttempts s').
Proof.
  split; [|split].
  - apply trading_within.
  - apply crypto_within.
  - apply rithmic_within.
Qed.

(** Two sessions of a fresh polygon client fail one after the other, the
    second one after a successful reopen. *)
Definition flaky : list (action TradingAPI.call) :=
  [Api (TradingAPI.Configure Samples.polygon_live);
   Api (TradingAPI.ConnectMarketData ["SPY"]);
   Env (EvOpen 0); Env (EvClose 0); Env (EvTimeout 0);
   Env (EvOpen 1); Env (EvClose 1)].

Lemma reconnection_stays_in_range_witness :
  exists s', TradingAPI.exec flaky (TradingAPI.start empty_world) = Some s' /\
             within TradingAPI.reconnectAttempts s' /\ delays s' = [2000; 2000].
Proof.
  eexists. split; [vm_compute; reflexivity|]. split; [|vm_compute; reflexivity].
  eapply (proj1 reconnection_stays_in_range flaky (TradingAPI.start empty_world)).
  - apply fresh_within; reflexivity.
  - vm_compute. reflexivity.
Defined.

End Range.

(** ** Reconnection after [disconnect] *)

Module Revival.
Import Sessions.

(** What the UI and the browser do, in this order: [disconnect()], the
    close event of the socket [i] that [disconnect] closed, and the timer
    [k] that the close handler armed. *)
Definition revival {C} (disconnect : C) (i k : nat) : list (action C) :=
  [Api disconnect; Env (EvClose i); Env (EvTimeout k)].

(** The adapter holds socket [i], which has not been closed yet. *)
Definition holds {A} (held : A -> option nat) (s : sys A) (i : nat) (w : socket) : Prop :=
  held (adapter s) = Some i /\ sockets (world s) !! i = Some w /\
  ws_readyState w <> CLOSED.

(** The state after a run that opened a session anew: the adapter holds a
    socket that did not exist in [s], which is connecting to [url] for
    [symbols], and the timer of the reconnection has been armed. *)
Definition revived {A} (held : A -> option nat) (attempts : A -> Z)
    (s s' : sys A) (symbols : list string) : Prop :=
  let j := length (sockets (world s)) in
  held (adapter s') = Some j /\
  (exists url, sockets (world s') !! j = Some (Socket url CONNECTING symbols)) /\
  delays s' = delays s ++ [2 ^ (attempts (adapter s) + 1) * 1000].

Lemma closing_not_closed w : ws_readyState w <> CLOSED ->
  ws_readyState (close_socket w) <> CLOSED.
Proof.
  unfold close_socket, live.
  destruct (ws_readyState w) eqn:E; cbn; rewrite ?E; congruence.
Qed.

Lemma fire_close {A} (h : handlers A) i s w :
  sockets (world s) !! i = Some w -> ws_readyState w <> CLOSED ->
  fire h (EvClose i) s =
    Some (handled (onclose h (ws_symbols w)) (set_ready i CLOSED s)).
Proof. intros Hi Hr. cbn. rewrite Hi. now destruct (ws_readyState w). Qed.

Lemma fire_timeout {A} (h : handlers A) k s d symbols :
  timers (world s) !! k = Some (d, symbols) ->
  fire h (EvTimeout k) s = Some (handled (ontimeout h symbols) (drop_timer k s)).
Proof. intros Hk. cbn. now rewrite Hk. Qed.

Lemma closed_symbols w : ws_symbols (close_socket w) = ws_symbols w.
Proof. unfold close_socket. now destruct (live w). Qed.

Lemma lookup_snoc {X} (l : list X) (x : X) : (l ++ [x]) !! length l = Some x.
Proof. rewrite lookup_app_r by lia. now rewrite Nat.sub_diag. Qed.

Section Trading.
Import TradingAPI.

Lemma trading_revival s c i w :
  config (adapter s) = Some c -> In (name c) brokers ->
  holds websocket s i w ->
  reconnectAttempts (adapter s) < 5 ->
  exists s',
    exec (revival Disconnect i (length (timers (world s)))) s = Some s' /\
    revived websocket reconnectAttempts s s' (ws_symbols w) /\
    marketDataCallbacks (adapter s') = [].
Proof.
  intros Hc Hn (Hh & Hi & Hr) Hlt. apply Z.ltb_lt in Hlt.
  destruct s as [[cfg ws mcb ocb n] w0]. cbn in Hc, Hh, Hi, Hlt. subst cfg ws.
  unfold exec, revival. cbn [run step].
  set (s1 := handled (invoke Disconnect) _).
  assert (H1 : sockets (world s1) !! i = Some (close_socket w))
    by (cbn; now rewrite list_lookup_alter_eq, Hi).
  rewrite (fire_close _ i s1 _ H1 (closing_not_closed w Hr)), closed_symbols.
  set (s2 := handled (onclose _ _) _).
  assert (H2 : timers (world s2) !! length (timers w0) =
               Some (2 ^ (n + 1) * 1000, ws_symbols w)).
  { subst s2 s1. unfold handled. cbn. unfold maxReconnectAttempts. rewrite Hlt.
    cbn. apply lookup_snoc. }
  rewrite (fire_timeout _ _ s2 _ _ H2).
  eexists. split; [reflexivity|].
  assert (Hcfg : config (adapter (drop_timer (length (timers w0)) s2)) = Some c).
  { subst s2 s1. unfold handled. cbn. unfold maxReconnectAttempts. now rewrite Hlt. }
  assert (Hlen : length (sockets (world (drop_timer (length (timers w0)) s2))) =
                 length (sockets w0)).
  { subst s2 s1. unfold handled. cbn. unfold maxReconnectAttempts. rewrite Hlt.
    cbn. now rewrite !length_alter. }
  assert (Hmcb : marketDataCallbacks (adapter (drop_timer (length (timers w0)) s2)) = []).
  { subst s2 s1. unfold handled. cbn. unfold maxReconnectAttempts. now rewrite Hlt. }
  assert (Hd : delays (drop_timer (length (timers w0)) s2) =
               timeouts (effects w0) ++ [2 ^ (n + 1) * 1000]).
  { subst s2 s1. unfold closed_held, delays, timeouts, handled. cbn.
    unfold maxReconnectAttempts. rewrite Hlt. cbn.
    rewrite !omap_app. cbn. now rewrite !app_nil_r. }
  cbn [ontimeout socket_handlers]. unfold handled.
  destruct (trading_connect_supported _ c (ws_symbols w) Hcfg Hn) as [url ->].
  rewrite Hlen. cbn [snd adapter]. split; [|exact Hmcb].
  split; [reflexivity|]. split.
  - exists url. cbn [world sockets emit set_sockets].
    rewrite <- Hlen, <- (length_closed_held websocket). apply lookup_snoc.
  - unfold delays in *. cbn [world effects emit set_sockets].
    unfold closed_held.
    destruct (websocket (adapter (drop_timer (length (timers w0)) s2)));
      cbn [world effects emit set_sockets]; unfold timeouts in *;
      rewrite !omap_app, Hd; cbn; now rewrite !app_nil_r.
Qed.
End Trading.
Section Crypto.
Import CryptoAPI.

Lemma crypto_revival s c i w :
  config (adapter s) = Some c -> In (name c) exchanges ->
  holds websocket s i w ->
  reconnectAttempts (adapter s) < 5 ->
  exists s',
    exec (revival Disconnect i (length (timers (world s)))) s = Some s' /\
    revived websocket reconnectAttempts s s' (ws_symbols w) /\
    marketDataCallbacks (adapter s') = [].
Proof.
  intros Hc Hn (Hh & Hi & Hr) Hlt. apply Z.ltb_lt in Hlt.
  destruct s as [[cfg ws mcb ocb n] w0]. cbn in Hc, Hh, Hi, Hlt. subst cfg ws.
  unfold exec, revival. cbn [run step].
  set (s1 := handled (invoke Disconnect) _).
  assert (H1 : sockets (world s1) !! i = Some (close_socket w))
    by (cbn; now rewrite list_lookup_alter_eq, Hi).
  rewrite (fire_close _ i s1 _ H1 (closing_not_closed w Hr)), closed_symbols.
  set (s2 := handled (onclose _ _) _).
  assert (H2 : timers (world s2) !! length (timers w0) =
               Some (2 ^ (n + 1) * 1000, ws_symbols w)).
  { subst s2 s1. unfold handled. cbn. unfold maxReconnectAttempts. rewrite Hlt.
    cbn. apply lookup_snoc. }
  rewrite (fire_timeout _ _ s2 _ _ H2).
  eexists. split; [reflexivity|].
  assert (Hcfg : config (adapter (drop_timer (length (timers w0)) s2)) = Some c).
  { subst s2 s1. unfold handled. cbn. unfold maxReconnectAttempts. now rewrite Hlt. }
  assert (Hlen : length (sockets (world (drop_timer (length (timers w0)) s2))) =
                 length (sockets w0)).
  { subst s2 s1. unfold handled. cbn. unfold maxReconnectAttempts. rewrite Hlt.
    cbn. now rewrite !length_alter. }
  assert (Hmcb : marketDataCallbacks (adapter (drop_timer (length (timers w0)) s2)) = []).
  { subst s2 s1. unfold handled. cbn. unfold maxReconnectAttempts. now rewrite Hlt. }
  assert (Hd : delays (drop_timer (length (timers w0)) s2) =
               timeouts (effects w0) ++ [2 ^ (n + 1) * 1000]).
  { subst s2 s1. unfold closed_held, delays, timeouts, handled. cbn.
    unfold maxReconnectAttempts. rewrite Hlt. cbn.
    rewrite !omap_app. cbn. now rewrite !app_nil_r. }
  cbn [ontimeout socket_handlers]. unfold handled.
  destruct (crypto_connect_supported _ c (ws_symbols w) Hcfg Hn) as [url ->].
  rewrite Hlen. cbn [snd adapter]. split; [|exact Hmcb].
  split; [reflexivity|]. split.
  - exists url. cbn [world sockets emit set_sockets].
    rewrite <- Hlen, <- (length_closed_held websocket). apply lookup_snoc.
  - unfold delays in *. cbn [world effects emit set_sockets].
    unfold closed_held.
    destruct (websocket (adapter (drop_timer (length (timers w0)) s2)));
      cbn [world effects emit set_sockets]; unfold timeouts in *;
      rewrite !omap_app, Hd; cbn; now rewrite !app_nil_r.
Qed.
End Crypto.

Section Rithmic.
Import RithmicAPI.

Lemma rithmic_revival s c i w :
  config (adapter s) = Some c ->
  holds websocket s i w ->
  reconnectAttempts (adapter s) < 5 ->
  exists s',
    exec (revival Disconnect i (length (timers (world s)))) s = Some s' /\
    revived websocket reconnectAttempts s s' [] /\
    marketDataCallbacks (adapter s') = [] /\ connected (adapter s') = false.
Proof.
  intros Hc (Hh & Hi & Hr) Hlt. apply Z.ltb_lt in Hlt.
  destruct s as [[cfg ws acb mcb ocb co n] w0]. cbn in Hc, Hh, Hi, Hlt. subst cfg ws.
  unfold exec, revival. cbn [run step].
  set (s1 := handled (invoke Disconnect) _).
  assert (H1 : sockets (world s1) !! i = Some (close_socket w))
    by (cbn; now rewrite list_lookup_alter_eq, Hi).
  rewrite (fire_close _ i s1 _ H1 (closing_not_closed w Hr)).
  set (s2 := handled (onclose _ _) _).
  assert (H2 : timers (world s2) !! length (timers w0) = Some (2 ^ (n + 1) * 1000, [])).
  { subst s2 s1. unfold handled. cbn. unfold maxReconnectAttempts. rewrite Hlt.
    cbn. apply lookup_snoc. }
  rewrite (fire_timeout _ _ s2 _ _ H2).
  eexists. split; [reflexivity|].
  assert (Hcfg : config (adapter (drop_timer (length (timers w0)) s2)) = Some c).
  { subst s2 s1. unfold handled. cbn. unfold maxReconnectAttempts. now rewrite Hlt. }
  assert (Hlen : length (sockets (world (drop_timer (length (timers w0)) s2))) =
                 length (sockets w0)).
  { subst s2 s1. unfold handled. cbn. unfold maxReconnectAttempts. rewrite Hlt.
    cbn. now rewrite !length_alter. }
  assert (Hmcb : marketDataCallbacks (adapter (drop_timer (length (timers w0)) s2)) = [] /\
                 connected (adapter (drop_timer (length (timers w0)) s2)) = false).
  { subst s2 s1. unfold handled. cbn. unfold maxReconnectAttempts. now rewrite Hlt. }
  assert (Hd : delays (drop_timer (length (timers w0)) s2) =
               timeouts (effects w0) ++ [2 ^ (n + 1) * 1000]).
  { subst s2 s1. unfold closed_held, delays, timeouts, handled. cbn.
    unfold maxReconnectAttempts. rewrite Hlt. cbn.
    rewrite !omap_app. cbn. now rewrite !app_nil_r. }
  cbn [ontimeout socket_handlers]. unfold handled.
  destruct (rithmic_connect_configured _ c Hcfg) as [url ->].
  rewrite Hlen. cbn [snd adapter]. split; [|exact Hmcb].
  split; [reflexivity|]. split.
  - exists url. cbn [world sockets emit set_sockets].
    rewrite <- Hlen, <- (length_closed_held websocket). apply lookup_snoc.
  - unfold delays in *. cbn [world effects emit set_sockets].
    unfold closed_held.
    destruct (websocket (adapter (drop_timer (length (timers w0)) s2)));
      cbn [world effects emit set_sockets]; unfold timeouts in *;
      rewrite !omap_app, Hd; cbn; now rewrite !app_nil_r.
Qed.
End Rithmic.

(** [disconnect()] does not end the reconnection.  Of every adapter, when
    the instance is configured (for a venue it supports), holds a socket
    that has not been closed yet and has made fewer than five attempts:
    after [disconnect()], the close event of that socket arms the next
    timer of the backoff, and when the timer fires the adapter opens and
    holds a new socket, for the symbols of the old one, with no callback
    registered. *)
Theorem disconnect_is_followed_by_reconnection :
  (forall s c i w,
     TradingAPI.config (adapter s) = Some c -> In (TradingAPI.name c) brokers ->
     holds TradingAPI.websocket s i w ->
     TradingAPI.reconnectAttempts (adapter s) < 5 ->
     exists s',
       TradingAPI.exec (revival TradingAPI.Disconnect i (length (timers (world s)))) s
         = Some s' /\
       revived TradingAPI.websocket TradingAPI.reconnectAttempts s s' (ws_symbols w) /\
       TradingAPI.marketDataCallbacks (adapter s') = []) /\
  (forall s c i w,
     CryptoAPI.config (adapter s) = Some c -> In (CryptoAPI.name c) exchanges ->
     holds CryptoAPI.websocket s i w ->
     CryptoAPI.reconnectAttempts (adapter s) < 5 ->
     exists s',
       CryptoAPI.exec (revival CryptoAPI.Disconnect i (length (timers (world s)))) s
         = Some s' /\
       revived CryptoAPI.websocket CryptoAPI.reconnectAttempts s s' (ws_symbols w) /\
       CryptoAPI.marketDataCallbacks (adapter s') = []) /\
  (forall s c i w,
     RithmicAPI.config (adapter s) = Some c ->
     holds RithmicAPI.websocket s i w ->
     RithmicAPI.reconnectAttempts (adapter s) < 5 ->
     exists s',
       RithmicAPI.exec (revival RithmicAPI.Disconnect i (length (timers (world s)))) s
         = Some s' /\
       revived RithmicAPI.websocket RithmicAPI.reconnectAttempts s s' [] /\
       RithmicAPI.marketDataCallbacks (adapter s') = [] /\
       RithmicAPI.connected (adapter s') = false).
Proof.
  split; [|split].
  - apply trading_revival.
  - apply crypto_revival.
  - apply rithmic_revival.
Qed.

(** A polygon client that is streaming SPY. *)
Definition streaming_spy : sys TradingAPI.t :=
  let s0 := TradingAPI.start empty_world in
  default s0
    (TradingAPI.exec
       [Api (TradingAPI.Configure Samples.polygon_live);
        Api (TradingAPI.ConnectMarketData ["SPY"]); Env (EvOpen 0)] s0).

Lemma disconnect_is_followed_by_reconnection_witness :
  exists s',
    TradingAPI.exec (revival TradingAPI.Disconnect 0 0) streaming_spy = Some s' /\
    revived TradingAPI.websocket TradingAPI.reconnectAttempts streaming_spy s' ["SPY"].
Proof.
  destruct (proj1 disconnect_is_followed_by_reconnection streaming_spy
              Samples.polygon_live 0%nat
              (Socket "wss://socket.polygon.io/stocks" OPEN ["SPY"]))
    as (s' & Hrun & Hrev & _).
  - reflexivity.
  - cbn. auto.
  - split; [reflexivity|]. split; [reflexivity|]. discriminate.
  - vm_compute. reflexivity.
  - exists s'. split; [exact Hrun | exact Hrev].
Defined.

End Revival.

(** ** The registry of callbacks *)

Module Registry.

(** The callbacks invoked so far, oldest first. *)
Definition invoked {A} (s : sys A) : list (nat * term) := calls (effects (world s)).

Section Lists.
Context {A : Type} (registered : A -> list callback).

(** While nothing is registered in the list, it stays empty and no
    callback is invoked. *)
Definition mute : relation (sys A) := fun s s' =>
  registered (adapter s) = [] ->
  registered (adapter s') = [] /\ invoked s' = invoked s.

#[export] Instance mute_preorder : PreOrder mute.
Proof.
  split.
  - intros s H. auto.
  - intros s1 s2 s3 H12 H23 H1. destruct (H12 H1) as [H2 E12].
    destruct (H23 H2) as [H3 E23]. split; [exact H3 | congruence].
Qed.

(** What was registered is still registered, in the same order and
    before anything that came later. *)
Definition grows : relation (sys A) := fun s s' =>
  registered (adapter s) `prefix_of` registered (adapter s').

#[export] Instance grows_preorder : PreOrder grows.
Proof.
  split.
  - intros s. unfold grows. reflexivity.
  - intros s1 s2 s3 H12 H23. unfold grows in *. etransitivity; eassumption.
Qed.

Lemma mute_fetch rq : keeps mute (fetch rq).
Proof.
  intros [a w] H. unfold fetch, invoked, calls. cbn.
  destruct (network w) as [|[r|] rest]; cbn; rewrite omap_app; cbn;
    now rewrite app_nil_r.
Qed.

Lemma grows_fetch rq : keeps grows (fetch rq).
Proof.
  intros [a w]. unfold fetch, grows. cbn.
  now destruct (network w) as [|[r|] rest].
Qed.
End Lists.

(** An update that registers nothing and calls nothing. *)
Ltac quiet :=
  let a := fresh "a" in
  let w := fresh "w" in
  let H := fresh "H" in
  first
    [ apply mute_fetch
    | intros [a w] H; split;
      [ cbn in *; first [ exact H | reflexivity ]
      | unfold invoked, calls; cbn; rewrite ?omap_app; cbn;
        rewrite ?app_nil_r; reflexivity ] ].

(** An update that leaves the list alone. *)
Ltac stays :=
  let a := fresh "a" in
  let w := fresh "w" in
  first [ apply grows_fetch | intros [a w]; unfold grows; cbn; reflexivity ].

Section Trading.
Import TradingAPI.

Lemma trading_tick_mute data : keeps (mute marketDataCallbacks) (handleMarketDataMessage data).
Proof.
  intros [a w] H. cbn in H. unfold handleMarketDataMessage, bind, gets, lift, ret. cbn.
  destruct (config a) as [c|]; cbn; [|auto].
  destruct (normalize c data) as [[tick|]|e]; cbn; rewrite ?H; cbn; auto.
Qed.

Lemma trading_onmessage_mute f :
  keeps (mute marketDataCallbacks) (websocket_onmessage f).
Proof.
  unfold websocket_onmessage.
  apply (keeps_try_catch _); [|intros ?; keeps_with quiet].
  apply (keeps_bind _); [apply (keeps_lift _) | intros data; apply trading_tick_mute].
Qed.

Definition subscribes (a : action call) : bool :=
  match a with
  | Api (OnMarketData _) => true
  | _ => false
  end.

Lemma trading_calls_mute c :
  subscribes (Api c) = false -> keeps (mute marketDataCallbacks) (invoke c).
Proof. destruct c; try discriminate; intros _; keeps_with quiet. Qed.

Lemma trading_fire_mute e s s' :
  fire socket_handlers e s = Some s' -> mute marketDataCallbacks s s'.
Proof.
  apply (Runs.fire_keeps (mute marketDataCallbacks) socket_handlers).
  - intros i r s0 H. auto.
  - intros k s0 H. auto.
  - intros t s0 H. auto.
  - intros symbols. cbn. keeps_with quiet.
  - apply trading_onmessage_mute.
  - cbn. keeps_with quiet.
  - intros symbols. cbn. keeps_with quiet.
  - intros symbols. apply (trading_calls_mute (ConnectMarketData symbols)). reflexivity.
Qed.

Lemma trading_mute acts : forall s s',
  forallb (fun a => negb (subscribes a)) acts = true ->
  exec acts s = Some s' -> mute marketDataCallbacks s s'.
Proof.
  induction acts as [|a acts IH]; intros s s' Hacts Hrun.
  - cbn in Hrun. injection Hrun as <-. reflexivity.
  - cbn in Hacts. apply andb_prop in Hacts as [Ha Hacts]. apply negb_true_iff in Ha.
    unfold exec in Hrun. cbn [run] in Hrun.
    destruct (step invoke socket_handlers a s) as [s1|] eqn:Hs; [|discriminate].
    transitivity s1; [|now apply IH].
    destruct a as [c|e]; cbn in Hs.
    + injection Hs as <-. now apply trading_calls_mute.
    + now apply (trading_fire_mute e).
Qed.
End Trading.
Section Crypto.
Import CryptoAPI.

Lemma crypto_tick_mute data : keeps (mute marketDataCallbacks) (handleMarketDataMessage data).
Proof.
  intros [a w] H. cbn in H.
  unfold handleMarketDataMessage, bind, gets, lift, ret, date_now, ask_world. cbn.
  destruct (config a) as [c|]; cbn; [|auto].
  destruct (normalize c (now w) data) as [[tick|]|e]; cbn; rewrite ?H; cbn; auto.
Qed.

Lemma crypto_onmessage_mute f :
  keeps (mute marketDataCallbacks) (websocket_onmessage f).
Proof.
  unfold websocket_onmessage.
  apply (keeps_try_catch _); [|intros ?; keeps_with quiet].
  apply (keeps_bind _); [apply (keeps_lift _) | intros data; apply crypto_tick_mute].
Qed.

Definition crypto_subscribes (a : action call) : bool :=
  match a with
  | Api (OnMarketData _) => true
  | _ => false
  end.

Lemma crypto_calls_mute c :
  crypto_subscribes (Api c) = false -> keeps (mute marketDataCallbacks) (invoke c).
Proof. destruct c; try discriminate; intros _; keeps_with quiet. Qed.

Lemma crypto_fire_mute e s s' :
  fire socket_handlers e s = Some s' -> mute marketDataCallbacks s s'.
Proof.
  apply (Runs.fire_keeps (mute marketDataCallbacks) socket_handlers).
  - intros i r s0 H. auto.
  - intros k s0 H. auto.
  - intros t s0 H. auto.
  - intros symbols. cbn. keeps_with quiet.
  - apply crypto_onmessage_mute.
  - cbn. keeps_with quiet.
  - intros symbols. cbn. keeps_with quiet.
  - intros symbols. apply (crypto_calls_mute (ConnectMarketData symbols)). reflexivity.
Qed.

Lemma crypto_mute acts : forall s s',
  forallb (fun a => negb (crypto_subscribes a)) acts = true ->
  exec acts s = Some s' -> mute marketDataCallbacks s s'.
Proof.
  induction acts as [|a acts IH]; intros s s' Hacts Hrun.
  - cbn in Hrun. injection Hrun as <-. reflexivity.
  - cbn in Hacts. apply andb_prop in Hacts as [Ha Hacts]. apply negb_true_iff in Ha.
    unfold exec in Hrun. cbn [run] in Hrun.
    destruct (step invoke socket_handlers a s) as [s1|] eqn:Hs; [|discriminate].
    transitivity s1; [|now apply IH].
    destruct a as [c|e]; cbn in Hs.
    + injection Hs as <-. now apply crypto_calls_mute.
    + now apply (crypto_fire_mute e).
Qed.
End Crypto.

(** [TradingAPI] and [CryptoAPI] never invoke a callback registered with
    [onOrderUpdate]: from a state in which no market-data callback is
    registered, along a run in which none is registered either, whatever
    else is called (with [onOrderUpdate] among it) and whatever the venue
    sends, no callback is invoked. *)
Theorem order_update_callbacks_are_never_invoked :
  (forall acts s s',
     TradingAPI.marketDataCallbacks (adapter s) = [] ->
     forallb (fun a => negb (subscribes a)) acts = true ->
     TradingAPI.exec acts s = Some s' -> invoked s' = invoked s) /\
  (forall acts s s',
     CryptoAPI.marketDataCallbacks (adapter s) = [] ->
     forallb (fun a => negb (crypto_subscribes a)) acts = true ->
     CryptoAPI.exec acts s = Some s' -> invoked s' = invoked s).
Proof.
  split; intros acts s s' Hs Hacts Hrun.
  - now apply (trading_mute acts s s' Hacts Hrun).
  - now apply (crypto_mute acts s s' Hacts Hrun).
Qed.

(** A callback that returns. *)
Definition blotter : callback := {| cb_id := 7; cb_run := fun _ => None |}.

(** A trade of AAPL as polygon reports it. *)
Definition aapl_trade : frame :=
  Text (Some (VObj [("ev", VStr "T"); ("sym", VStr "AAPL"); ("p", num 190);
                    ("s", num 100); ("t", num 1700000000)])).

(** The order blotter registers for order updates and the stream
    delivers a trade. *)
Definition blotter_session : list (action TradingAPI.call) :=
  [Api (TradingAPI.Configure Samples.polygon_live);
   Api (TradingAPI.OnOrderUpdate blotter);
   Api (TradingAPI.ConnectMarketData ["AAPL"]);
   Env (EvOpen 0); Env (EvMessage 0 aapl_trade)].

Lemma order_update_callbacks_are_never_invoked_witness :
  exists s',
    TradingAPI.exec blotter_session (TradingAPI.start empty_world) = Some s' /\
    TradingAPI.orderUpdateCallbacks (adapter s') = [blotter] /\
    invoked s' = [].
Proof.
  eexists. split; [vm_compute; reflexivity|]. split; [vm_compute; reflexivity|].
  apply (proj1 order_update_callbacks_are_never_invoked blotter_session
           (TradingAPI.start empty_world)).
  - reflexivity.
  - reflexivity.
  - vm_compute. reflexivity.
Defined.

(** *** Registrations are kept *)

Section Kept.
Context {A C : Type} (invoke : C -> M A unit) (h : handlers A).
Context (registered : A -> list callback) (leaves : action C -> bool).

Hypothesis calls_grow : forall c, leaves (Api c) = false -> keeps (grows registered) (invoke c).
Hypothesis events_grow : forall e s s', fire h e s = Some s' -> grows registered s s'.

Lemma run_grows acts : forall s s',
  forallb (fun a => negb (leaves a)) acts = true ->
  run invoke h acts s = Some s' -> grows registered s s'.
Proof.
  induction acts as [|a acts IH]; intros s s' Hacts Hrun.
  - cbn in Hrun. injection Hrun as <-. reflexivity.
  - cbn in Hacts. apply andb_prop in Hacts as [Ha Hacts]. apply negb_true_iff in Ha.
    cbn [run] in Hrun.
    destruct (step invoke h a s) as [s1|] eqn:Hs; [|discriminate].
    transitivity s1; [|now apply IH].
    destruct a as [c|e]; cbn in Hs.
    + injection Hs as <-. now apply calls_grow.
    + now apply (events_grow e).
Qed.
End Kept.

(** A registration: the callback goes to the end of its list. *)
Ltac appended :=
  let a := fresh "a" in
  let w := fresh "w" in
  intros [a w]; unfold grows; cbn; first [ reflexivity | apply prefix_app_r; reflexivity ].

Ltac grows_fire h :=
  apply (Runs.fire_keeps _ h);
    [ intros ? ? ?; unfold grows; reflexivity
    | intros ? ?; unfold grows; reflexivity
    | intros ? ?; unfold grows; reflexivity
    | intros ?; cbn; keeps_with stays
    | intros ?; cbn; keeps_with stays
    | cbn; keeps_with stays
    | intros ?; cbn; keeps_with stays
    | intros ?; cbn; keeps_with stays ].

Section TradingKept.
Import TradingAPI.

Definition trading_leaves (a : action call) : bool :=
  match a with
  | Api Disconnect => true
  | _ => false
  end.

Lemma trading_calls_grow (f : t -> list callback) c :
  f = marketDataCallbacks \/ f = orderUpdateCallbacks ->
  trading_leaves (Api c) = false -> keeps (grows f) (invoke c).
Proof.
  intros [-> | ->]; destruct c; try discriminate; intros _;
    try (solve [unfold invoke, onMarketData, onOrderUpdate, bind, gets, modify; appended]);
    keeps_with stays.
Qed.

Lemma trading_fire_grows (f : t -> list callback) e s s' :
  f = marketDataCallbacks \/ f = orderUpdateCallbacks ->
  fire socket_handlers e s = Some s' -> grows f s s'.
Proof. intros [-> | ->]; grows_fire socket_handlers. Qed.
End TradingKept.

Section CryptoKept.
Import CryptoAPI.

Definition crypto_leaves (a : action call) : bool :=
  match a with
  | Api Disconnect => true
  | _ => false
  end.

Lemma crypto_calls_grow (f : t -> list callback) c :
  f = marketDataCallbacks \/ f = orderUpdateCallbacks ->
  crypto_leaves (Api c) = false -> keeps (grows f) (invoke c).
Proof.
  intros [-> | ->]; destruct c; try discriminate; intros _;
    try (solve [unfold invoke, onMarketData, onOrderUpdate, bind, gets, modify; appended]);
    keeps_with stays.
Qed.

Lemma crypto_fire_grows (f : t -> list callback) e s s' :
  f = marketDataCallbacks \/ f = orderUpdateCallbacks ->
  fire socket_handlers e s = Some s' -> grows f s s'.
Proof. intros [-> | ->]; grows_fire socket_handlers. Qed.
End CryptoKept.

Section RithmicKept.
Import RithmicAPI.

Definition rithmic_leaves (a : action call) : bool :=
  match a with
  | Api Disconnect => true
  | _ => false
  end.

Lemma rithmic_calls_grow (f : t -> list callback) c :
  f = accountUpdateCallbacks \/ f = marketDataCallbacks \/ f = orderUpdateCallbacks ->
  rithmic_leaves (Api c) = false -> keeps (grows f) (invoke c).
Proof.
  intros [-> | [-> | ->]]; destruct c; try discriminate; intros _;
    try (solve [unfold invoke, onAccountUpdate, onMarketData, onOrderUpdate,
                  bind, gets, modify; appended]);
    keeps_with stays.
Qed.

Lemma rithmic_fire_grows (f : t -> list callback) e s s' :
  f = accountUpdateCallbacks \/ f = marketDataCallbacks \/ f = orderUpdateCallbacks ->
  fire socket_handlers e s = Some s' -> grows f s s'.
Proof. intros [-> | [-> | ->]]; grows_fire socket_handlers. Qed.
End RithmicKept.

(** Registration only appends.  Along a run without [disconnect()], of
    every adapter, each list of callbacks at the start is an initial
    segment of the list at the end: no call and no event removes,
    replaces or reorders a callback, and a second registration of the
    same function adds a second entry. *)
Theorem registrations_are_kept :
  (forall acts s s',
     forallb (fun a => negb (trading_leaves a)) acts = true ->
     TradingAPI.exec acts s = Some s' ->
     grows TradingAPI.marketDataCallbacks s s' /\
     grows TradingAPI.orderUpdateCallbacks s s') /\
  (forall acts s s',
     forallb (fun a => negb (crypto_leaves a)) acts = true ->
     CryptoAPI.exec acts s = Some s' ->
     grows CryptoAPI.marketDataCallbacks s s' /\
     grows CryptoAPI.orderUpdateCallbacks s s') /\
  (forall acts s s',
     forallb (fun a => negb (rithmic_leaves a)) acts = true ->
     RithmicAPI.exec acts s = Some s' ->
     grows RithmicAPI.accountUpdateCallbacks s s' /\
     grows RithmicAPI.marketDataCallbacks s s' /\
     grows RithmicAPI.orderUpdateCallbacks s s').
Proof.
  split; [|split]; intros acts s s' Hacts Hrun.
  - split;
      (apply (run_grows TradingAPI.invoke TradingAPI.socket_handlers _ trading_leaves)
         with (acts := acts);
       [ intros c Hc; apply trading_calls_grow; auto
       | intros e s0 s1 Hf; apply (trading_fire_grows _ e); auto
       | exact Hacts | exact Hrun ]).
  - split;
      (apply (run_grows CryptoAPI.invoke CryptoAPI.socket_handlers _ crypto_leaves)
         with (acts := acts);
       [ intros c Hc; apply crypto_calls_grow; auto
       | intros e s0 s1 Hf; apply (crypto_fire_grows _ e); auto
       | exact Hacts | exact Hrun ]).
  - split; [|split];
      (apply (run_grows RithmicAPI.invoke RithmicAPI.socket_handlers _ rithmic_leaves)
         with (acts := acts);
       [ intros c Hc; apply rithmic_calls_grow; auto
       | intros e s0 s1 Hf; apply (rithmic_fire_grows _ e); auto
       | exact Hacts | exact Hrun ]).
Qed.

(** The chart registers on every render: two renders, two entries. *)
Definition renders : list (action TradingAPI.call) :=
  [Api (TradingAPI.OnMarketData blotter); Api (TradingAPI.Configure Samples.polygon_live);
   Api (TradingAPI.OnMarketData blotter)].

Lemma registrations_are_kept_witness :
  exists s',
    TradingAPI.exec renders (TradingAPI.start empty_world) = Some s' /\
    grows TradingAPI.marketDataCallbacks (TradingAPI.start empty_world) s' /\
    TradingAPI.marketDataCallbacks (adapter s') = [blotter; blotter].
Proof.
  eexists. split; [vm_compute; reflexivity|]. split; [|vm_compute; reflexivity].
  apply (proj1 registrations_are_kept renders (TradingAPI.start empty_world)).
  - reflexivity.
  - vm_compute. reflexivity.
Defined.

End Registry.

(** ** The session of the Rithmic client *)

Module RithmicSession.
Import RithmicAPI.
Import Backoff RithmicOrders Runs.

(** The login request of [authenticate]. *)
Definition loginMessage (c : RithmicConfig) : term :=
  TObj [("template_id", TInt 10);
        ("user_msg",
         TArr [TStr (username c); TStr (password c); TStr (systemName c);
               TStr (appName c); TStr (appVersion c)])].

(** The request of [requestAccountInfo]. *)
Definition accountRequest : term :=
  TObj [("template_id", TInt 200); ("user_msg", TArr [])].

Lemma frames_sent msg s i :
  open_socket s = Some i -> frames (sent msg s) = frames s ++ [(i, msg)].
Proof. intros H. unfold sent. rewrite H. destruct s. now rewrite frames_emit. Qed.

(** What the handler of a message does with an accepted login response. *)
Lemma accepted_login_run f s :
  accepted_login f = true ->
  websocket_onmessage f s =
    (Ok tt,
     sent accountRequest
       (Sys (set_reconnectAttempts 0 (set_connected true (adapter s)))
            (emit (EConsole "Rithmic login successful") (world s)))).
Proof.
  intros Hacc. unfold accepted_login in Hacc.
  destruct (parseMessage f) as [message|] eqn:Hm; [|discriminate].
  destruct (get message "template_id") as [template_id|] eqn:Ht; [|discriminate].
  apply andb_prop in Hacc as [H11 Hl].
  destruct (login_ok message) as [b|] eqn:Hb; [|discriminate]. subst b.
  unfold login_ok in Hb.
  destruct (get message "rp_code") as [rp_code|] eqn:Hrp; [|discriminate].
  cbn in Hb.
  unfold websocket_onmessage.
  apply try_ok.
  rewrite (bind_ok _ _ s message s) by (rewrite lift_run, Hm; reflexivity).
  unfold handleMessage.
  rewrite (bind_ok _ _ s template_id s) by (rewrite lift_run, Ht; reflexivity).
  rewrite H11. unfold handleLoginResponse.
  rewrite (bind_ok _ _ s rp_code s) by (rewrite lift_run, Hrp; reflexivity).
  rewrite (bind_ok _ _ s true s) by (rewrite lift_run, Hb; reflexivity).
  unfold bind at 1. unfold console at 1, on_world at 1.
  unfold bind at 1. unfold modify at 1.
  unfold bind at 1. unfold modify at 1.
  cbn [adapter world]. unfold requestAccountInfo. apply sendMessage_sent.
Qed.

(** [connect()] and the open event of the socket it created. *)
Definition dial (j : nat) : list (action call) := [Api Connect; Env (EvOpen j)].

Lemma open_socket_held (a : t) (w : World) j sock :
  websocket a = Some j -> sockets w !! j = Some sock -> ws_readyState sock = OPEN ->
  open_socket (Sys a w) = Some j.
Proof. intros Hh Hj Hr. unfold open_socket. cbn. now rewrite Hh, Hj, Hr. Qed.

Lemma dial_run s c :
  config (adapter s) = Some c ->
  let j := length (sockets (world s)) in
  exists s1,
    exec (dial j) s = Some s1 /\
    open_socket s1 = Some j /\
    adapter s1 = set_websocket (Some j) (adapter s) /\
    frames s1 = frames s ++ [(j, loginMessage c)].
Proof.
  intros Hc j. unfold exec, dial. cbn [run step]. unfold handled at 1. cbn [invoke].
  destruct (Sessions.rithmic_connect_configured s c Hc) as [url ->]. cbn [snd].
  fold j. set (w1 := emit _ _).
  assert (Hj : sockets w1 !! j = Some (Socket url CONNECTING []))
    by apply lookup_fresh.
  cbn [fire world]. rewrite Hj. cbn [ws_readyState ws_symbols].
  cbn [onopen socket_handlers].
  set (s0 := Sys (set_websocket (Some j) (adapter s))
               (emit (EConsole "Rithmic WebSocket connected")
                  (set_sockets (alter (set_readyState OPEN) j (sockets w1)) w1))).
  assert (Ho : open_socket s0 = Some j).
  { apply (open_socket_held _ _ j (set_readyState OPEN (Socket url CONNECTING [])));
      [reflexivity | | reflexivity].
    cbn [sockets emit set_sockets]. rewrite list_lookup_alter_eq, Hj. reflexivity. }
  assert (Hstep : handled websocket_onopen
                    (set_ready j OPEN (Sys (set_websocket (Some j) (adapter s)) w1)) =
                  sent (loginMessage c) s0).
  { unfold handled, websocket_onopen.
    unfold bind at 1. unfold console at 1, on_world at 1. cbn [adapter world set_ready].
    unfold authenticate.
    unfold bind at 1. unfold gets at 1. cbn [adapter websocket set_websocket].
    unfold bind at 1. unfold gets at 1. cbn [adapter config set_websocket]. rewrite Hc.
    fold (loginMessage c). now rewrite sendMessage_sent. }
  rewrite Hstep. eexists. split; [reflexivity|].
  unfold sent at 1 2. rewrite Ho. split; [|split].
  - subst s0.
    apply (open_socket_held _ _ j (set_readyState OPEN (Socket url CONNECTING [])));
      [reflexivity | | reflexivity].
    cbn [sockets emit set_sockets world]. rewrite list_lookup_alter_eq, Hj. reflexivity.
  - reflexivity.
  - rewrite (frames_sent _ _ j Ho). f_equal. subst s0 w1.
    unfold frames, Sessions.closed_held. cbn. destruct (websocket (adapter s)); cbn;
      rewrite !omap_app; cbn; now rewrite !app_nil_r.
Qed.

(** The handshake.  From a configured instance, [connect()] and the open
    event of the new socket send the login request with the five
    credentials on that socket and nothing else, and leave [connected] as
    it was; an accepted login response then sets [connected], puts the
    attempt counter at zero and sends the account request. *)
Theorem login_handshake s c :
  config (adapter s) = Some c ->
  let j := length (sockets (world s)) in
  exists s1,
    exec (dial j) s = Some s1 /\
    connected (adapter s1) = connected (adapter s) /\
    frames s1 = frames s ++ [(j, loginMessage c)] /\
    forall f, accepted_login f = true ->
      exists s2,
        fire socket_handlers (EvMessage j f) s1 = Some s2 /\
        connected (adapter s2) = true /\
        reconnectAttempts (adapter s2) = 0 /\
        frames s2 = frames s1 ++ [(j, accountRequest)].
Proof.
  intros Hc j. destruct (dial_run s c Hc) as (s1 & Hrun & Ho & Ha & Hf).
  exists s1. split; [exact Hrun|]. split; [now rewrite Ha|]. split; [exact Hf|].
  intros f Hacc.
  assert (Hopen : exists sock, sockets (world s1) !! j = Some sock /\
                               ws_readyState sock = OPEN).
  { unfold open_socket in Ho. destruct (websocket (adapter s1)) as [i|]; [|discriminate].
    destruct (sockets (world s1) !! i) as [sock|] eqn:Hi; [|discriminate].
    destruct (ws_readyState sock) eqn:Hr; try discriminate.
    injection Ho as ->. eauto. }
  destruct Hopen as (sock & Hj & Hr).
  cbn [fire]. rewrite Hj, Hr. eexists. split; [reflexivity|].
  cbn [onmessage socket_handlers]. unfold handled.
  rewrite (accepted_login_run f s1 Hacc). cbn [snd].
  set (s0 := Sys _ _).
  assert (Ho0 : open_socket s0 = Some j).
  { subst s0. unfold open_socket in *. cbn in *. exact Ho. }
  split; [|split].
  - unfold sent. now rewrite Ho0.
  - unfold sent. now rewrite Ho0.
  - rewrite (frames_sent _ _ j Ho0). f_equal. subst s0. destruct s1.
    now rewrite frames_emit, app_nil_r.
Qed.

Lemma login_handshake_witness :
  let s := Sys (set_config (Some (Samples.rithmic_login "trader" "chicago")) init)
             empty_world in
  exists s1,
    exec (dial 0) s = Some s1 /\
    frames s1 = [(0%nat, loginMessage (Samples.rithmic_login "trader" "chicago"))] /\
    exists s2,
      fire socket_handlers (EvMessage 0 login_accepted) s1 = Some s2 /\
      connected (adapter s2) = true.
Proof.
  intros s.
  destruct (login_handshake s (Samples.rithmic_login "trader" "chicago") eq_refl)
    as (s1 & Hrun & _ & Hf & Hlogin).
  exists s1. split; [exact Hrun|]. split; [exact Hf|].
  destruct (Hlogin login_accepted) as (s2 & Hfire & Hc & _).
  - vm_compute. reflexivity.
  - exists s2. split; [exact Hfire | exact Hc].
Defined.

(** *** Frames other than an accepted login *)

(** What a session consists of: the instance, the sockets, the timers
    and the frames sent. *)
Definition session (s : sys t) : t * list socket * list (Z * list string) * list (nat * term) :=
  (adapter s, sockets (world s), timers (world s), frames s).

(** An update that only logs or records an invocation. *)
Ltac same :=
  let a := fresh "a" in
  let w := fresh "w" in
  intros [a w]; unfold unchanged, session, frames; cbn;
  rewrite ?omap_app; cbn; rewrite ?app_nil_r; reflexivity.

Lemma other_frames_keep_session f :
  accepted_login f = false -> keeps (unchanged session) (websocket_onmessage f).
Proof.
  intros Hacc. unfold websocket_onmessage.
  apply (keeps_try_catch _); [|intros ?; keeps_with same].
  apply (keeps_bind_lift _). intros message Hm. unfold handleMessage.
  apply (keeps_bind_lift _). intros template_id Ht.
  unfold accepted_login in Hacc. rewrite Hm, Ht in Hacc.
  destruct (is_num template_id 11).
  - unfold handleLoginResponse.
    apply (keeps_bind_lift _). intros rp_code Hrp.
    apply (keeps_bind_lift _). intros b Hb.
    assert (login_ok message = Ok b) as Hl
      by (unfold login_ok; rewrite Hrp; exact Hb).
    rewrite Hl in Hacc. cbn in Hacc. subst b.
    keeps_with same.
  - keeps_with same.
Qed.

(** Of all the frames the venue can send, only an accepted login response
    changes the session: any other frame (a refused login, an update, a
    frame that cannot be parsed) leaves the instance, the sockets and the
    timers as they are and sends nothing in reply. *)
Theorem only_login_changes_session f s :
  accepted_login f = false ->
  let s' := handled (websocket_onmessage f) s in
  adapter s' = adapter s /\ sockets (world s') = sockets (world s) /\
  timers (world s') = timers (world s) /\ frames s' = frames s.
Proof.
  intros Hacc s'. pose proof (other_frames_keep_session f Hacc s) as H.
  unfold unchanged, session in H. fold s' in H. now injection H.
Qed.

(** A login response that the venue refuses with code 13. *)
Definition login_refused : frame :=
  Text (Some (VObj [("template_id", num 11); ("rp_code", VArr [VStr "13"])])).

(** A client that has dialled and sent its login request. *)
Definition dialled : sys t :=
  let s0 := Sys (set_config (Some (Samples.rithmic_login "trader" "chicago")) init)
              empty_world in
  default s0 (exec (dial 0) s0).

Lemma only_login_changes_session_witness :
  accepted_login login_refused = false /\
  adapter (handled (websocket_onmessage login_refused) dialled) = adapter dialled /\
  map ws_readyState (sockets (world (handled (websocket_onmessage login_refused) dialled)))
    = [OPEN].
Proof.
  assert (H : accepted_login login_refused = false) by (vm_compute; reflexivity).
  split; [exact H|].
  destruct (only_login_changes_session login_refused dialled H) as (Ha & Hs & _).
  split; [exact Ha|]. rewrite Hs. vm_compute. reflexivity.
Defined.

(** *** Binary frames *)

(** The tick that [handleMarketDataUpdate] builds from a message without
    any of the fields it reads. *)
Definition blank_tick (now : Z) : term :=
  let zero := TParseFloat (TVal (num 0)) in
  let none := TParseInt (TVal (num 0)) in
  TObj [("symbol", TVal (VStr "")); ("exchange", TVal (VStr ""));
        ("lastPrice", zero); ("bidPrice", zero); ("askPrice", zero);
        ("bidSize", none); ("askSize", none); ("volume", none);
        ("openPrice", zero); ("highPrice", zero); ("lowPrice", zero);
        ("settlementPrice", zero); ("timestamp", TInt now)].

Definition logged (line : string) (s : sys t) : sys t :=
  Sys (adapter s) (emit (EConsole line) (world s)).

Lemma binary_is_no_login bytes : accepted_login (Binary bytes) = false.
Proof.
  unfold accepted_login, parseMessage, getUint16.
  destruct bytes as [|b0 [|b1 rest]]; [reflexivity | reflexivity |].
  cbn. apply andb_false_r.
Qed.

Lemma short_buffer bytes s :
  (length bytes < 2)%nat ->
  websocket_onmessage (Binary bytes) s =
    (Ok tt, logged "Error parsing Rithmic message:" s).
Proof.
  intros Hlen. destruct bytes as [|b0 [|b1 rest]]; [reflexivity | reflexivity |].
  cbn in Hlen. lia.
Qed.

Lemma binary_tick b0 b1 rest s :
  Z.of_N (Byte.to_N b0) + 256 * Z.of_N (Byte.to_N b1) = 150 ->
  websocket_onmessage (Binary (b0 :: b1 :: rest)) s =
    try_catch
      (forEach (marketDataCallbacks (adapter s)) (blank_tick (now (world s))))
      (fun _ => console "Error parsing Rithmic message:") s.
Proof.
  intros H150. unfold websocket_onmessage, parseMessage, getUint16.
  cbn [res_bind]. rewrite H150. unfold try_catch.
  rewrite (bind_ok _ _ s _ s (lift_run _ s)).
  unfold handleMessage.
  rewrite (bind_ok _ _ s (num 150) s) by reflexivity.
  assert (H11 : is_num (num 150) 11 = false) by (vm_compute; reflexivity).
  assert (H150' : is_num (num 150) 150 = true) by (vm_compute; reflexivity).
  rewrite H11, H150'. unfold handleMarketDataUpdate.
  rewrite (bind_ok date_now _ s (now (world s)) s) by reflexivity.
  rewrite (bind_ok (lift _) _ s (blank_tick (now (world s))) s) by reflexivity.
  now rewrite (bind_ok _ _ _ _ _ (gets_run marketDataCallbacks s)).
Qed.

(** A binary frame is dispatched on its first two bytes, read as a
    little-endian number, and is never decoded any further.  So no binary
    frame logs the client in; one shorter than two bytes is logged as a
    parse error; and a binary market-data frame (template 150) hands
    every market-data callback a tick with an empty symbol and zero for
    every price and size, whatever its payload. *)
Theorem binary_frames_are_not_decoded :
  (forall bytes, accepted_login (Binary bytes) = false) /\
  (forall bytes s,
     (length bytes < 2)%nat ->
     websocket_onmessage (Binary bytes) s =
       (Ok tt, logged "Error parsing Rithmic message:" s)) /\
  (forall b0 b1 rest s,
     Z.of_N (Byte.to_N b0) + 256 * Z.of_N (Byte.to_N b1) = 150 ->
     websocket_onmessage (Binary (b0 :: b1 :: rest)) s =
       try_catch
         (forEach (marketDataCallbacks (adapter s)) (blank_tick (now (world s))))
         (fun _ => console "Error parsing Rithmic message:") s).
Proof.
  split; [|split].
  - apply binary_is_no_login.
  - apply short_buffer.
  - apply binary_tick.
Qed.

Lemma binary_frames_are_not_decoded_witness :
  websocket_onmessage (Binary ["150"%byte; "000"%byte; "042"%byte]) dialled =
    (Ok tt, dialled) /\
  websocket_onmessage (Binary ["011"%byte]) dialled =
    (Ok tt, logged "Error parsing Rithmic message:" dialled).
Proof.
  split.
  - etransitivity;
      [ apply (proj2 (proj2 binary_frames_are_not_decoded)); vm_compute; reflexivity |].
    vm_compute. reflexivity.
  - apply (proj1 (proj2 binary_frames_are_not_decoded)). cbn. lia.
Defined.

(** *** Order entry before and after the login *)

Definition subscribeMessage (symbol exchange : string) : term :=
  TObj [("template_id", TInt 100); ("user_msg", TArr [TStr symbol; TStr exchange])].

Definition cancelMessage (orderId : string) : term :=
  TObj [("template_id", TInt 301); ("user_msg", TArr [TStr orderId])].

Lemma gated_closed {X} (k : M t X) s :
  connected (adapter s) = false ->
  (c <- gets connected ;;
   if negb c then throw (Error "Not connected to Rithmic") else k)%M s
  = (Throw (Error "Not connected to Rithmic"), s).
Proof. intros Hc. unfold bind, gets. now rewrite Hc. Qed.

Lemma gated_open {X} (k : M t X) s :
  connected (adapter s) = true ->
  (c <- gets connected ;;
   if negb c then throw (Error "Not connected to Rithmic") else k)%M s
  = k s.
Proof. intros Hc. unfold bind, gets. now rewrite Hc. Qed.

(** The three methods that talk to the gateway look at the [connected]
    flag only.  While it is unset (from construction until a login
    response is accepted, and again after a close event or
    [disconnect()]) each of them throws and does nothing else.  While it
    is set, [subscribeMarketData] and [cancelOrder] return normally
    whether or not their frame could be sent: it goes out when the held
    socket is open and is dropped otherwise. *)
Theorem gateway_calls_are_gated_on_login s :
  (connected (adapter s) = false ->
   let e := Error "Not connected to Rithmic" in
   (forall symbol exchange, subscribeMarketData symbol exchange s = (Throw e, s)) /\
   (forall order, placeOrder order s = (Throw e, s)) /\
   (forall orderId, cancelOrder orderId s = (Throw e, s))) /\
  (connected (adapter s) = true ->
   (forall symbol exchange,
      subscribeMarketData symbol exchange s = (Ok tt, sent (subscribeMessage symbol exchange) s)) /\
   (forall orderId, cancelOrder orderId s = (Ok tt, sent (cancelMessage orderId) s))).
Proof.
  split; intros Hc.
  - intros e. repeat split; intros.
    + now apply gated_closed.
    + now apply gated_closed.
    + now apply gated_closed.
  - split; intros.
    + unfold subscribeMarketData. rewrite gated_open by exact Hc. apply sendMessage_sent.
    + unfold cancelOrder. rewrite gated_open by exact Hc. apply sendMessage_sent.
Qed.

(** Right after the open event the login is still outstanding. *)
Lemma gateway_calls_are_gated_on_login_witness :
  subscribeMarketData "ESM4" "CME" dialled =
    (Throw (Error "Not connected to Rithmic"), dialled) /\
  cancelOrder "1700000000000" reconnecting = (Ok tt, reconnecting).
Proof.
  split.
  - apply (proj1 (gateway_calls_are_gated_on_login dialled)). reflexivity.
  - etransitivity;
      [ apply (proj2 (gateway_calls_are_gated_on_login reconnecting));
        vm_compute; reflexivity |].
    vm_compute. reflexivity.
Defined.

End RithmicSession.

(** ** What the streaming adapters send *)

Module Outgoing.
Import Sessions.
Import Runs.

Lemma frames_fetch {A} rq : keeps (unchanged (@frames A)) (fetch rq).
Proof.
  intros [a w]. unfold fetch, unchanged, frames. cbn.
  destruct (network w) as [|[r|] rest]; cbn; rewrite omap_app; cbn;
    now rewrite app_nil_r.
Qed.

(** An update that sends nothing. *)
Ltac unsent :=
  let a := fresh "a" in
  let w := fresh "w" in
  first
    [ apply frames_fetch
    | intros [a w]; unfold unchanged, frames; cbn;
      rewrite ?omap_app; cbn; rewrite ?app_nil_r; reflexivity ].

Definition opens (e : event) : bool :=
  match e with
  | EvOpen _ => true
  | _ => false
  end.

Section Trading.
Import TradingAPI.

Lemma trading_calls_send_nothing c : keeps (unchanged frames) (invoke c).
Proof. destruct c; keeps_with unsent. Qed.

Lemma trading_events_send_nothing e s s' :
  opens e = false -> fire socket_handlers e s = Some s' -> frames s' = frames s.
Proof.
  intros He Hf. destruct e as [i|i f|i|i|k|t]; try discriminate; cbn in Hf.
  - destruct (sockets (world s) !! i) as [w|]; [|discriminate].
    destruct (ws_readyState w); try discriminate. injection Hf as <-.
    assert (K : keeps (unchanged frames) (websocket_onmessage f)) by keeps_with unsent.
    apply K.
  - destruct (sockets (world s) !! i) as [w|]; [|discriminate].
    assert (K : keeps (unchanged frames) websocket_onerror) by keeps_with unsent.
    destruct (ws_readyState w); try discriminate; injection Hf as <-; apply K.
  - destruct (sockets (world s) !! i) as [w|]; [|discriminate].
    assert (Hs' : s' = handled (websocket_onclose (ws_symbols w)) (set_ready i CLOSED s))
      by (destruct (ws_readyState w); now inversion Hf).
    subst s'.
    assert (K : keeps (unchanged frames) (websocket_onclose (ws_symbols w)))
      by keeps_with unsent.
    etransitivity; [apply K|]. now destruct s.
  - destruct (timers (world s) !! k) as [[d symbols]|]; [|discriminate].
    injection Hf as <-.
    etransitivity; [apply (trading_calls_send_nothing (ConnectMarketData symbols))|].
    now destruct s.
  - destruct (now (world s) <=? t); [|discriminate]. injection Hf as <-. now destruct s.
Qed.

Lemma trading_open_sends i w s c :
  one_session websocket s ->
  config (adapter s) = Some c -> In (name c) brokers ->
  sockets (world s) !! i = Some w -> ws_readyState w = CONNECTING ->
  exists msg s',
    createSubscriptionMessage (ws_symbols w) s = (Ok msg, s) /\
    fire socket_handlers (EvOpen i) s = Some s' /\
    frames s' = frames s ++ [(i, msg)] /\
    reconnectAttempts (adapter s') = 0.
Proof.
  intros Hinv Hc Hn Hi Hr.
  assert (Hh : websocket (adapter s) = Some i)
    by (apply (Hinv i w Hi); unfold live; now rewrite Hr).
  cbn [fire]. rewrite Hi, Hr.
  destruct s as [[cfg ws mcb ocb n] w0]. cbn in Hc, Hh, Hi. subst cfg ws.
  destruct c as [nm key sec base sb acc]. cbn in Hn.
  destruct Hn as [Hn|[Hn|[Hn|[]]]]; subst nm;
    (eexists; eexists; split; [reflexivity|]; split; [reflexivity|];
     unfold handled, frames; cbn; rewrite list_lookup_alter_eq, Hi; cbn;
     rewrite !omap_app; cbn; rewrite ?app_nil_r; split; reflexivity).
Qed.

Lemma trading_symbols_unsent s c symbols :
  config (adapter s) = Some c -> name c = "alpaca" \/ name c = "polygon" ->
  createSubscriptionMessage symbols s = createSubscriptionMessage [] s.
Proof.
  intros Hc Hn. unfold createSubscriptionMessage, bind, gets. rewrite Hc.
  destruct Hn as [-> | ->]; reflexivity.
Qed.
End Trading.

(** The frames of [TradingAPI].  No public method sends a frame and no
    event but the open event of a socket does.  When a socket opens, of
    an instance that holds at most one live socket and is configured for
    a broker it supports, exactly one frame goes out, on that socket:
    what [createSubscriptionMessage] builds for the symbols the socket
    was created for.  For alpaca and polygon that message is the
    authentication and does not depend on the symbols: the symbols passed
    to [connectMarketData] are never transmitted. *)
Theorem trading_sends_only_its_subscription :
  (forall c s, frames (handled (TradingAPI.invoke c) s) = frames s) /\
  (forall e s s',
     opens e = false -> fire TradingAPI.socket_handlers e s = Some s' ->
     frames s' = frames s) /\
  (forall i w s c,
     one_session TradingAPI.websocket s ->
     TradingAPI.config (adapter s) = Some c -> In (TradingAPI.name c) brokers ->
     sockets (world s) !! i = Some w -> ws_readyState w = CONNECTING ->
     exists msg s',
       TradingAPI.createSubscriptionMessage (ws_symbols w) s = (Ok msg, s) /\
       fire TradingAPI.socket_handlers (EvOpen i) s = Some s' /\
       frames s' = frames s ++ [(i, msg)] /\
       TradingAPI.reconnectAttempts (adapter s') = 0) /\
  (forall s c symbols,
     TradingAPI.config (adapter s) = Some c ->
     TradingAPI.name c = "alpaca" \/ TradingAPI.name c = "polygon" ->
     TradingAPI.createSubscriptionMessage symbols s =
       TradingAPI.createSubscriptionMessage [] s).
Proof.
  split; [|split; [|split]].
  - intros c s. apply trading_calls_send_nothing.
  - apply trading_events_send_nothing.
  - intros i w s c. apply trading_open_sends.
  - apply trading_symbols_unsent.
Qed.

(** A polygon client right after [connectMarketData(["SPY"; "QQQ"])]. *)
Definition connecting_polygon : sys TradingAPI.t :=
  let s0 := TradingAPI.start empty_world in
  default s0
    (TradingAPI.exec
       [Api (TradingAPI.Configure Samples.polygon_live);
        Api (TradingAPI.ConnectMarketData ["SPY"; "QQQ"])] s0).

Lemma trading_sends_only_its_subscription_witness :
  exists s',
    fire TradingAPI.socket_handlers (EvOpen 0) connecting_polygon = Some s' /\
    frames s' = [(0%nat, TObj [("action", TStr "auth"); ("params", TStr "PG1")])].
Proof.
  destruct (proj1 (proj2 (proj2 trading_sends_only_its_subscription))
              0%nat (Socket "wss://socket.polygon.io/stocks" CONNECTING ["SPY"; "QQQ"])
              connecting_polygon Samples.polygon_live)
    as (msg & s' & Hmsg & Hfire & Hframes & _).
  - intros i w Hi Hl. destruct i as [|i]; [reflexivity|]. vm_compute in Hi. discriminate.
  - reflexivity.
  - cbn. auto.
  - reflexivity.
  - reflexivity.
  - exists s'. split; [exact Hfire|]. rewrite Hframes.
    vm_compute in Hmsg. injection Hmsg as <-. reflexivity.
Defined.

Section Crypto.
Import CryptoAPI.

Lemma crypto_calls_send_nothing c : keeps (unchanged frames) (invoke c).
Proof. destruct c; keeps_with unsent. Qed.

Lemma crypto_events_send_nothing e s s' :
  opens e = false -> fire socket_handlers e s = Some s' -> frames s' = frames s.
Proof.
  intros He Hf. destruct e as [i|i f|i|i|k|t]; try discriminate; cbn in Hf.
  - destruct (sockets (world s) !! i) as [w|]; [|discriminate].
    destruct (ws_readyState w); try discriminate. injection Hf as <-.
    assert (K : keeps (unchanged frames) (websocket_onmessage f)) by keeps_with unsent.
    apply K.
  - destruct (sockets (world s) !! i) as [w|]; [|discriminate].
    assert (K : keeps (unchanged frames) websocket_onerror) by keeps_with unsent.
    destruct (ws_readyState w); try discriminate; injection Hf as <-; apply K.
  - destruct (sockets (world s) !! i) as [w|]; [|discriminate].
    assert (Hs' : s' = handled (websocket_onclose (ws_symbols w)) (set_ready i CLOSED s))
      by (destruct (ws_readyState w); now inversion Hf).
    subst s'.
    assert (K : keeps (unchanged frames) (websocket_onclose (ws_symbols w)))
      by keeps_with unsent.
    etransitivity; [apply K|]. now destruct s.
  - destruct (timers (world s) !! k) as [[d symbols]|]; [|discriminate].
    injection Hf as <-.
    etransitivity; [apply (crypto_calls_send_nothing (ConnectMarketData symbols))|].
    now destruct s.
  - destruct (now (world s) <=? t); [|discriminate]. injection Hf as <-. now destruct s.
Qed.

Lemma crypto_open_sends i w s c :
  one_session websocket s ->
  config (adapter s) = Some c -> In (name c) exchanges ->
  sockets (world s) !! i = Some w -> ws_readyState w = CONNECTING ->
  exists msg s',
    createSubscriptionMessage (ws_symbols w) s = (Ok msg, s) /\
    fire socket_handlers (EvOpen i) s = Some s' /\
    frames s' = frames s ++ [(i, msg)] /\
    reconnectAttempts (adapter s') = 0.
Proof.
  intros Hinv Hc Hn Hi Hr.
  assert (Hh : websocket (adapter s) = Some i)
    by (apply (Hinv i w Hi); unfold live; now rewrite Hr).
  cbn [fire]. rewrite Hi, Hr.
  destruct s as [[cfg ws mcb ocb n] w0]. cbn in Hc, Hh, Hi. subst cfg ws.
  destruct c as [nm key sec pass base tn lev]. cbn in Hn.
  destruct Hn as [Hn|[Hn|[Hn|[Hn|[Hn|[Hn|[]]]]]]]; subst nm;
    (eexists; eexists; split; [reflexivity|]; split; [reflexivity|];
     unfold handled, frames; cbn; rewrite list_lookup_alter_eq, Hi; cbn;
     rewrite !omap_app; cbn; rewrite ?app_nil_r; split; reflexivity).
Qed.

Lemma crypto_symbols_unsent s c symbols :
  config (adapter s) = Some c -> name c = "kucoin" ->
  createSubscriptionMessage symbols s = createSubscriptionMessage [] s.
Proof.
  intros Hc Hn. unfold createSubscriptionMessage, bind, gets. rewrite Hc, Hn. reflexivity.
Qed.
End Crypto.

(** The frames of [CryptoAPI]: as for [TradingAPI], the only frame is the
    subscription that goes out when a socket opens.  For kucoin it
    subscribes to the ticker of every market, whatever symbols were asked
    for. *)
Theorem crypto_sends_only_its_subscription :
  (forall c s, frames (handled (CryptoAPI.invoke c) s) = frames s) /\
  (forall e s s',
     opens e = false -> fire CryptoAPI.socket_handlers e s = Some s' ->
     frames s' = frames s) /\
  (forall i w s c,
     one_session CryptoAPI.websocket s ->
     CryptoAPI.config (adapter s) = Some c -> In (CryptoAPI.name c) exchanges ->
     sockets (world s) !! i = Some w -> ws_readyState w = CONNECTING ->
     exists msg s',
       CryptoAPI.createSubscriptionMessage (ws_symbols w) s = (Ok msg, s) /\
       fire CryptoAPI.socket_handlers (EvOpen i) s = Some s' /\
       frames s' = frames s ++ [(i, msg)] /\
       CryptoAPI.reconnectAttempts (adapter s') = 0) /\
  (forall s c symbols,
     CryptoAPI.config (adapter s) = Some c -> CryptoAPI.name c = "kucoin" ->
     CryptoAPI.createSubscriptionMessage symbols s =
       CryptoAPI.createSubscriptionMessage [] s).
Proof.
  split; [|split; [|split]].
  - intros c s. apply crypto_calls_send_nothing.
  - apply crypto_events_send_nothing.
  - intros i w s c. apply crypto_open_sends.
  - apply crypto_symbols_unsent.
Qed.

(** A kucoin client right after [connectMarketData(["BTC-USDT"])], at
    time 1700000000000. *)
Definition connecting_kucoin : sys CryptoAPI.t :=
  let s0 := CryptoAPI.start (set_now 1700000000000 empty_world) in
  default s0
    (CryptoAPI.exec
       [Api (CryptoAPI.Configure Samples.kucoin_main);
        Api (CryptoAPI.ConnectMarketData ["BTC-USDT"])] s0).

Lemma crypto_sends_only_its_subscription_witness :
  exists s',
    fire CryptoAPI.socket_handlers (EvOpen 0) connecting_kucoin = Some s' /\
    frames s' =
      [(0%nat, TObj [("id", TInt 1700000000000); ("type", TStr "subscribe");
                     ("topic", TStr "/market/ticker:all");
                     ("privateChannel", TBool false); ("response", TBool true)])].
Proof.
  destruct (proj1 (proj2 (proj2 crypto_sends_only_its_subscription))
              0%nat (Socket "wss://ws-api-spot.kucoin.com/" CONNECTING ["BTC-USDT"])
              connecting_kucoin Samples.kucoin_main)
    as (msg & s' & Hmsg & Hfire & Hframes & _).
  - intros i w Hi Hl. destruct i as [|i]; [reflexivity|]. vm_compute in Hi. discriminate.
  - reflexivity.
  - cbn. auto.
  - reflexivity.
  - reflexivity.
  - exists s'. split; [exact Hfire|]. rewrite Hframes.
    vm_compute in Hmsg. injection Hmsg as <-. reflexivity.
Defined.

End Outgoing.

(** ** What [isConnected] reports *)

Module Readiness.
Import Sessions.

(** The held socket is open: what [isConnected()] of the two streaming
    adapters computes. *)
Definition streaming {A} (held : A -> option nat) (s : sys A) : bool :=
  match held (adapter s) with
  | Some i =>
      match sockets (world s) !! i with
      | Some w => readyState_eqb (ws_readyState w) OPEN
      | None => false
      end
  | None => false
  end.

Lemma closed_not_open w : readyState_eqb (ws_readyState (close_socket w)) OPEN = false.
Proof. unfold close_socket, live. now destruct (ws_readyState w) eqn:E; cbn; rewrite ?E. Qed.

Lemma closed_held_not_streaming {A} (held : A -> option nat) (s : sys A) e :
  streaming held (Sys (adapter s) (emit e (closed_held held s))) = false.
Proof.
  unfold streaming, closed_held. cbn. destruct (held (adapter s)) as [i|]; [|reflexivity].
  cbn. rewrite list_lookup_alter_eq. destruct (sockets (world s) !! i); [|reflexivity].
  cbn. apply closed_not_open.
Qed.

Lemma fresh_not_streaming {A} (held : A -> option nat) (s : sys A) a' e url symbols :
  held a' = Some (length (sockets (world s))) ->
  streaming held
    (Sys a' (emit e (set_sockets (sockets (closed_held held s) ++ [Socket url CONNECTING symbols])
                       (closed_held held s)))) = false.
Proof.
  intros Hh. unfold streaming. cbn. rewrite Hh, Backoff.lookup_fresh. reflexivity.
Qed.

Lemma opened_streaming {A} (held : A -> option nat) (s : sys A) i w :
  one_session held s -> sockets (world s) !! i = Some w -> ws_readyState w = CONNECTING ->
  streaming held (set_ready i OPEN s) = true.
Proof.
  intros Hinv Hi Hr. unfold streaming. cbn.
  rewrite (Hinv i w Hi) by (unfold live; now rewrite Hr).
  now rewrite list_lookup_alter_eq, Hi.
Qed.

Lemma closed_not_streaming {A} (held : A -> option nat) (s : sys A) i :
  held (adapter s) = Some i -> streaming held (set_ready i CLOSED s) = false.
Proof.
  intros Hh. unfold streaming. cbn. rewrite Hh, list_lookup_alter_eq.
  now destruct (sockets (world s) !! i).
Qed.

(** The handlers and the methods that leave the held socket and the
    ready states alone. *)
Definition line {A} (held : A -> option nat) (s : sys A) : option nat * list readyState :=
  (held (adapter s), ws_readyState <$> sockets (world s)).

Lemma streaming_line {A} (held : A -> option nat) (s s' : sys A) :
  line held s' = line held s -> streaming held s' = streaming held s.
Proof.
  unfold line, streaming. intros H. injection H as Hh Hs. rewrite Hh.
  destruct (held (adapter s)) as [i|]; [|reflexivity].
  assert (E : ws_readyState <$> sockets (world s') !! i = ws_readyState <$> sockets (world s) !! i)
    by (rewrite <- !list_lookup_fmap; now rewrite Hs).
  destruct (sockets (world s') !! i), (sockets (world s) !! i); cbn in E;
    try discriminate; [|reflexivity]. now injection E as ->.
Qed.

Lemma line_fetch {A} (held : A -> option nat) rq : keeps (unchanged (line held)) (fetch rq).
Proof.
  intros [a w]. unfold fetch, unchanged, line. cbn.
  now destruct (network w) as [|[r|] rest].
Qed.

Ltac steady :=
  let a := fresh "a" in
  let w := fresh "w" in
  first
    [ apply line_fetch
    | intros [a w]; unfold unchanged, line; cbn; reflexivity ].

Section Trading.
Import TradingAPI.

Lemma trading_isConnected s : isConnected s = (Ok (streaming websocket s), s).
Proof.
  destruct s as [a w]. unfold isConnected, streaming, bind, gets, ws_state, ask_world, ret.
  cbn. destruct (websocket a) as [i|]; [|reflexivity]. cbn.
  destruct (sockets w !! i) as [sock|]; [|reflexivity]. cbn.
  now destruct (ws_readyState sock).
Qed.

Lemma trading_connect_not_streaming s symbols :
  is_Some (config (adapter s)) ->
  streaming websocket (handled (connectMarketData symbols) s) = false.
Proof.
  intros [c Hc]. unfold handled.
  destruct (in_dec string_dec (name c) brokers) as [Hin|Hout].
  - destruct (trading_connect_supported s c symbols Hc Hin) as [url ->]. cbn [snd].
    now apply fresh_not_streaming.
  - rewrite (trading_connect_unsupported s c symbols Hc Hout). cbn [snd].
    apply closed_held_not_streaming.
Qed.

Lemma trading_open_streaming i w s s' :
  one_session websocket s ->
  sockets (world s) !! i = Some w -> ws_readyState w = CONNECTING ->
  fire socket_handlers (EvOpen i) s = Some s' ->
  streaming websocket s' = true.
Proof.
  intros Hinv Hi Hr Hf. cbn in Hf. rewrite Hi, Hr in Hf. injection Hf as <-.
  assert (K : keeps (unchanged (line websocket)) (websocket_onopen (ws_symbols w)))
    by keeps_with steady.
  unfold handled.
  rewrite (streaming_line _ _ _ (K (set_ready i OPEN s))).
  now apply (opened_streaming websocket s i w).
Qed.

Lemma trading_close_not_streaming i s s' :
  websocket (adapter s) = Some i ->
  fire socket_handlers (EvClose i) s = Some s' ->
  streaming websocket s' = false.
Proof.
  intros Hh Hf. cbn in Hf.
  destruct (sockets (world s) !! i) as [w|] eqn:Hi; [|discriminate].
  assert (Hs' : s' = handled (websocket_onclose (ws_symbols w)) (set_ready i CLOSED s))
    by (destruct (ws_readyState w); now inversion Hf).
  subst s'.
  assert (K : keeps (unchanged (line websocket)) (websocket_onclose (ws_symbols w)))
    by keeps_with steady.
  unfold handled.
  rewrite (streaming_line _ _ _ (K (set_ready i CLOSED s))).
  now apply closed_not_streaming.
Qed.
End Trading.
Section Crypto.
Import CryptoAPI.

Lemma crypto_isConnected s : isConnected s = (Ok (streaming websocket s), s).
Proof.
  destruct s as [a w]. unfold isConnected, streaming, bind, gets, ws_state, ask_world, ret.
  cbn. destruct (websocket a) as [i|]; [|reflexivity]. cbn.
  destruct (sockets w !! i) as [sock|]; [|reflexivity]. cbn.
  now destruct (ws_readyState sock).
Qed.

Lemma crypto_connect_not_streaming s symbols :
  is_Some (config (adapter s)) ->
  streaming websocket (handled (connectMarketData symbols) s) = false.
Proof.
  intros [c Hc]. unfold handled.
  destruct (in_dec string_dec (name c) exchanges) as [Hin|Hout].
  - destruct (crypto_connect_supported s c symbols Hc Hin) as [url ->]. cbn [snd].
    now apply fresh_not_streaming.
  - rewrite (crypto_connect_unsupported s c symbols Hc Hout). cbn [snd].
    apply closed_held_not_streaming.
Qed.

Lemma crypto_open_streaming i w s s' :
  one_session websocket s ->
  sockets (world s) !! i = Some w -> ws_readyState w = CONNECTING ->
  fire socket_handlers (EvOpen i) s = Some s' ->
  streaming websocket s' = true.
Proof.
  intros Hinv Hi Hr Hf. cbn in Hf. rewrite Hi, Hr in Hf. injection Hf as <-.
  assert (K : keeps (unchanged (line websocket)) (websocket_onopen (ws_symbols w)))
    by keeps_with steady.
  unfold handled.
  rewrite (streaming_line _ _ _ (K (set_ready i OPEN s))).
  now apply (opened_streaming websocket s i w).
Qed.

Lemma crypto_close_not_streaming i s s' :
  websocket (adapter s) = Some i ->
  fire socket_handlers (EvClose i) s = Some s' ->
  streaming websocket s' = false.
Proof.
  intros Hh Hf. cbn in Hf.
  destruct (sockets (world s) !! i) as [w|] eqn:Hi; [|discriminate].
  assert (Hs' : s' = handled (websocket_onclose (ws_symbols w)) (set_ready i CLOSED s))
    by (destruct (ws_readyState w); now inversion Hf).
  subst s'.
  assert (K : keeps (unchanged (line websocket)) (websocket_onclose (ws_symbols w)))
    by keeps_with steady.
  unfold handled.
  rewrite (streaming_line _ _ _ (K (set_ready i CLOSED s))).
  now apply closed_not_streaming.
Qed.
End Crypto.

(** [isConnected()] of [TradingAPI] and of [CryptoAPI] reports whether
    the held socket is open, and changes nothing.  So it is false right
    after [connectMarketData] of a configured instance, whether that
    call returned (the new socket is still connecting) or threw for an
    unsupported venue (the old socket has been closed by then); it
    becomes true with the open event of the socket, on an instance that
    holds at most one live socket; and it is false again after the close
    event of the held socket. *)
Theorem isConnected_follows_the_held_socket :
  ((forall s, TradingAPI.isConnected s = (Ok (streaming TradingAPI.websocket s), s)) /\
   (forall s symbols,
      is_Some (TradingAPI.config (adapter s)) ->
      streaming TradingAPI.websocket (handled (TradingAPI.connectMarketData symbols) s)
        = false) /\
   (forall i w s s',
      one_session TradingAPI.websocket s ->
      sockets (world s) !! i = Some w -> ws_readyState w = CONNECTING ->
      fire TradingAPI.socket_handlers (EvOpen i) s = Some s' ->
      streaming TradingAPI.websocket s' = true) /\
   (forall i s s',
      TradingAPI.websocket (adapter s) = Some i ->
      fire TradingAPI.socket_handlers (EvClose i) s = Some s' ->
      streaming TradingAPI.websocket s' = false)) /\
  ((forall s, CryptoAPI.isConnected s = (Ok (streaming CryptoAPI.websocket s), s)) /\
   (forall s symbols,
      is_Some (CryptoAPI.config (adapter s)) ->
      streaming CryptoAPI.websocket (handled (CryptoAPI.connectMarketData symbols) s)
        = false) /\
   (forall i w s s',
      one_session CryptoAPI.websocket s ->
      sockets (world s) !! i = Some w -> ws_readyState w = CONNECTING ->
      fire CryptoAPI.socket_handlers (EvOpen i) s = Some s' ->
      streaming CryptoAPI.websocket s' = true) /\
   (forall i s s',
      CryptoAPI.websocket (adapter s) = Some i ->
      fire CryptoAPI.socket_handlers (EvClose i) s = Some s' ->
      streaming CryptoAPI.websocket s' = false)).
Proof.
  split; (split; [|split; [|split]]).
  - apply trading_isConnected.
  - apply trading_connect_not_streaming.
  - apply trading_open_streaming.
  - apply trading_close_not_streaming.
  - apply crypto_isConnected.
  - apply crypto_connect_not_streaming.
  - apply crypto_open_streaming.
  - apply crypto_close_not_streaming.
Qed.

(** A finnhub client that is configured and nothing else. *)
Definition configured_finnhub : sys TradingAPI.t :=
  let finnhub :=
    {| TradingAPI.name := "finnhub"; TradingAPI.apiKey := "F1";
       TradingAPI.secretKey := None; TradingAPI.baseUrl := "https://finnhub.io/api/v1";
       TradingAPI.sandbox := false; TradingAPI.accountId := None |} in
  Sys (TradingAPI.set_config (Some finnhub) TradingAPI.init) empty_world.

Lemma isConnected_follows_the_held_socket_witness :
  let s1 := handled (TradingAPI.connectMarketData ["AAPL"]) configured_finnhub in
  fst (TradingAPI.isConnected s1) = Ok false /\
  exists s2,
    fire TradingAPI.socket_handlers (EvOpen 0) s1 = Some s2 /\
    fst (TradingAPI.isConnected s2) = Ok true.
Proof.
  intros s1.
  pose proof (proj1 isConnected_follows_the_held_socket) as (Hrun & Hconn & Hopen & _).
  split.
  - rewrite Hrun. cbn [fst]. subst s1. rewrite Hconn; [reflexivity|]. cbn. eauto.
  - eexists. split; [vm_compute; reflexivity|].
    rewrite Hrun. cbn [fst].
    rewrite (Hopen 0%nat (Socket "wss://ws.finnhub.io" CONNECTING ["AAPL"]) s1);
      [ reflexivity
      | intros i w Hi Hl; destruct i as [|i]; [reflexivity|]; vm_compute in Hi; discriminate
      | reflexivity .. ].
Defined.

End Readiness.

(** ** Answers the venue accepts *)

Module Answers.
Import Rest.

(** What becomes of the body of an accepted answer: [response.json()]
    throws when it is not JSON, and [parse] may throw on what it is. *)
Definition body {X} (r : response) (parse : value -> res X) : res X :=
  match rs_json r with
  | Some v => parse v
  | None => Throw SyntaxError
  end.

(** The world after the request [rq] went out and its answer came in. *)
Definition answered (rq : request) (rest : list (option response)) (w : World) : World :=
  set_network rest (emit (EFetch rq) w).

(** How an operation ends that issued [rq] and had its answer accepted:
    it returns what the body parsed to, or logs [log] and throws what the
    parsing threw.  The instance is as it was. *)
Definition settled {A X} (m : M A X) (rq : request) (outcome : res X) (log : string)
    (rest : list (option response)) (s : sys A) : Prop :=
  m s =
    match outcome with
    | Ok x => (Ok x, Sys (adapter s) (answered rq rest (world s)))
    | Throw e => (Throw e, Sys (adapter s) (emit (EConsole log) (answered rq rest (world s))))
    end.

Section Trading.
Import TradingAPI.

Definition trading_request (c : BrokerConfig) (h : gmap string string)
    (method endpoint : string) (body : option value) : request :=
  {| rq_method := method; rq_url := baseUrl c +:+ endpoint;
     rq_headers := request_headers h; rq_body := request_body body |}.

Lemma trading_request_accepted s c h method endpoint b r rest :
  config (adapter s) = Some c -> getAuthHeaders s = (Ok h, s) ->
  network (world s) = Some r :: rest -> rs_ok r = true ->
  makeApiRequest method endpoint b s =
    (body r Ok,
     Sys (adapter s) (answered (trading_request c h method endpoint b) rest (world s))).
Proof.
  intros Hc Hh Hnet Hok. unfold makeApiRequest.
  rewrite (bind_ok _ _ _ _ _ (gets_run config s)), Hc. cbv zeta.
  rewrite (bind_ok _ _ _ _ _ Hh).
  rewrite (bind_ok _ _ _ _ _ (fetch_answered s _ r rest Hnet)).
  rewrite Hok. unfold body. cbn [negb]. now destruct (rs_json r).
Qed.

Lemma settled_parse {X} (request : M t value) (parse : value -> res X) rq r rest log s :
  request s = (body r Ok, Sys (adapter s) (answered rq rest (world s))) ->
  settled
    (try_catch (response <- request ;; lift (parse response))%M
               (fun error => console log ;;; throw error)%M)
    rq (body r parse) log rest s.
Proof.
  intros Hrun. unfold settled, try_catch, bind at 1. rewrite Hrun. unfold body.
  destruct (rs_json r) as [v|]; [|reflexivity].
  unfold lift. now destruct (parse v).
Qed.

Lemma trading_settled s c h r rest :
  config (adapter s) = Some c -> getAuthHeaders s = (Ok h, s) ->
  network (world s) = Some r :: rest -> rs_ok r = true ->
  let rq := trading_request c h in
  (forall order,
     settled (placeOrder order) (rq "POST" "/orders" (Some (OrderRequest_value order)))
       (body r parseOrderResponse) "Failed to place order:" rest s) /\
  (forall orderId,
     settled (cancelOrder orderId) (rq "DELETE" ("/orders/" +:+ orderId) None)
       (body r (fun _ => Ok tt)) "Failed to cancel order:" rest s) /\
  settled getAccount (rq "GET" "/account" None)
    (body r parseAccountResponse) "Failed to get account info:" rest s /\
  settled getPositions (rq "GET" "/positions" None)
    (body r parsePositionsResponse) "Failed to get positions:" rest s /\
  (forall status,
     settled (getOrders status) (rq "GET" (orders_url status) None)
       (body r parseOrdersResponse) "Failed to get orders:" rest s).
Proof.
  intros Hc Hh Hnet Hok rq.
  repeat split; intros;
    match goal with
    | |- settled ?m _ _ _ _ _ =>
        let hd := head_of m in
        unfold hd; unfold settled;
        rewrite (bind_ok _ _ _ _ _ (gets_run config s)), Hc
    end.
  - apply settled_parse. now apply trading_request_accepted.
  - unfold try_catch, bind at 1, bind at 1.
    rewrite (trading_request_accepted s c h _ _ _ r rest Hc Hh Hnet Hok).
    unfold body. now destruct (rs_json r).
  - apply settled_parse. now apply trading_request_accepted.
  - apply settled_parse. now apply trading_request_accepted.
  - apply settled_parse. now apply trading_request_accepted.
Qed.
End Trading.

Section Crypto.
Import CryptoAPI.

Definition crypto_request (c : CryptoExchangeConfig) (h : gmap string string)
    (method endpoint : string) (body : option value) : request :=
  {| rq_method := method; rq_url := baseUrl c +:+ endpoint;
     rq_headers := request_headers h; rq_body := request_body body |}.

(** The headers are those of the venue for the time of the call. *)
Definition crypto_headers (s : sys t) (h : gmap string string) : Prop :=
  forall method endpoint b,
    getAuthHeaders method endpoint (pretty (now (world s))) b s = (Ok h, s).

Lemma crypto_request_accepted s c h method endpoint b r rest :
  config (adapter s) = Some c -> crypto_headers s h ->
  network (world s) = Some r :: rest -> rs_ok r = true ->
  makeApiRequest method endpoint b s =
    (body r Ok,
     Sys (adapter s) (answered (crypto_request c h method endpoint b) rest (world s))).
Proof.
  intros Hc Hh Hnet Hok. unfold makeApiRequest.
  rewrite (bind_ok _ _ _ _ _ (gets_run config s)), Hc. cbv zeta.
  rewrite (bind_ok date_now _ s (now (world s)) s) by reflexivity.
  rewrite (bind_ok _ _ _ _ _ (Hh method endpoint b)).
  rewrite (bind_ok _ _ _ _ _ (fetch_answered s _ r rest Hnet)).
  rewrite Hok. unfold body. cbn [negb]. now destruct (rs_json r).
Qed.

Lemma crypto_settled_parse {X} (request : M t value) (parse : value -> res X)
    rq r rest log s :
  request s = (body r Ok, Sys (adapter s) (answered rq rest (world s))) ->
  settled
    (try_catch (response <- request ;; lift (parse response))%M
               (fun error => console log ;;; throw error)%M)
    rq (body r parse) log rest s.
Proof.
  intros Hrun. unfold settled, try_catch, bind at 1. rewrite Hrun. unfold body.
  destruct (rs_json r) as [v|]; [|reflexivity].
  unfold lift. now destruct (parse v).
Qed.

Lemma crypto_settled s c h r rest :
  config (adapter s) = Some c -> crypto_headers s h ->
  network (world s) = Some r :: rest -> rs_ok r = true ->
  let rq := crypto_request c h in
  (forall order,
     settled (placeOrder order) (rq "POST" "/order" (Some (CryptoOrderRequest_value order)))
       (body r (fun response => Ok (TVal response))) "Failed to place order:" rest s) /\
  settled getAccount (rq "GET" "/account" None)
    (body r parseAccountResponse) "Failed to get account info:" rest s /\
  settled getPositions (rq "GET" "/positions" None)
    (body r parsePositionsResponse) "Failed to get positions:" rest s.
Proof.
  intros Hc Hh Hnet Hok rq.
  repeat split; intros;
    match goal with
    | |- settled ?m _ _ _ _ _ =>
        let hd := head_of m in
        unfold hd; unfold settled;
        rewrite (bind_ok _ _ _ _ _ (gets_run config s)), Hc
    end.
  - unfold try_catch, bind at 1.
    rewrite (crypto_request_accepted s c h _ _ _ r rest Hc Hh Hnet Hok).
    unfold body. now destruct (rs_json r).
  - apply crypto_settled_parse. now apply crypto_request_accepted.
  - apply crypto_settled_parse. now apply crypto_request_accepted.
Qed.
End Crypto.

(** *** The parsers of the answers *)

(** Everything but [null] and [undefined]: what a property can be read
    from. *)
Definition readable (v : value) : bool :=
  match v with
  | VUndef | VNull => false
  | _ => true
  end.

Lemma get_readable v k : readable v = true -> exists x, get v k = Ok x.
Proof. destruct v; try discriminate; intros _; eexists; reflexivity. Qed.

Lemma get_or_readable v k1 k2 : readable v = true -> exists x, get_or v k1 k2 = Ok x.
Proof.
  intros H. unfold get_or. destruct (get_readable v k1 H) as [a ->]. cbn.
  destruct (truthy a); [eauto | now apply get_readable].
Qed.

Lemma get_unreadable v k : readable v = false -> get v k = Throw TypeError.
Proof. now destruct v. Qed.

(** Reads the properties of a readable value one after the other. *)
Ltac reads H :=
  repeat match goal with
    | |- context [get_or ?v ?k1 ?k2] =>
        let x := fresh "x" in
        destruct (get_or_readable v k1 k2 H) as [x ->]; cbn [res_bind]
    | |- context [get ?v ?k] =>
        let x := fresh "x" in
        destruct (get_readable v k H) as [x ->]; cbn [res_bind]
    end.

(** A parser of one object: it throws a [TypeError] on [null] and
    [undefined] and accepts every other value, with whatever fields. *)
Definition lenient (parse : value -> res term) : Prop :=
  forall v,
    if readable v then exists t, parse v = Ok t else parse v = Throw TypeError.

Lemma lenient_map parse items :
  lenient parse ->
  if forallb readable items
  then exists ts, res_map parse items = Ok ts /\ length ts = length items
  else res_map parse items = Throw TypeError.
Proof.
  intros Hp. induction items as [|v items IH]; cbn [forallb res_map].
  - exists []. auto.
  - specialize (Hp v). destruct (readable v); cbn [andb].
    + destruct Hp as [t ->]. cbn [res_bind].
      destruct (forallb readable items).
      * destruct IH as (ts & -> & Hlen). cbn. exists (t :: ts). cbn. auto.
      * now rewrite IH.
    + now rewrite Hp.
Qed.

(** A parser of a list: it wants an array, and every entry readable. *)
Definition lenient_list (parse : value -> res term) : Prop :=
  forall v,
    match v with
    | VArr items =>
        if forallb readable items
        then exists ts, parse v = Ok (TArr ts) /\ length ts = length items
        else parse v = Throw TypeError
    | _ => parse v = Throw TypeError
    end.

Lemma lenient_array parse : lenient parse -> lenient_list (TradingAPI.array_map parse).
Proof.
  intros Hp v. destruct v; try reflexivity. cbn [TradingAPI.array_map].
  pose proof (lenient_map parse items Hp) as H.
  destruct (forallb readable items).
  - destruct H as (ts & -> & Hlen). cbn. eauto.
  - now rewrite H.
Qed.

Lemma trading_order_lenient : lenient TradingAPI.parseOrderResponse.
Proof.
  intros v. destruct (readable v) eqn:H.
  - unfold TradingAPI.parseOrderResponse. reads H. eauto.
  - unfold TradingAPI.parseOrderResponse, get_or. now rewrite (get_unreadable v _ H).
Qed.

Lemma trading_account_lenient : lenient TradingAPI.parseAccountResponse.
Proof.
  intros v. destruct (readable v) eqn:H.
  - unfold TradingAPI.parseAccountResponse. reads H. eauto.
  - unfold TradingAPI.parseAccountResponse, get_or. now rewrite (get_unreadable v _ H).
Qed.

Lemma trading_position_lenient : lenient TradingAPI.parsePosition.
Proof.
  intros v. destruct (readable v) eqn:H.
  - unfold TradingAPI.parsePosition. reads H. eauto.
  - unfold TradingAPI.parsePosition. now rewrite (get_unreadable v _ H).
Qed.

Lemma crypto_account_lenient : lenient CryptoAPI.parseAccountResponse.
Proof.
  intros v. destruct (readable v) eqn:H.
  - unfold CryptoAPI.parseAccountResponse, CryptoAPI.float_or2, CryptoAPI.float_or.
    reads H. eauto.
  - unfold CryptoAPI.parseAccountResponse, CryptoAPI.float_or2, get_or.
    now rewrite (get_unreadable v _ H).
Qed.

Lemma crypto_position_lenient : lenient CryptoAPI.parsePosition.
Proof.
  intros v. destruct (readable v) eqn:H.
  - unfold CryptoAPI.parsePosition, CryptoAPI.float_or. reads H. eauto.
  - unfold CryptoAPI.parsePosition. now rewrite (get_unreadable v _ H).
Qed.

Lemma crypto_positions_lenient : lenient_list CryptoAPI.parsePositionsResponse.
Proof.
  intros v. destruct v; try reflexivity. cbn [CryptoAPI.parsePositionsResponse].
  pose proof (lenient_map CryptoAPI.parsePosition items crypto_position_lenient) as H.
  destruct (forallb readable items).
  - destruct H as (ts & -> & Hlen). cbn. eauto.
  - now rewrite H.
Qed.

(** The parsers of the answers do not validate.  A parser of one object
    ([parseOrderResponse], [parseAccountResponse], the mapping of one
    position) throws a [TypeError] on [null] and returns on every other
    value, whatever fields it has or lacks; a parser of a list throws a
    [TypeError] on anything but an array and on an array with a [null]
    entry, and otherwise returns one entry per element. *)
Theorem parsers_reject_only_null :
  (lenient TradingAPI.parseOrderResponse /\
   lenient TradingAPI.parseAccountResponse /\
   lenient TradingAPI.parsePosition /\
   lenient_list TradingAPI.parseOrdersResponse /\
   lenient_list TradingAPI.parsePositionsResponse) /\
  (lenient CryptoAPI.parseAccountResponse /\
   lenient CryptoAPI.parsePosition /\
   lenient_list CryptoAPI.parsePositionsResponse).
Proof.
  split; [split; [|split; [|split; [|split]]] | split; [|split]].
  - apply trading_order_lenient.
  - apply trading_account_lenient.
  - apply trading_position_lenient.
  - apply lenient_array, trading_order_lenient.
  - apply lenient_array, trading_position_lenient.
  - apply crypto_account_lenient.
  - apply crypto_position_lenient.
  - apply crypto_positions_lenient.
Qed.

(** An accepted answer of a broker.  When the venue answers a request of
    a configured [TradingAPI] with a status in 200..299, the operation
    has issued that one request (with the method, the path under
    [baseUrl], the authentication headers next to the content type, and
    a body for [placeOrder] only) and ends with what its parser makes of
    the JSON body: it returns the parsed value, or it logs and throws
    what the parser threw, and a [SyntaxError] when the body is not JSON,
    which is how [cancelOrder] ends on an empty body. *)
Theorem broker_answer_is_parsed s c h r rest :
  TradingAPI.config (adapter s) = Some c ->
  TradingAPI.getAuthHeaders s = (Ok h, s) ->
  network (world s) = Some r :: rest -> rs_ok r = true ->
  let rq := trading_request c h in
  (forall order,
     settled (TradingAPI.placeOrder order)
       (rq "POST" "/orders" (Some (TradingAPI.OrderRequest_value order)))
       (body r TradingAPI.parseOrderResponse) "Failed to place order:" rest s) /\
  (forall orderId,
     settled (TradingAPI.cancelOrder orderId) (rq "DELETE" ("/orders/" +:+ orderId) None)
       (body r (fun _ => Ok tt)) "Failed to cancel order:" rest s) /\
  settled TradingAPI.getAccount (rq "GET" "/account" None)
    (body r TradingAPI.parseAccountResponse) "Failed to get account info:" rest s /\
  settled TradingAPI.getPositions (rq "GET" "/positions" None)
    (body r TradingAPI.parsePositionsResponse) "Failed to get positions:" rest s /\
  (forall status,
     settled (TradingAPI.getOrders status) (rq "GET" (TradingAPI.orders_url status) None)
       (body r TradingAPI.parseOrdersResponse) "Failed to get orders:" rest s).
Proof. apply trading_settled. Qed.

(** Alpaca cancels the order and answers 204 with an empty body. *)
Definition no_content : response :=
  {| rs_status := 204; rs_text := EmptyString; rs_json := None |}.

Definition cancelling : sys TradingAPI.t :=
  Sys (TradingAPI.set_config (Some Samples.alpaca_paper) TradingAPI.init)
      (set_network [Some no_content] empty_world).

Lemma broker_answer_is_parsed_witness :
  fst (TradingAPI.cancelOrder "61e69015" cancelling) = Throw SyntaxError /\
  map rq_url (fetch_log (snd (TradingAPI.cancelOrder "61e69015" cancelling))) =
    ["https://paper-api.alpaca.markets/v2/orders/61e69015"].
Proof.
  pose proof (proj1 (proj2
    (broker_answer_is_parsed cancelling Samples.alpaca_paper _ no_content []
       eq_refl eq_refl eq_refl eq_refl)) "61e69015") as H.
  unfold settled in H. rewrite H. split; vm_compute; reflexivity.
Defined.

(** An accepted answer of an exchange: as for a broker, with the time of
    the call in the headers; [placeOrder] returns the JSON body as it
    is. *)
Theorem exchange_answer_is_parsed s c h r rest :
  CryptoAPI.config (adapter s) = Some c -> crypto_headers s h ->
  network (world s) = Some r :: rest -> rs_ok r = true ->
  let rq := crypto_request c h in
  (forall order,
     settled (CryptoAPI.placeOrder order)
       (rq "POST" "/order" (Some (CryptoAPI.CryptoOrderRequest_value order)))
       (body r (fun response => Ok (TVal response))) "Failed to place order:" rest s) /\
  settled CryptoAPI.getAccount (rq "GET" "/account" None)
    (body r CryptoAPI.parseAccountResponse) "Failed to get account info:" rest s /\
  settled CryptoAPI.getPositions (rq "GET" "/positions" None)
    (body r CryptoAPI.parsePositionsResponse) "Failed to get positions:" rest s.
Proof. apply crypto_settled. Qed.

(** KuCoin answers the positions request with an object, not a list. *)
Definition wrapped : response :=
  {| rs_status := 200; rs_text := "{}";
     rs_json := Some (VObj [("code", VStr "200000"); ("data", VArr [])]) |}.

Definition asking : sys CryptoAPI.t :=
  Sys (CryptoAPI.set_config (Some Samples.kucoin_main) CryptoAPI.init)
      (set_network [Some wrapped] (set_now 1700000000000 empty_world)).

Lemma exchange_answer_is_parsed_witness :
  fst (CryptoAPI.getPositions asking) = Throw TypeError /\
  map rq_url (fetch_log (snd (CryptoAPI.getPositions asking))) =
    ["https://api.kucoin.com/positions"].
Proof.
  pose proof (proj2 (proj2
    (exchange_answer_is_parsed asking Samples.kucoin_main _ wrapped []
       eq_refl (fun _ _ _ => eq_refl) eq_refl eq_refl))) as H.
  unfold settled in H. rewrite H. split; vm_compute; reflexivity.
Defined.

End Answers.

(** ** Fields of the configuration that are never used *)

Module Unused.

Section Blind.
Context {A : Type} (forget : A -> A).

(** The same browser around an instance whose unused fields are blanked. *)
Definition veil (s : sys A) : sys A := Sys (forget (adapter s)) (world s).

(** [m'] does on the blanked instance what [m] does on the instance
    itself: the same result, the same world, the same instance up to the
    blanked fields. *)
Definition blind {X} (m' m : M A X) : Prop :=
  forall s, m' (veil s) = (fst (m s), veil (snd (m s))).

Lemma blind_ret {X} (x : X) : blind (ret x) (ret x).
Proof. intros s. reflexivity. Qed.

Lemma blind_throw {X} e : blind (throw (X := X) e) (throw e).
Proof. intros s. reflexivity. Qed.

Lemma blind_lift {X} (r : res X) : blind (lift r) (lift r).
Proof. intros s. reflexivity. Qed.

Lemma blind_bind {X Y} (m' m : M A X) (k' k : X -> M A Y) :
  blind m' m -> (forall x, blind (k' x) (k x)) -> blind (bind m' k') (bind m k).
Proof.
  intros Hm Hk s. unfold bind. rewrite (Hm s).
  destruct (m s) as [[x|e] s1]; cbn; [apply Hk | reflexivity].
Qed.

(** Reading a field: the continuations are compared at what each side
    reads. *)
Lemma blind_gets {X Y} (f : A -> X) (k' k : X -> M A Y) :
  (forall a, blind (k' (f (forget a))) (k (f a))) ->
  blind (bind (gets f) k') (bind (gets f) k).
Proof. intros Hk s. unfold bind, gets. cbn. apply Hk. Qed.

Lemma blind_try {X} (m' m : M A X) (h' h : exn -> M A X) :
  blind m' m -> (forall e, blind (h' e) (h e)) -> blind (try_catch m' h') (try_catch m h).
Proof.
  intros Hm Hh s. unfold try_catch. rewrite (Hm s).
  destruct (m s) as [[x|e] s1]; cbn; [reflexivity | apply Hh].
Qed.

Lemma blind_on_world (f : World -> World) : blind (on_world f) (on_world f).
Proof. intros s. reflexivity. Qed.

Lemma blind_ask_world {X} (f : World -> X) : blind (ask_world f) (ask_world f).
Proof. intros s. reflexivity. Qed.

Lemma blind_ws_new url symbols : blind (ws_new url symbols) (ws_new url symbols).
Proof. intros s. reflexivity. Qed.

Lemma blind_fetch rq : blind (fetch rq) (fetch rq).
Proof.
  intros [a w]. unfold fetch, veil. cbn. now destruct (network w) as [|[r|] rest].
Qed.

Lemma blind_modify (f' f : A -> A) :
  (forall a, f' (forget a) = forget (f a)) -> blind (modify f') (modify f).
Proof. intros H s. unfold modify, veil. cbn. now rewrite H. Qed.

Lemma blind_call cb arg : blind (call cb arg) (call cb arg).
Proof.
  intros s. unfold call, bind, on_world. cbn. now destruct (cb_run cb arg).
Qed.

Lemma blind_forEach cbs arg : blind (forEach cbs arg) (forEach cbs arg).
Proof.
  induction cbs as [|cb cbs IH]; cbn [forEach].
  - apply blind_ret.
  - apply blind_bind; [apply blind_call | intros _; exact IH].
Qed.

Lemma blind_ws_send i msg : blind (ws_send i msg) (ws_send i msg).
Proof.
  unfold ws_send. apply blind_bind; [apply blind_ask_world|].
  intros [[]|]; first [apply blind_throw | apply blind_on_world | apply blind_ret].
Qed.

(** The event loop on the blanked instance. *)
Lemma blind_fire (h : handlers A) e s :
  (forall symbols, blind (onopen h symbols) (onopen h symbols)) ->
  (forall f, blind (onmessage h f) (onmessage h f)) ->
  blind (onerror h) (onerror h) ->
  (forall symbols, blind (onclose h symbols) (onclose h symbols)) ->
  (forall symbols, blind (ontimeout h symbols) (ontimeout h symbols)) ->
  fire h e (veil s) = veil <$> fire h e s.
Proof.
  intros Hopen Hmsg Herr Hclose Htimer.
  assert (Hh : forall X (m : M A X) s0, blind m m -> handled m (veil s0) = veil (handled m s0))
    by (intros X m s0 Hm; unfold handled; now rewrite (Hm s0)).
  destruct e as [i|i f|i|i|k|t]; cbn.
  - destruct (sockets (world s) !! i) as [w|]; [|reflexivity].
    destruct (ws_readyState w); try reflexivity. cbn. f_equal.
    apply (Hh _ _ (set_ready i OPEN s)), Hopen.
  - destruct (sockets (world s) !! i) as [w|]; [|reflexivity].
    destruct (ws_readyState w); try reflexivity. cbn. f_equal. apply Hh, Hmsg.
  - destruct (sockets (world s) !! i) as [w|]; [|reflexivity].
    destruct (ws_readyState w); try reflexivity; cbn; f_equal; apply Hh, Herr.
  - destruct (sockets (world s) !! i) as [w|]; [|reflexivity].
    destruct (ws_readyState w); try reflexivity; cbn; f_equal;
      apply (Hh _ _ (set_ready i CLOSED s)), Hclose.
  - destruct (timers (world s) !! k) as [[d symbols]|]; [|reflexivity].
    cbn. f_equal. apply (Hh _ _ (drop_timer k s)), Htimer.
  - now destruct (now (world s) <=? t).
Qed.

Lemma blind_run {C} (invoke : C -> M A unit) (h : handlers A) (blank : C -> C) :
  (forall c, blind (invoke (blank c)) (invoke c)) ->
  (forall e s, fire h e (veil s) = veil <$> fire h e s) ->
  forall acts s,
    run invoke h
      (map (fun a => match a with Api c => Api (blank c) | Env e => Env e end) acts)
      (veil s)
    = veil <$> run invoke h acts s.
Proof.
  intros Hcall Hfire acts. induction acts as [|a acts IH]; intros s; [reflexivity|].
  cbn [map run]. destruct a as [c|e]; cbn [step].
  - unfold handled. rewrite (Hcall c s). cbn [snd]. apply IH.
  - rewrite Hfire. destruct (fire h e s) as [s1|]; cbn; [apply IH | reflexivity].
Qed.
End Blind.

(** Walks through the two bodies side by side. *)
Ltac blindly ops :=
  repeat lazymatch goal with
    | |- blind _ (bind (gets _) _) (bind (gets _) _) =>
        apply blind_gets; intros ?; cbn; ops
    | |- blind ?f (bind _ _) (bind _ _) => apply (blind_bind f); [ | intros ? ]
    | |- blind ?f (try_catch _ _) (try_catch _ _) => apply (blind_try f); [ | intros ? ]
    | |- blind ?f (ret _) (ret _) => apply (blind_ret f)
    | |- blind ?f (throw _) (throw _) => apply (blind_throw f)
    | |- blind ?f (lift _) (lift _) => apply (blind_lift f)
    | |- blind ?f (ask_world _) (ask_world _) => apply (blind_ask_world f)
    | |- blind ?f date_now date_now => apply (blind_ask_world f)
    | |- blind ?f (ws_state _) (ws_state _) => apply (blind_ask_world f)
    | |- blind ?f (on_world _) (on_world _) => apply (blind_on_world f)
    | |- blind ?f (console _) (console _) => apply (blind_on_world f)
    | |- blind ?f (ws_close _) (ws_close _) => apply (blind_on_world f)
    | |- blind ?f (set_timeout _ _) (set_timeout _ _) => apply (blind_on_world f)
    | |- blind ?f (ws_new _ _) (ws_new _ _) => apply (blind_ws_new f)
    | |- blind ?f (ws_send _ _) (ws_send _ _) => apply (blind_ws_send f)
    | |- blind ?f (fetch _) (fetch _) => apply (blind_fetch f)
    | |- blind ?f (forEach _ _) (forEach _ _) => apply (blind_forEach f)
    | |- blind ?f (modify _) (modify _) => apply (blind_modify f); intros ?; ops
    | |- blind _ (if ?b then _ else _) (if ?b then _ else _) => destruct b
    | |- blind _ (match ?x with _ => _ end) (match ?x with _ => _ end) => destruct x
    | |- blind _ (let _ := _ in _) _ => cbv zeta
    | |- blind _ ?m ?m' => let h := head_of m in unfold h
    end.

Section Crypto.
Import CryptoAPI.

(** The configuration without its secret key and its leverage. *)
Definition public (c : CryptoExchangeConfig) : CryptoExchangeConfig :=
  {| name := name c; apiKey := apiKey c; secretKey := EmptyString;
     passphrase := passphrase c; baseUrl := baseUrl c; testnet := testnet c;
     default_leverage := None |}.

Definition crypto_forget (a : t) : t := set_config (public <$> config a) a.

Ltac crypto_ops :=
  try match goal with
      | a : t |- _ => destruct a as [[[]|] ? ? ? ?]
      end; cbn; try reflexivity.

(** A call with the same fields blanked in the configuration it passes. *)
Definition crypto_blank (c : call) : call :=
  match c with
  | Configure cfg => Configure (public cfg)
  | _ => c
  end.

Lemma crypto_blind_calls c : blind crypto_forget (invoke (crypto_blank c)) (invoke c).
Proof. destruct c; cbn [crypto_blank invoke]; blindly crypto_ops. Qed.

Lemma crypto_blind_fire e s :
  fire socket_handlers e (veil crypto_forget s) =
    veil crypto_forget <$> fire socket_handlers e s.
Proof.
  apply blind_fire; [intros ? | intros ? | | intros ? | intros ?];
    cbn [onopen onmessage onerror onclose ontimeout socket_handlers];
    blindly crypto_ops.
Qed.
End Crypto.

Section Trading.
Import TradingAPI.

(** The configuration without its account id. *)
Definition anonymous (c : BrokerConfig) : BrokerConfig :=
  {| name := name c; apiKey := apiKey c; secretKey := secretKey c;
     baseUrl := baseUrl c; sandbox := sandbox c; accountId := None |}.

Definition trading_forget (a : t) : t := set_config (anonymous <$> config a) a.

Ltac trading_ops :=
  try match goal with
      | a : t |- _ => destruct a as [[[]|] ? ? ? ?]
      end; cbn; try reflexivity.

Definition trading_blank (c : call) : call :=
  match c with
  | Configure cfg => Configure (anonymous cfg)
  | _ => c
  end.

Lemma trading_blind_calls c : blind trading_forget (invoke (trading_blank c)) (invoke c).
Proof. destruct c; cbn [trading_blank invoke]; blindly trading_ops. Qed.

Lemma trading_blind_fire e s :
  fire socket_handlers e (veil trading_forget s) =
    veil trading_forget <$> fire socket_handlers e s.
Proof.
  apply blind_fire; [intros ? | intros ? | | intros ? | intros ?];
    cbn [onopen onmessage onerror onclose ontimeout socket_handlers];
    blindly trading_ops.
Qed.
End Trading.

(** The run in which every configuration is passed without the fields
    that [blank] blanks. *)
Definition blanked {C} (blank : C -> C) (acts : list (action C)) : list (action C) :=
  map (fun a => match a with Api c => Api (blank c) | Env e => Env e end) acts.

(** [CryptoAPI] never uses the secret key (nor the leverage) of its
    configuration, and [TradingAPI] never uses the account id: a run in
    which these fields are blanked, in the stored configuration and in
    every configuration passed to [configure], is enabled exactly when
    the run itself is, and ends in the same world (the same sockets,
    timers, requests with their headers and bodies, frames, log lines
    and callback invocations) and in the same instance up to the
    blanked fields.  In particular no request of [CryptoAPI] is
    signed. *)
Theorem unused_fields_do_not_matter :
  (forall acts s,
     CryptoAPI.exec (blanked crypto_blank acts) (veil crypto_forget s) =
       veil crypto_forget <$> CryptoAPI.exec acts s) /\
  (forall acts s,
     TradingAPI.exec (blanked trading_blank acts) (veil trading_forget s) =
       veil trading_forget <$> TradingAPI.exec acts s).
Proof.
  split; intros acts s.
  - apply blind_run; [apply crypto_blind_calls | apply crypto_blind_fire].
  - apply blind_run; [apply trading_blind_calls | apply trading_blind_fire].
Qed.

End Unused.
